(** * nova-sonic-sample: the session protocol of [run.py]

    A shallow embedding of [NovaVoiceChat] and [main] (src/run.py) and of
    the library functions they call ([json.loads], [base64.b64encode],
    [base64.b64decode], [bytes.decode]), followed by the properties of the
    session protocol.

    - A Python [str] is represented by its UTF-8 encoding as a Rocq
      [string]; audio [bytes] are a [list Byte.byte].
    - The object and what lies outside it (the streams, the wire, the
      terminal, the loudspeaker) form the state; a coroutine is a function
      of the state that returns, raises or stays suspended in an [await].
    - The transport is the collaborator the source takes it for: opening a
      stream succeeds, a send on an open input stream puts the event on the
      wire, a send on a closed one fails.
    - The terminal takes UTF-8, as Python has it on Linux and macOS:
      [print] fails with [UnicodeEncodeError] on a text that has no UTF-8
      encoding (a lone surrogate, which an escape of a JSON text can
      produce) and writes nothing then.
    - The limits of the interpreter (recursion depth, number of digits of
      an integer) are not modelled. *)

From Stdlib Require Import String Ascii List NArith Arith Lia Bool.
From Stdlib Require Strings.Byte.
Import ListNotations.
Set Warnings "-register-all".
Open Scope string_scope.

(* ------------------------------------------------------------------------- *)
(** * Characters and strings *)
(* ------------------------------------------------------------------------- *)

(** The double quote, the backslash and the apostrophe. *)
Definition dquote : ascii := "034"%char.
Definition bslash : ascii := "092"%char.
Definition squote : ascii := "039"%char.

Definition code (c : ascii) : N := N_of_ascii c.

Definition in_range (lo hi : N) (c : ascii) : bool :=
  ((lo <=? code c) && (code c <=? hi))%N.

Definition is_digit (c : ascii) : bool := in_range 48 57 c.
Definition is_digit19 (c : ascii) : bool := in_range 49 57 c.

Fixpoint chars (s : string) : list ascii :=
  match s with
  | EmptyString => []
  | String c r => c :: chars r
  end.

Fixpoint map_string (f : ascii -> ascii) (s : string) : string :=
  match s with
  | EmptyString => EmptyString
  | String c r => String (f c) (map_string f r)
  end.

(** The event templates of [run.py] are Python f-strings full of double
    quotes.  They are written here with an apostrophe wherever the source has
    a double quote (no template of the source contains an apostrophe) and
    [fstr] puts the double quotes back. *)
Definition fstr (s : string) : string :=
  map_string (fun c => if (c =? squote)%char then dquote else c) s.

(** [strip_prefix p s] is [Some r] when [s = p ++ r]. *)
Fixpoint strip_prefix (p s : string) : option string :=
  match p with
  | EmptyString => Some s
  | String a p' =>
      match s with
      | EmptyString => None
      | String b s' => if (a =? b)%char then strip_prefix p' s' else None
      end
  end.

Definition starts_with (p s : string) : bool :=
  match strip_prefix p s with Some _ => true | None => false end.

(** [needle in haystack] on Python strings. *)
Fixpoint is_substring (needle hay : string) : bool :=
  starts_with needle hay ||
  match hay with
  | EmptyString => false
  | String _ r => is_substring needle r
  end.

(* ------------------------------------------------------------------------- *)
(** * Exceptions and results *)
(* ------------------------------------------------------------------------- *)

(** The Python exceptions the program can meet.  [CancelledError] derives
    from [BaseException]: a handler for [Exception] does not catch it. *)
Inductive exn : Type :=
| UnicodeDecodeError
| UnicodeEncodeError
| JSONDecodeError
| RecursionError
| TypeError
| KeyError (key : string)
| AttributeError
| ValueError
| BinasciiError
| TransportError
| OSError
| CancelledError.

Definition is_Exception (e : exn) : bool :=
  match e with CancelledError => false | _ => true end.

Inductive result (A : Type) : Type :=
| Ok (a : A)
| Raise (e : exn).
Arguments Ok {A} a.
Arguments Raise {A} e.

(* ------------------------------------------------------------------------- *)
(** * [bytes.decode('utf-8')] *)
(* ------------------------------------------------------------------------- *)

Module Utf8.

Definition cont (c : ascii) : bool := in_range 128 191 c.

(** Well-formed UTF-8 byte sequences (the strict decoder of Python: no
    overlong form, no surrogate, nothing above U+10FFFF). *)
Fixpoint valid (s : string) : bool :=
  match s with
  | EmptyString => true
  | String a r =>
      if in_range 0 127 a then valid r
      else
        match r with
        | EmptyString => false
        | String b r1 =>
            if in_range 194 223 a then cont b && valid r1
            else
              match r1 with
              | EmptyString => false
              | String c r2 =>
                  if in_range 224 239 a then
                    (if (code a =? 224)%N then in_range 160 191 b
                     else if (code a =? 237)%N then in_range 128 159 b
                     else cont b)
                    && cont c && valid r2
                  else
                    match r2 with
                    | EmptyString => false
                    | String d r3 =>
                        if in_range 240 244 a then
                          (if (code a =? 240)%N then in_range 144 191 b
                           else if (code a =? 244)%N then in_range 128 143 b
                           else cont b)
                          && cont c && cont d && valid r3
                        else false
                    end
              end
        end
  end.

(** The encoding of one code point.  Lone surrogates, which [json.loads]
    can produce from an escape, are written in the same three-byte form. *)
Definition encode (c : N) : string :=
  let b (n : N) := ascii_of_N n in
  (if c <? 128 then String (b c) ""
   else if c <? 2048 then
     String (b (192 + c / 64)) (String (b (128 + c mod 64)) "")
   else if c <? 65536 then
     String (b (224 + c / 4096))
       (String (b (128 + (c / 64) mod 64)) (String (b (128 + c mod 64)) ""))
   else
     String (b (240 + c / 262144))
       (String (b (128 + (c / 4096) mod 64))
          (String (b (128 + (c / 64) mod 64))
             (String (b (128 + c mod 64)) ""))))%N.

(** [bytes_.decode('utf-8')] *)
Definition decode (bytes_ : string) : result string :=
  if valid bytes_ then Ok bytes_ else Raise UnicodeDecodeError.

End Utf8.

(* ------------------------------------------------------------------------- *)
(** * [json.loads] *)
(* ------------------------------------------------------------------------- *)

(** What [json.loads] returns.  A number keeps its literal (the program never
    computes with one); an object keeps its members in the order of the
    text, and a later member with the same name overrides an earlier one, as
    in the [dict] Python builds. *)
Inductive json : Type :=
| JNull
| JBool (b : bool)
| JNum (literal : string)
| JStr (s : string)
| JArr (items : list json)
| JObj (members : list (string * json)).

Module Json.

(** The outcome of scanning a prefix of the text: a value and the rest of
    the text, a syntax error, or the exhaustion of the fuel that bounds the
    recursion (which [decode] never meets, see [decode_never_starved]). *)
Inductive scan (A : Type) : Type :=
| Scanned (a : A) (rest : string)
| Malformed
| Starved.
Arguments Scanned {A} a rest.
Arguments Malformed {A}.
Arguments Starved {A}.

Definition is_ws (c : ascii) : bool :=
  (code c =? 32)%N || (code c =? 9)%N || (code c =? 10)%N || (code c =? 13)%N.

Fixpoint skip_ws (s : string) : string :=
  match s with
  | EmptyString => EmptyString
  | String c r => if is_ws c then skip_ws r else s
  end.

Definition hex_val (c : ascii) : option N :=
  if in_range 48 57 c then Some (code c - 48)%N
  else if in_range 97 102 c then Some (code c - 87)%N
  else if in_range 65 70 c then Some (code c - 55)%N
  else None.

Definition hex4 (a b c d : ascii) : option N :=
  match hex_val a, hex_val b, hex_val c, hex_val d with
  | Some x, Some y, Some z, Some w => Some (((x * 16 + y) * 16 + z) * 16 + w)%N
  | _, _, _, _ => None
  end.

Definition is_high_surrogate (c : N) : bool := ((55296 <=? c) && (c <=? 56319))%N.
Definition is_low_surrogate (c : N) : bool := ((56320 <=? c) && (c <=? 57343))%N.
Definition join_surrogates (hi lo : N) : N :=
  (65536 + (hi - 55296) * 1024 + (lo - 56320))%N.

(** The one-letter escapes of a string literal. *)
Definition unescape (e : ascii) : option ascii :=
  if (e =? dquote)%char then Some dquote
  else if (e =? bslash)%char then Some bslash
  else if (e =? "/")%char then Some "/"%char
  else if (e =? "b")%char then Some "008"%char
  else if (e =? "f")%char then Some "012"%char
  else if (e =? "n")%char then Some "010"%char
  else if (e =? "r")%char then Some "013"%char
  else if (e =? "t")%char then Some "009"%char
  else None.

Definition prepend (p : string) (o : option (string * string))
  : option (string * string) :=
  match o with
  | Some (t, rest) => Some (p ++ t, rest)
  | None => None
  end.

(** [py_scanstring], strict: the text after the opening quote, up to and
    including the closing quote.  Returns the decoded string and what
    follows the closing quote. *)
Fixpoint py_scanstring (s : string) : option (string * string) :=
  match s with
  | EmptyString => None
  | String c r =>
      if (c =? dquote)%char then Some (EmptyString, r)
      else if (c =? bslash)%char then
        match r with
        | EmptyString => None
        | String e r1 =>
            if (e =? "u")%char then
              match r1 with
              | String h1 (String h2 (String h3 (String h4 r2))) =>
                  match hex4 h1 h2 h3 h4 with
                  | None => None
                  | Some c1 =>
                      if is_high_surrogate c1 then
                        match r2 with
                        | String b' (String u' (String l1 (String l2
                            (String l3 (String l4 r3))))) =>
                            if (b' =? bslash)%char && (u' =? "u")%char then
                              match hex4 l1 l2 l3 l4 with
                              | None => None
                              | Some c2 =>
                                  if is_low_surrogate c2 then
                                    prepend (Utf8.encode (join_surrogates c1 c2))
                                      (py_scanstring r3)
                                  else prepend (Utf8.encode c1) (py_scanstring r2)
                              end
                            else prepend (Utf8.encode c1) (py_scanstring r2)
                        | _ => prepend (Utf8.encode c1) (py_scanstring r2)
                        end
                      else prepend (Utf8.encode c1) (py_scanstring r2)
                  end
              | _ => None
              end
            else
              match unescape e with
              | Some c' => prepend (String c' "") (py_scanstring r1)
              | None => None
              end
        end
      else if (code c <? 32)%N then None
      else prepend (String c "") (py_scanstring r)
  end.

(** The longest run of decimal digits at the head of [s]. *)
Fixpoint span_digits (s : string) : string * string :=
  match s with
  | EmptyString => (EmptyString, EmptyString)
  | String c r =>
      if is_digit c then let (ds, r') := span_digits r in (String c ds, r')
      else (EmptyString, s)
  end.

(** The number at the head of [s]: an optional minus sign, then either a
    single 0 or a digit 1-9 followed by digits, then an optional fraction
    (a dot and at least one digit), then an optional exponent (e or E, an
    optional sign, at least one digit).  The fraction and the exponent are
    taken only when complete. *)
Definition match_number (s : string) : option (string * string) :=
  let (sign, s1) :=
    match s with
    | String c r => if (c =? "-")%char then ("-", r) else ("", s)
    | EmptyString => ("", s)
    end in
  let int_part :=
    match s1 with
    | String c r =>
        if (c =? "0")%char then Some ("0", r)
        else if is_digit19 c then
          let (ds, r') := span_digits r in Some (String c ds, r')
        else None
    | EmptyString => None
    end in
  match int_part with
  | None => None
  | Some (ip, s2) =>
      let (frac, s3) :=
        match s2 with
        | String p (String d r) =>
            if (p =? ".")%char && is_digit d then
              let (ds, r') := span_digits r in (String p (String d ds), r')
            else ("", s2)
        | _ => ("", s2)
        end in
      let (expo, s4) :=
        match s3 with
        | String e (String d r) =>
            if (e =? "e")%char || (e =? "E")%char then
              if is_digit d then
                let (ds, r') := span_digits r in (String e (String d ds), r')
              else if (d =? "+")%char || (d =? "-")%char then
                match r with
                | String d' r' =>
                    if is_digit d' then
                      let (ds, r'') := span_digits r' in
                      (String e (String d (String d' ds)), r'')
                    else ("", s3)
                | EmptyString => ("", s3)
                end
              else ("", s3)
            else ("", s3)
        | _ => ("", s3)
        end in
      Some (sign ++ ip ++ frac ++ expo, s4)
  end.

(** The literals [null], [true], [false] and the constants [NaN],
    [Infinity], [-Infinity] that [json.loads] accepts. *)
Definition match_constant (s : string) : option (json * string) :=
  match strip_prefix "null" s with
  | Some r => Some (JNull, r)
  | None =>
  match strip_prefix "true" s with
  | Some r => Some (JBool true, r)
  | None =>
  match strip_prefix "false" s with
  | Some r => Some (JBool false, r)
  | None =>
  match strip_prefix "NaN" s with
  | Some r => Some (JNum "NaN", r)
  | None =>
  match strip_prefix "Infinity" s with
  | Some r => Some (JNum "Infinity", r)
  | None =>
  match strip_prefix "-Infinity" s with
  | Some r => Some (JNum "-Infinity", r)
  | None => None
  end end end end end end.

(** [scan_once]: one value at the head of [s] (no leading white space).
    [parse_members] reads the members of an object from the opening quote
    of a name on, [parse_items] the items of an array; both consume the
    closing bracket.  [fuel] bounds the depth of the calls. *)
Fixpoint scan_once (fuel : nat) (s : string) : scan json :=
  match fuel with
  | O => Starved
  | S fuel' =>
      match s with
      | EmptyString => Malformed
      | String c r =>
          if (c =? dquote)%char then
            match py_scanstring r with
            | Some (t, r') => Scanned (JStr t) r'
            | None => Malformed
            end
          else if (c =? "{")%char then
            match skip_ws r with
            | String c' r' =>
                if (c' =? "}")%char then Scanned (JObj []) r'
                else
                  match parse_members fuel' (String c' r') with
                  | Scanned ms r'' => Scanned (JObj ms) r''
                  | Malformed => Malformed
                  | Starved => Starved
                  end
            | EmptyString => Malformed
            end
          else if (c =? "[")%char then
            match skip_ws r with
            | String c' r' =>
                if (c' =? "]")%char then Scanned (JArr []) r'
                else
                  match parse_items fuel' (String c' r') with
                  | Scanned vs r'' => Scanned (JArr vs) r''
                  | Malformed => Malformed
                  | Starved => Starved
                  end
            | EmptyString => Malformed
            end
          else
            match match_constant s with
            | Some (v, r') => Scanned v r'
            | None =>
                match match_number s with
                | Some (lit, r') => Scanned (JNum lit) r'
                | None => Malformed
                end
            end
      end
  end

with parse_members (fuel : nat) (s : string) : scan (list (string * json)) :=
  match fuel with
  | O => Starved
  | S fuel' =>
      match s with
      | EmptyString => Malformed
      | String c r =>
          if (c =? dquote)%char then
            match py_scanstring r with
            | None => Malformed
            | Some (key, r1) =>
                match skip_ws r1 with
                | EmptyString => Malformed
                | String colon r2 =>
                    if (colon =? ":")%char then
                      match scan_once fuel' (skip_ws r2) with
                      | Malformed => Malformed
                      | Starved => Starved
                      | Scanned v r3 =>
                          match skip_ws r3 with
                          | EmptyString => Malformed
                          | String d r4 =>
                              if (d =? "}")%char then Scanned [(key, v)] r4
                              else if (d =? ",")%char then
                                match parse_members fuel' (skip_ws r4) with
                                | Scanned ms r5 => Scanned ((key, v) :: ms) r5
                                | Malformed => Malformed
                                | Starved => Starved
                                end
                              else Malformed
                          end
                      end
                    else Malformed
                end
            end
          else Malformed
      end
  end

with parse_items (fuel : nat) (s : string) : scan (list json) :=
  match fuel with
  | O => Starved
  | S fuel' =>
      match scan_once fuel' s with
      | Malformed => Malformed
      | Starved => Starved
      | Scanned v r =>
          match skip_ws r with
          | EmptyString => Malformed
          | String d r1 =>
              if (d =? "]")%char then Scanned [v] r1
              else if (d =? ",")%char then
                match parse_items fuel' (skip_ws r1) with
                | Scanned vs r2 => Scanned (v :: vs) r2
                | Malformed => Malformed
                | Starved => Starved
                end
              else Malformed
          end
      end
  end.

(** [JSONDecoder.decode]: white space, one value, white space, end of text. *)
Definition decode (s : string) : scan json :=
  match scan_once (2 * String.length s + 2) (skip_ws s) with
  | Scanned v r =>
      match skip_ws r with
      | EmptyString => Scanned v EmptyString
      | String _ _ => Malformed
      end
  | Malformed => Malformed
  | Starved => Starved
  end.

(** [json.loads(s)] for a [str] argument. *)
Definition loads (s : string) : result json :=
  match decode s with
  | Scanned v _ => Ok v
  | Malformed => Raise JSONDecodeError
  | Starved => Raise RecursionError
  end.

End Json.

(* ------------------------------------------------------------------------- *)
(** * Python operators on decoded values *)
(* ------------------------------------------------------------------------- *)

Module Py.

(** Lookup in the [dict] built from the members: the last member of that
    name wins. *)
Definition dict_get (key : string) (members : list (string * json))
  : option json :=
  fold_left (fun acc kv => if (fst kv =? key)%string then Some (snd kv) else acc)
    members None.

(** [v == s] for a [str] constant [s]. *)
Definition eq_str (v : json) (s : string) : bool :=
  match v with
  | JStr t => (t =? s)%string
  | _ => false
  end.

(** [key in obj] *)
Definition contains (key : string) (obj : json) : result bool :=
  match obj with
  | JObj ms => Ok (match dict_get key ms with Some _ => true | None => false end)
  | JArr vs => Ok (existsb (fun v => eq_str v key) vs)
  | JStr s => Ok (is_substring key s)
  | JNull | JBool _ | JNum _ => Raise TypeError
  end.

(** [obj[key]] for a [str] constant [key]. *)
Definition getitem (obj : json) (key : string) : result json :=
  match obj with
  | JObj ms =>
      match dict_get key ms with
      | Some v => Ok v
      | None => Raise (KeyError key)
      end
  | _ => Raise TypeError
  end.

(** [obj.get(key)] *)
Definition get (obj : json) (key : string) : result json :=
  match obj with
  | JObj ms =>
      Ok (match dict_get key ms with Some v => v | None => JNull end)
  | _ => Raise AttributeError
  end.

(** [json.loads(v)] for a decoded value [v]. *)
Definition json_loads (v : json) : result json :=
  match v with
  | JStr s => Json.loads s
  | _ => Raise TypeError
  end.

End Py.

(* ------------------------------------------------------------------------- *)
(** * [base64.b64encode] and [base64.b64decode] *)
(* ------------------------------------------------------------------------- *)

Module Base64.

Definition alphabet : string :=
  "ABCDEFGHIJKLMNOPQRSTUVWXYZabcdefghijklmnopqrstuvwxyz0123456789+/".

Definition pad : ascii := "="%char.

Definition table_b2a (n : N) : ascii :=
  nth (N.to_nat n) (chars alphabet) pad.

Fixpoint index_of (c : ascii) (l : list ascii) (i : N) : option N :=
  match l with
  | [] => None
  | x :: r => if (x =? c)%char then Some i else index_of c r (N.succ i)
  end.

Definition table_a2b (c : ascii) : option N := index_of c (chars alphabet) 0%N.

(** A value stored into an [unsigned char]. *)
Definition byte_of_N (n : N) : Byte.byte :=
  match Byte.of_N (n mod 256) with
  | Some b => b
  | None => Byte.x00
  end.

Definition shl (n k : N) : N := N.shiftl n k.
Definition shr (n k : N) : N := N.shiftr n k.

(** The four digits of a group of three bytes [a], [b], [c]; the last
    group of one or two bytes is completed with zero bits. *)
Definition digit1 (a : N) : N := shr a 2.
Definition digit2 (a b : N) : N := N.lor (shl (N.land a 3) 4) (shr b 4).
Definition digit3 (b c : N) : N := N.lor (shl (N.land b 15) 2) (shr c 6).
Definition digit4 (c : N) : N := N.land c 63.
Definition digit2_last (a : N) : N := shl (N.land a 3) 4.
Definition digit3_last (b : N) : N := shl (N.land b 15) 2.

(** [binascii.b2a_base64(bs, newline=False)], three bytes at a time. *)
Fixpoint b2a_base64 (bs : list Byte.byte) : string :=
  match bs with
  | [] => EmptyString
  | [a] =>
      let a := Byte.to_N a in
      String (table_b2a (digit1 a))
        (String (table_b2a (digit2_last a)) (String pad (String pad "")))
  | [a; b] =>
      let a := Byte.to_N a in
      let b := Byte.to_N b in
      String (table_b2a (digit1 a))
        (String (table_b2a (digit2 a b))
           (String (table_b2a (digit3_last b)) (String pad "")))
  | a :: b :: c :: r =>
      let a := Byte.to_N a in
      let b := Byte.to_N b in
      let c := Byte.to_N c in
      String (table_b2a (digit1 a))
        (String (table_b2a (digit2 a b))
           (String (table_b2a (digit3 b c))
              (String (table_b2a (digit4 c)) (b2a_base64 r))))
  end.

(** [base64.b64encode(bs).decode('utf-8')] *)
Definition b64encode (bs : list Byte.byte) : string := b2a_base64 bs.

Definition emit (b : Byte.byte) (r : result (list Byte.byte))
  : result (list Byte.byte) :=
  match r with
  | Ok bs => Ok (b :: bs)
  | Raise e => Raise e
  end.

(** [binascii.a2b_base64], not strict: characters outside the alphabet are
    skipped; [quad_pos] is the position in the current group of four,
    [leftchar] the bits not yet written, [pads] the padding seen since the
    last data character. *)
Fixpoint a2b_base64 (s : string) (quad_pos : nat) (leftchar : N) (pads : nat)
  : result (list Byte.byte) :=
  match s with
  | EmptyString =>
      match quad_pos with
      | O => Ok []
      | _ => Raise BinasciiError
      end
  | String this_ch r =>
      if (this_ch =? pad)%char then
        if (2 <=? quad_pos)%nat then
          if (4 <=? quad_pos + S pads)%nat then Ok []
          else a2b_base64 r quad_pos leftchar (S pads)
        else a2b_base64 r quad_pos leftchar pads
      else
        match table_a2b this_ch with
        | None => a2b_base64 r quad_pos leftchar pads
        | Some v =>
            match quad_pos with
            | 0%nat => a2b_base64 r 1 v 0
            | 1%nat =>
                emit (byte_of_N (N.lor (shl leftchar 2) (shr v 4)))
                  (a2b_base64 r 2 (N.land v 15) 0)
            | 2%nat =>
                emit (byte_of_N (N.lor (shl leftchar 4) (shr v 2)))
                  (a2b_base64 r 3 (N.land v 3) 0)
            | _ =>
                emit (byte_of_N (N.lor (shl leftchar 6) v))
                  (a2b_base64 r 0 0%N 0)
            end
        end
  end.

Definition is_ascii (s : string) : bool :=
  forallb (fun c => (code c <? 128)%N) (chars s).

(** [base64.b64decode(v)] for a decoded value [v]. *)
Definition b64decode (v : json) : result (list Byte.byte) :=
  match v with
  | JStr s =>
      if is_ascii s then a2b_base64 s 0 0%N 0 else Raise ValueError
  | _ => Raise TypeError
  end.

End Base64.

(* ------------------------------------------------------------------------- *)
(** * The state of the program *)
(* ------------------------------------------------------------------------- *)

(** The fields of a [NovaVoiceChat] object.  [client] is the endpoint of the
    Bedrock client once it is built, [stream] the handle of the bidirectional
    stream, [response] tells whether the task running [_process_responses]
    has been created, [role] is [JNull] for Python's [None]. *)
Record NovaVoiceChat : Type := {
  model_id : string;
  region : string;
  voice_id : string;
  client : option string;
  stream : option nat;
  response : bool;
  is_active : bool;
  prompt_name : string;
  content_name : string;
  audio_content_name : string;
  audio_queue : list (list Byte.byte);
  display_assistant_text : bool;
  role : json
}.

(** [NovaVoiceChat.__init__]; the three identifiers are what the three calls
    of [str(uuid.uuid4())] return. *)
Definition init (voice_id uuid1 uuid2 uuid3 : string) : NovaVoiceChat :=
  {| model_id := "amazon.nova-sonic-v1:0";
     region := "us-east-1";
     voice_id := voice_id;
     client := None;
     stream := None;
     response := false;
     is_active := false;
     prompt_name := uuid1;
     content_name := uuid2;
     audio_content_name := uuid3;
     audio_queue := [];
     display_assistant_text := false;
     role := JNull |}.

Definition with_client (v : option string) (o : NovaVoiceChat) :=
  {| model_id := model_id o; region := region o; voice_id := voice_id o;
     client := v; stream := stream o; response := response o;
     is_active := is_active o; prompt_name := prompt_name o;
     content_name := content_name o;
     audio_content_name := audio_content_name o;
     audio_queue := audio_queue o;
     display_assistant_text := display_assistant_text o; role := role o |}.

Definition with_stream (v : option nat) (o : NovaVoiceChat) :=
  {| model_id := model_id o; region := region o; voice_id := voice_id o;
     client := client o; stream := v; response := response o;
     is_active := is_active o; prompt_name := prompt_name o;
     content_name := content_name o;
     audio_content_name := audio_content_name o;
     audio_queue := audio_queue o;
     display_assistant_text := display_assistant_text o; role := role o |}.

Definition with_response (v : bool) (o : NovaVoiceChat) :=
  {| model_id := model_id o; region := region o; voice_id := voice_id o;
     client := client o; stream := stream o; response := v;
     is_active := is_active o; prompt_name := prompt_name o;
     content_name := content_name o;
     audio_content_name := audio_content_name o;
     audio_queue := audio_queue o;
     display_assistant_text := display_assistant_text o; role := role o |}.

Definition with_is_active (v : bool) (o : NovaVoiceChat) :=
  {| model_id := model_id o; region := region o; voice_id := voice_id o;
     client := client o; stream := stream o; response := response o;
     is_active := v; prompt_name := prompt_name o;
     content_name := content_name o;
     audio_content_name := audio_content_name o;
     audio_queue := audio_queue o;
     display_assistant_text := display_assistant_text o; role := role o |}.

Definition with_audio_queue (v : list (list Byte.byte)) (o : NovaVoiceChat) :=
  {| model_id := model_id o; region := region o; voice_id := voice_id o;
     client := client o; stream := stream o; response := response o;
     is_active := is_active o; prompt_name := prompt_name o;
     content_name := content_name o;
     audio_content_name := audio_content_name o;
     audio_queue := v;
     display_assistant_text := display_assistant_text o; role := role o |}.

Definition with_display_assistant_text (v : bool) (o : NovaVoiceChat) :=
  {| model_id := model_id o; region := region o; voice_id := voice_id o;
     client := client o; stream := stream o; response := response o;
     is_active := is_active o; prompt_name := prompt_name o;
     content_name := content_name o;
     audio_content_name := audio_content_name o;
     audio_queue := audio_queue o;
     display_assistant_text := v; role := role o |}.

Definition with_role (v : json) (o : NovaVoiceChat) :=
  {| model_id := model_id o; region := region o; voice_id := voice_id o;
     client := client o; stream := stream o; response := response o;
     is_active := is_active o; prompt_name := prompt_name o;
     content_name := content_name o;
     audio_content_name := audio_content_name o;
     audio_queue := audio_queue o;
     display_assistant_text := display_assistant_text o; role := v |}.

(** A line written by [print]: a text made of constants of the source, or an
    f-string that ends with a decoded value or with an exception. *)
Inductive line : Type :=
| Text (s : string)
| Fmt (prefix : string) (v : json)
| FmtExn (prefix : string) (e : exn).

(** [str(v)] can be encoded for the terminal.  A string goes into the
    f-string as it is, and it has an encoding unless it holds a lone
    surrogate; numbers, constants, arrays and objects are formatted with
    [repr], which escapes what cannot be printed. *)
Definition printable (v : json) : bool :=
  match v with
  | JStr s => Utf8.valid s
  | _ => true
  end.

(** What lies outside the object: the streams opened so far (a stream is
    named by its rank), the events sent, each with the stream it was sent on,
    oldest first, the streams whose input side has been closed, the lines
    printed, and the chunks written to the loudspeaker. *)
Record World : Type := {
  opened : nat;
  wire : list (nat * string);
  closed : list nat;
  stdout : list line;
  speaker : list (list Byte.byte)
}.

Definition empty_world : World :=
  {| opened := 0; wire := []; closed := []; stdout := []; speaker := [] |}.

Record State : Type := { chat : NovaVoiceChat; world : World }.

(* ------------------------------------------------------------------------- *)
(** * The events sent by the program *)
(* ------------------------------------------------------------------------- *)

(** [session_start] *)
Definition session_start : string :=
  fstr "
        {
          'event': {
            'sessionStart': {
              'inferenceConfiguration': {
                'maxTokens': 1024,
                'topP': 0.9,
                'temperature': 0.7
              }
            }
          }
        }
        ".

(** [prompt_start] *)
Definition prompt_start (prompt_name voice_id : string) : string :=
  fstr "
        {
          'event': {
            'promptStart': {
              'promptName': '" ++
  prompt_name ++
  fstr "',
              'textOutputConfiguration': {
                'mediaType': 'text/plain'
              },
              'audioOutputConfiguration': {
                'mediaType': 'audio/lpcm',
                'sampleRateHertz': 24000,
                'sampleSizeBits': 16,
                'channelCount': 1,
                'voiceId': '" ++
  voice_id ++
  fstr "',
                'encoding': 'base64',
                'audioType': 'SPEECH'
              }
            }
          }
        }
        ".

(** [text_content_start] *)
Definition text_content_start (prompt_name content_name : string) : string :=
  fstr "
        {
            'event': {
                'contentStart': {
                    'promptName': '" ++
  prompt_name ++
  fstr "',
                    'contentName': '" ++
  content_name ++
  fstr "',
                    'type': 'TEXT',
                    'interactive': true,
                    'role': 'SYSTEM',
                    'textInputConfiguration': {
                        'mediaType': 'text/plain'
                    }
                }
            }
        }
        ".

(** [text_input] *)
Definition text_input (prompt_name content_name system_prompt : string) : string :=
  fstr "
        {
            'event': {
                'textInput': {
                    'promptName': '" ++
  prompt_name ++
  fstr "',
                    'contentName': '" ++
  content_name ++
  fstr "',
                    'content': '" ++
  system_prompt ++
  fstr "'
                }
            }
        }
        ".

(** [text_content_end] *)
Definition text_content_end (prompt_name content_name : string) : string :=
  fstr "
        {
            'event': {
                'contentEnd': {
                    'promptName': '" ++
  prompt_name ++
  fstr "',
                    'contentName': '" ++
  content_name ++
  fstr "'
                }
            }
        }
        ".

(** [audio_content_start] *)
Definition audio_content_start (prompt_name audio_content_name : string) : string :=
  fstr "
        {
            'event': {
                'contentStart': {
                    'promptName': '" ++
  prompt_name ++
  fstr "',
                    'contentName': '" ++
  audio_content_name ++
  fstr "',
                    'type': 'AUDIO',
                    'interactive': true,
                    'role': 'USER',
                    'audioInputConfiguration': {
                        'mediaType': 'audio/lpcm',
                        'sampleRateHertz': 16000,
                        'sampleSizeBits': 16,
                        'channelCount': 1,
                        'audioType': 'SPEECH',
                        'encoding': 'base64'
                    }
                }
            }
        }
        ".

(** [audio_event] *)
Definition audio_event (prompt_name audio_content_name blob : string) : string :=
  fstr "
        {
            'event': {
                'audioInput': {
                    'promptName': '" ++
  prompt_name ++
  fstr "',
                    'contentName': '" ++
  audio_content_name ++
  fstr "',
                    'content': '" ++
  blob ++
  fstr "'
                }
            }
        }
        ".

(** [audio_content_end] *)
Definition audio_content_end (prompt_name audio_content_name : string) : string :=
  fstr "
        {
            'event': {
                'contentEnd': {
                    'promptName': '" ++
  prompt_name ++
  fstr "',
                    'contentName': '" ++
  audio_content_name ++
  fstr "'
                }
            }
        }
        ".

(** [prompt_end] *)
Definition prompt_end (prompt_name : string) : string :=
  fstr "
        {
            'event': {
                'promptEnd': {
                    'promptName': '" ++
  prompt_name ++
  fstr "'
                }
            }
        }
        ".

(** [session_end] *)
Definition session_end : string :=
  fstr "
        {
            'event': {
                'sessionEnd': {}
            }
        }
        ".

(** [system_prompt] of [start_session] *)
Definition system_prompt : string :=
  "You are a friendly assistant. The user and you will engage in a spoken dialog " ++
  "exchanging the transcripts of a natural real-time conversation. Keep your responses short, " ++
  "generally two or three sentences for chatty scenarios.".

(* ------------------------------------------------------------------------- *)
(** * Computations: state, exceptions and suspension *)
(* ------------------------------------------------------------------------- *)

(** How a run of a coroutine ends: it returns, it raises, or it is left
    suspended in an [await] that has not completed. *)
Inductive outcome (A : Type) : Type :=
| Returns (a : A)
| Raises (e : exn)
| Suspends.
Arguments Returns {A} a.
Arguments Raises {A} e.
Arguments Suspends {A}.

(** A coroutine body: it runs from a state and leaves a state; what it
    changed before raising or suspending stays changed. *)
Definition M (A : Type) : Type := State -> outcome A * State.

Definition ret {A : Type} (a : A) : M A := fun st => (Returns a, st).

Definition raise {A : Type} (e : exn) : M A := fun st => (Raises e, st).

(** An [await] on something that does not arrive. *)
Definition suspend {A : Type} : M A := fun st => (Suspends, st).

Definition bind {A B : Type} (m : M A) (k : A -> M B) : M B :=
  fun st =>
    match m st with
    | (Returns a, st') => k a st'
    | (Raises e, st') => (Raises e, st')
    | (Suspends, st') => (Suspends, st')
    end.

Declare Scope py_scope.
Delimit Scope py_scope with py.
Notation "x <- m ;; k" := (bind m (fun x => k))
  (at level 61, m at next level, right associativity) : py_scope.
Notation "m ;; k" := (bind m (fun _ => k))
  (at level 61, right associativity) : py_scope.
Open Scope py_scope.

(** A pure operation that may raise. *)
Definition lift {A : Type} (r : result A) : M A :=
  fun st =>
    match r with
    | Ok a => (Returns a, st)
    | Raise e => (Raises e, st)
    end.

Definition get_self : M NovaVoiceChat := fun st => (Returns (chat st), st).

Definition set_self (f : NovaVoiceChat -> NovaVoiceChat) : M unit :=
  fun st => (Returns tt, {| chat := f (chat st); world := world st |}).

(** [print(...)]: the line is encoded and written.  The constants of the
    source and the text of an exception have an encoding; a decoded value may
    have none, and then [print] raises and nothing is written. *)
Definition print (l : line) : M unit :=
  fun st =>
    let w := world st in
    let written :=
      (Returns tt,
       {| chat := chat st;
          world := {| opened := opened w; wire := wire w; closed := closed w;
                      stdout := stdout w ++ [l]; speaker := speaker w |} |}) in
    match l with
    | Fmt _ v =>
        if printable v then written else (Raises UnicodeEncodeError, st)
    | _ => written
    end.

(** [try: body except ...: handler]; [handler e] is [None] when no clause
    matches [e].  A suspended body has not left the [try] yet. *)
Definition try_except {A : Type} (body : M A) (handler : exn -> option (M A))
  : M A :=
  fun st =>
    match body st with
    | (Raises e, st') =>
        match handler e with
        | Some h => h st'
        | None => (Raises e, st')
        end
    | other => other
    end.

(** [try: body finally: cleanup] *)
Definition try_finally {A : Type} (body : M A) (cleanup : M unit) : M A :=
  fun st =>
    match body st with
    | (Suspends, st') => (Suspends, st')
    | (r, st') =>
        match cleanup st' with
        | (Returns _, st'') => (r, st'')
        | (Raises e, st'') => (Raises e, st'')
        | (Suspends, st'') => (Suspends, st'')
        end
    end.

(* ------------------------------------------------------------------------- *)
(** * The transport *)
(* ------------------------------------------------------------------------- *)

(** [client.invoke_model_with_bidirectional_stream(...)]: a new stream. *)
Definition invoke_model_with_bidirectional_stream : M nat :=
  fun st =>
    let w := world st in
    (Returns (opened w),
     {| chat := chat st;
        world := {| opened := S (opened w); wire := wire w;
                    closed := closed w; stdout := stdout w;
                    speaker := speaker w |} |}).

(** [stream.input_stream.send(event)]: the event goes on the wire; sending
    on a closed input stream fails. *)
Definition input_stream_send (h : nat) (bytes_ : string) : M unit :=
  fun st =>
    let w := world st in
    if existsb (Nat.eqb h) (closed w) then (Raises TransportError, st)
    else
      (Returns tt,
       {| chat := chat st;
          world := {| opened := opened w; wire := wire w ++ [(h, bytes_)];
                      closed := closed w; stdout := stdout w;
                      speaker := speaker w |} |}).

(** [stream.input_stream.close()] *)
Definition input_stream_close (h : nat) : M unit :=
  fun st =>
    let w := world st in
    (Returns tt,
     {| chat := chat st;
        world := {| opened := opened w; wire := wire w;
                    closed := h :: closed w; stdout := stdout w;
                    speaker := speaker w |} |}).

(** The stream of the object; [self.stream] is [None] before
    [start_session]. *)
Definition the_stream : M nat :=
  o <- get_self ;;
  match stream o with
  | Some h => ret h
  | None => raise AttributeError
  end.

(* ------------------------------------------------------------------------- *)
(** * The methods of [NovaVoiceChat] *)
(* ------------------------------------------------------------------------- *)

(** [_initialize_client] *)
Definition _initialize_client : M unit :=
  o <- get_self ;;
  set_self (with_client
    (Some ("https://bedrock-runtime." ++ region o ++ ".amazonaws.com"))).

(** [send_event] *)
Definition send_event (event_json : string) : M unit :=
  h <- the_stream ;;
  input_stream_send h event_json.

(** [start_session] *)
Definition start_session : M unit :=
  o <- get_self ;;
  (match client o with
   | None => _initialize_client
   | Some _ => ret tt
   end) ;;
  h <- invoke_model_with_bidirectional_stream ;;
  set_self (with_stream (Some h)) ;;
  set_self (with_is_active true) ;;
  send_event session_start ;;
  o <- get_self ;;
  send_event (prompt_start (prompt_name o) (voice_id o)) ;;
  o <- get_self ;;
  send_event (text_content_start (prompt_name o) (content_name o)) ;;
  o <- get_self ;;
  send_event (text_input (prompt_name o) (content_name o) system_prompt) ;;
  o <- get_self ;;
  send_event (text_content_end (prompt_name o) (content_name o)) ;;
  set_self (with_response true).

(** [start_audio_input] *)
Definition start_audio_input : M unit :=
  o <- get_self ;;
  send_event (audio_content_start (prompt_name o) (audio_content_name o)).

(** [send_audio_chunk] *)
Definition send_audio_chunk (audio_bytes : list Byte.byte) : M unit :=
  o <- get_self ;;
  if negb (is_active o) then ret tt
  else
    let blob := Base64.b64encode audio_bytes in
    send_event (audio_event (prompt_name o) (audio_content_name o) blob).

(** [end_audio_input] *)
Definition end_audio_input : M unit :=
  o <- get_self ;;
  send_event (audio_content_end (prompt_name o) (audio_content_name o)).

(** [end_session] *)
Definition end_session : M unit :=
  o <- get_self ;;
  if negb (is_active o) then ret tt
  else
    send_event (prompt_end (prompt_name o)) ;;
    send_event session_end ;;
    h <- the_stream ;;
    input_stream_close h ;;
    set_self (with_is_active false).

(* ------------------------------------------------------------------------- *)
(** * The inbound dispatcher: [_process_responses] *)
(* ------------------------------------------------------------------------- *)

(** What [await output[1].receive()] yields: a result whose
    [value.bytes_] is [bytes_] ([None] when [result.value] is empty), or an
    exception raised by the transport. *)
Inductive arrival : Type :=
| Received (bytes_ : option string)
| AwaitRaises (e : exn).

Definition set_role (v : json) : M unit := set_self (with_role v).

Definition set_display_assistant_text (b : bool) : M unit :=
  set_self (with_display_assistant_text b).

(** [await self.audio_queue.put(audio_bytes)]; the queue is unbounded. *)
Definition audio_queue_put (audio_bytes : list Byte.byte) : M unit :=
  o <- get_self ;;
  set_self (with_audio_queue (audio_queue o ++ [audio_bytes])).

(** The body of the loop for a result that carries bytes. *)
Definition handle_response (bytes_ : string) : M unit :=
  response_data <- lift (Utf8.decode bytes_) ;;
  json_data <- lift (Json.loads response_data) ;;
  has_event <- lift (Py.contains "event" json_data) ;;
  if has_event then
    event <- lift (Py.getitem json_data "event") ;;
    is_content_start <- lift (Py.contains "contentStart" event) ;;
    if is_content_start then
      content_start <- lift (Py.getitem event "contentStart") ;;
      r <- lift (Py.getitem content_start "role") ;;
      set_role r ;;
      has_fields <- lift (Py.contains "additionalModelFields" content_start) ;;
      if has_fields then
        fields <- lift (Py.getitem content_start "additionalModelFields") ;;
        additional_fields <- lift (Py.json_loads fields) ;;
        stage <- lift (Py.get additional_fields "generationStage") ;;
        if Py.eq_str stage "SPECULATIVE"
        then set_display_assistant_text true
        else set_display_assistant_text false
      else ret tt
    else
      is_text_output <- lift (Py.contains "textOutput" event) ;;
      if is_text_output then
        text_output <- lift (Py.getitem event "textOutput") ;;
        text <- lift (Py.getitem text_output "content") ;;
        o <- get_self ;;
        if Py.eq_str (role o) "ASSISTANT" && display_assistant_text o
        then print (Fmt "アシスタント: " text)
        else if Py.eq_str (role o) "USER"
        then print (Fmt "ユーザー: " text)
        else ret tt
      else
        is_audio_output <- lift (Py.contains "audioOutput" event) ;;
        if is_audio_output then
          audio_output <- lift (Py.getitem event "audioOutput") ;;
          audio_content <- lift (Py.getitem audio_output "content") ;;
          audio_bytes <- lift (Base64.b64decode audio_content) ;;
          audio_queue_put audio_bytes
        else ret tt
  else ret tt.

(** The [while self.is_active] loop, run on what arrives; when nothing more
    arrives the coroutine stays suspended in its [await]. *)
Fixpoint responses_loop (inbound : list arrival) : M unit :=
  o <- get_self ;;
  if is_active o then
    the_stream ;;
    match inbound with
    | [] => suspend
    | Received (Some (String c r)) :: rest =>
        handle_response (String c r) ;; responses_loop rest
    | Received _ :: rest => responses_loop rest
    | AwaitRaises e :: _ => raise e
    end
  else ret tt.

(** The [except] clauses of [_process_responses]. *)
Definition responses_handler (e : exn) : option (M unit) :=
  match e with
  | CancelledError => Some (print (Text "レスポンス処理がキャンセルされました"))
  | _ => Some (print (FmtExn "レスポンス処理エラー: " e))
  end.

(** [_process_responses] *)
Definition _process_responses (inbound : list arrival) : M unit :=
  try_except (responses_loop inbound) responses_handler.

(** The coroutine resumed by a cancellation while it waits in the loop. *)
Definition _process_responses_cancelled : M unit :=
  try_except (raise CancelledError) responses_handler.

(* ------------------------------------------------------------------------- *)
(** * The playback loop: [play_audio] *)
(* ------------------------------------------------------------------------- *)

(** [stream.write(audio_data)] on the output device. *)
Definition speaker_write (audio_data : list Byte.byte) : M unit :=
  fun st =>
    let w := world st in
    (Returns tt,
     {| chat := chat st;
        world := {| opened := opened w; wire := wire w; closed := closed w;
                    stdout := stdout w;
                    speaker := speaker w ++ [audio_data] |} |}).

(** The loop of [play_audio] on a queue holding [queued]: every chunk is
    written; on an empty queue the wait times out and the loop goes on, so
    the coroutine stays suspended while the session is active. *)
Fixpoint playback_loop (queued : list (list Byte.byte)) : M unit :=
  o <- get_self ;;
  if is_active o then
    match queued with
    | [] => suspend
    | audio_data :: rest =>
        set_self (with_audio_queue rest) ;;
        speaker_write audio_data ;;
        playback_loop rest
    end
  else ret tt.

Definition playback_handler (e : exn) : option (M unit) :=
  match e with
  | CancelledError => Some (print (Text "音声再生がキャンセルされました"))
  | _ => Some (print (FmtExn "音声再生エラー: " e))
  end.

(** [play_audio]; releasing the device leaves no trace in the state. *)
Definition play_audio : M unit :=
  o <- get_self ;;
  try_finally (try_except (playback_loop (audio_queue o)) playback_handler)
    (ret tt).

Definition play_audio_cancelled : M unit :=
  try_finally (try_except (raise CancelledError) playback_handler) (ret tt).

(* ------------------------------------------------------------------------- *)
(** * The capture loop: [capture_audio] *)
(* ------------------------------------------------------------------------- *)

(** What [stream.read(CHUNK_SIZE, exception_on_overflow=False)] does: it
    returns a chunk or raises. *)
Inductive mic_read : Type :=
| Chunk (audio_data : list Byte.byte)
| ReadFails.

(** The [while self.is_active] loop of [capture_audio] on what the
    microphone delivers; after the last chunk the coroutine stays suspended
    in [asyncio.sleep]. *)
Fixpoint capture_loop (mic : list mic_read) : M unit :=
  o <- get_self ;;
  if is_active o then
    match mic with
    | [] => suspend
    | Chunk audio_data :: rest =>
        send_audio_chunk audio_data ;; capture_loop rest
    | ReadFails :: _ => raise OSError
    end
  else ret tt.

Definition capture_handler (e : exn) : option (M unit) :=
  match e with
  | CancelledError => Some (print (Text "音声キャプチャがキャンセルされました"))
  | _ => Some (print (FmtExn "音声キャプチャエラー: " e))
  end.

(** The [finally] clause of [capture_audio]. *)
Definition capture_cleanup : M unit :=
  print (Text "音声キャプチャを停止しました") ;;
  end_audio_input.

(** [capture_audio] *)
Definition capture_audio (mic : list mic_read) : M unit :=
  print (Text "マイクに向かって話してください...") ;;
  print (Text "終了するにはEnterキーを押してください...") ;;
  start_audio_input ;;
  try_finally (try_except (capture_loop mic) capture_handler) capture_cleanup.

(** The coroutine resumed by a cancellation while it waits in the loop. *)
Definition capture_audio_cancelled : M unit :=
  try_finally (try_except (raise CancelledError) capture_handler)
    capture_cleanup.

(* ------------------------------------------------------------------------- *)
(** * The orchestrator: [main] *)
(* ------------------------------------------------------------------------- *)

(** A task run by the event loop until it finishes or suspends; the result
    tells whether the task is done.  An exception that ends a task stays in
    the task. *)
Definition run_task (t : M unit) : M bool :=
  fun st =>
    match t st with
    | (Suspends, st') => (Returns false, st')
    | (_, st') => (Returns true, st')
    end.

(** [voices.get(voice_choice, "tiffany")] *)
Definition voices_get (voice_choice : string) : string :=
  if (voice_choice =? "1")%string then "tiffany"
  else if (voice_choice =? "2")%string then "matthew"
  else if (voice_choice =? "3")%string then "amy"
  else "tiffany".

(** The [finally] clause of [main], entered when Enter is pressed; the
    arguments tell which tasks are done. *)
Definition main_finally (playback_done capture_done response_done : bool)
  : M unit :=
  print (Text "セッションを終了しています...") ;;
  set_self (with_is_active false) ;;
  (if playback_done then ret true else run_task play_audio_cancelled) ;;
  (if capture_done then ret true else run_task capture_audio_cancelled) ;;
  end_session ;;
  print (Text "セッションが正常に終了しました") ;;
  (if response_done then ret true else run_task _process_responses_cancelled) ;;
  ret tt.

(** [main] on one schedule of the tasks: while [main] waits for Enter the
    microphone delivers [mic] and the service sends [inbound].  Only the
    capture task and [main] itself send on the stream, and [main] sends only
    after the capture task has finished, so the order of the wire does not
    depend on the schedule. *)
Definition main (voice_choice uuid1 uuid2 uuid3 : string)
    (mic : list mic_read) (inbound : list arrival) : M unit :=
  print (Text "利用可能な音声:") ;;
  print (Text "1. tiffany (女性)") ;;
  print (Text "2. matthew (男性)") ;;
  print (Text "3. amy (女性)") ;;
  let voice_id := voices_get voice_choice in
  print (Text ("選択された音声: " ++ voice_id)) ;;
  set_self (fun _ => init voice_id uuid1 uuid2 uuid3) ;;
  print (Text "セッションを開始しています...") ;;
  start_session ;;
  capture_done <- run_task (capture_audio mic) ;;
  response_done <- run_task (_process_responses inbound) ;;
  playback_done <- run_task play_audio ;;
  main_finally playback_done capture_done response_done.

(** The state before the program starts; [main] replaces the object. *)
Definition initial_state : State :=
  {| chat := init "matthew" "" "" ""; world := empty_world |}.

(* ------------------------------------------------------------------------- *)
(** * Vocabulary of the statements *)
(* ------------------------------------------------------------------------- *)

(** A character that stands for itself inside a JSON string literal: not a
    double quote, not a backslash, not a control character. *)
Definition plain_char (c : ascii) : bool :=
  negb (c =? dquote)%char && negb (c =? bslash)%char && (32 <=? code c)%N.

Definition plain (s : string) : bool := forallb plain_char (chars s).

(** The text of [str(uuid.uuid4())]: lower-case hexadecimal digits in groups
    of 8, 4, 4, 4 and 12, the version digit 4 and a variant digit among 8, 9,
    a, b. *)
Definition is_hex_lower (c : ascii) : bool :=
  in_range 48 57 c || in_range 97 102 c.

Definition is_variant (c : ascii) : bool :=
  (c =? "8")%char || (c =? "9")%char || (c =? "a")%char || (c =? "b")%char.

Fixpoint matches_pattern (pat s : string) : bool :=
  match pat, s with
  | EmptyString, EmptyString => true
  | String p pat', String c s' =>
      (if (p =? "x")%char then is_hex_lower c
       else if (p =? "y")%char then is_variant c
       else (c =? p)%char)
      && matches_pattern pat' s'
  | _, _ => false
  end.

Definition is_uuid4 (s : string) : bool :=
  matches_pattern "xxxxxxxx-xxxx-4xxx-yxxx-xxxxxxxxxxxx" s.

(** The stream of the object is open: a handle the transport has given out
    and whose input side is not closed. *)
Definition stream_open (st : State) (h : nat) : Prop :=
  stream (chat st) = Some h /\
  existsb (Nat.eqb h) (closed (world st)) = false.

(** No stream is closed before it is opened. *)
Definition world_ok (w : World) : bool :=
  forallb (fun h => Nat.ltb h (opened w)) (closed w).

(** The envelope [{ "event": { name: { fields } } }] as a decoded value. *)
Definition envelope (name : string) (fields : list (string * json)) : json :=
  JObj [("event", JObj [(name, JObj fields)])].

(** The name of the event a payload carries, when it decodes to an envelope
    with a single event. *)
Definition event_name (payload : string) : option string :=
  match Json.loads payload with
  | Ok (JObj [("event", JObj [(name, JObj _)])]) => Some name
  | _ => None
  end.

(** The exception raised when the bytes of an inbound event do not decode. *)
Definition decode_error (bytes_ : string) : option exn :=
  match Utf8.decode bytes_ with
  | Raise e => Some e
  | Ok s =>
      match Json.loads s with
      | Raise e => Some e
      | Ok _ => None
      end
  end.

(** The decoded event object of an inbound payload. *)
Definition event_of (bytes_ : string) : option (list (string * json)) :=
  match Utf8.decode bytes_ with
  | Ok s =>
      match Json.loads s with
      | Ok (JObj ms) =>
          match Py.dict_get "event" ms with
          | Some (JObj ev) => Some ev
          | _ => None
          end
      | _ => None
      end
  | Raise _ => None
  end.

(** The text of a [textOutput] event. *)
Definition text_of_output (bytes_ : string) : option json :=
  match event_of bytes_ with
  | Some ev =>
      match Py.dict_get "contentStart" ev with
      | Some _ => None
      | None =>
          match Py.dict_get "textOutput" ev with
          | Some (JObj fs) => Py.dict_get "content" fs
          | _ => None
          end
      end
  | None => None
  end.

(** The role and the generation stage of a [contentStart] event whose
    [additionalModelFields] carry a stage. *)
Definition stage_hint_of (bytes_ : string) : option (json * json) :=
  match event_of bytes_ with
  | Some ev =>
      match Py.dict_get "contentStart" ev with
      | Some (JObj cs) =>
          match Py.dict_get "role" cs,
                Py.dict_get "additionalModelFields" cs with
          | Some r, Some (JStr amf) =>
              match Json.loads amf with
              | Ok (JObj fs) =>
                  match Py.dict_get "generationStage" fs with
                  | Some stage => Some (r, stage)
                  | None => None
                  end
              | _ => None
              end
          | _, _ => None
          end
      | _ => None
      end
  | None => None
  end.

(** The display rule as the specification words it: text is rendered when
    [(current_role == ASSISTANT and show_assistant_text) or
    current_role == USER]. *)
Definition spec_renders (current_role : json) (show_assistant_text : bool)
  : bool :=
  (Py.eq_str current_role "ASSISTANT" && show_assistant_text)
  || Py.eq_str current_role "USER".

(** [P] holds of every number below [k]. *)
Fixpoint all_below (k : nat) (P : N -> bool) : bool :=
  match k with
  | O => true
  | S k' => P (N.of_nat k') && all_below k' P
  end.

(** The two tables of base64 are inverse on the digit [n]; the character
    of a digit is neither the padding nor a character that a JSON string
    must escape. *)
Definition digit_ok (n : N) : bool :=
  match Base64.table_a2b (Base64.table_b2a n) with
  | Some m => (m =? n)%N
  | None => false
  end
  && negb (Base64.table_b2a n =? Base64.pad)%char
  && plain_char (Base64.table_b2a n)
  && (code (Base64.table_b2a n) <? 128)%N.

(** The bit arithmetic of the decoder on the digits of the encoder, for the
    bytes [a] and [b] wherever two bytes meet in a digit. *)
Definition pair_ok (a b : N) : bool :=
  let shl := Base64.shl in
  let shr := Base64.shr in
  let digit1 := Base64.digit1 in
  let digit2 := Base64.digit2 in
  let digit3 := Base64.digit3 in
  let digit4 := Base64.digit4 in
  let digit2_last := Base64.digit2_last in
  let digit3_last := Base64.digit3_last in
  ((digit1 a <? 64) && (digit2 a b <? 64) && (digit2_last a <? 64)
   && (digit3 a b <? 64) && (digit3_last a <? 64) && (digit4 a <? 64)
   && (N.lor (shl (digit1 a) 2) (shr (digit2 a b) 4) mod 256 =? a)
   && (N.lor (shl (digit1 a) 2) (shr (digit2_last a) 4) mod 256 =? a)
   && (N.land (digit2 a b) 15 =? N.land b 240 / 16)
   && (N.lor (shl (N.land a 240 / 16) 4) (shr (digit3 a b) 2) mod 256 =? a)
   && (N.lor (shl (N.land a 240 / 16) 4) (shr (digit3_last a) 2) mod 256 =? a)
   && (N.land (digit3 a b) 3 =? N.land b 192 / 64)
   && (N.lor (shl (N.land a 192 / 64) 6) (digit4 a) mod 256 =? a))%N.

(** A character the base64 encoder may write. *)
Definition b64_char (c : ascii) : bool :=
  plain_char c && (code c <? 128)%N.

(** The state after [evs] have been sent. *)
Definition sent (evs : list (nat * string)) (st : State) : State :=
  let w := world st in
  {| chat := chat st;
     world := {| opened := opened w; wire := wire w ++ evs;
                 closed := closed w; stdout := stdout w;
                 speaker := speaker w |} |}.

(** The state after [ls] have been printed. *)
Definition printed (ls : list line) (st : State) : State :=
  let w := world st in
  {| chat := chat st;
     world := {| opened := opened w; wire := wire w; closed := closed w;
                 stdout := stdout w ++ ls; speaker := speaker w |} |}.

(** The object once [start_session] has made sure that the client is
    built. *)
Definition client_built (o : NovaVoiceChat) : NovaVoiceChat :=
  match client o with
  | None =>
      with_client
        (Some ("https://bedrock-runtime." ++ region o ++ ".amazonaws.com")) o
  | Some _ => o
  end.

(** The five events of [start_session]. *)
Definition start_events (o : NovaVoiceChat) : list string :=
  [ session_start;
    prompt_start (prompt_name o) (voice_id o);
    text_content_start (prompt_name o) (content_name o);
    text_input (prompt_name o) (content_name o) system_prompt;
    text_content_end (prompt_name o) (content_name o) ].

(** The state [start_session] leaves: a new stream, the five events sent on
    it, the session active and the dispatcher task created. *)
Definition started (st : State) : State :=
  let o := chat st in
  let w := world st in
  let h := opened w in
  {| chat :=
       with_response true
         (with_is_active true (with_stream (Some h) (client_built o)));
     world := {| opened := S h;
                 wire := wire w ++ map (pair h) (start_events o);
                 closed := closed w; stdout := stdout w;
                 speaker := speaker w |} |}.

(** The state [end_session] leaves when the session is active on the
    stream [h]: the two closing events sent, the input side closed, the
    session inactive. *)
Definition ended (h : nat) (st : State) : State :=
  let o := chat st in
  let w := world st in
  {| chat := with_is_active false o;
     world := {| opened := opened w;
                 wire := wire w ++
                   [(h, prompt_end (prompt_name o)); (h, session_end)];
                 closed := h :: closed w; stdout := stdout w;
                 speaker := speaker w |} |}.

(** A session to run the program on: three identifiers of the form
    [uuid.uuid4()] gives, and the object built from them in an empty
    world. *)
Definition uuid1 : string := "3f2b8c1e-9d47-4a6b-8e21-5c7d9a0b1f34".
Definition uuid2 : string := "a81d44c2-07f3-4e59-b6aa-2d90c3e5f718".
Definition uuid3 : string := "0c5e7b9a-62d1-4f08-9b3c-e4a1d7f25c60".

Definition fresh : State :=
  {| chat := init "matthew" uuid1 uuid2 uuid3; world := empty_world |}.

(** A computation that has no [await] that can stay pending. *)
Definition no_suspend {A : Type} (m : M A) : Prop :=
  forall st, fst (m st) <> Suspends.

(** What the display rule renders for [text] in a display state. *)
Definition rendering (current_role : json) (show_assistant_text : bool)
    (text : json) : list line :=
  if spec_renders current_role show_assistant_text then
    [if Py.eq_str current_role "ASSISTANT"
     then Fmt "アシスタント: " text
     else Fmt "ユーザー: " text]
  else [].

(** Inbound payloads: the scenario of the specification (a speculative
    and a final variant of one assistant utterance), a user turn, and a
    payload that is not JSON. *)
Definition speculative_start : string :=
  fstr "{'event':{'contentStart':{'role':'ASSISTANT','additionalModelFields':'{\'generationStage\':\'SPECULATIVE\'}'}}}".
Definition final_start : string :=
  fstr "{'event':{'contentStart':{'role':'ASSISTANT','additionalModelFields':'{\'generationStage\':\'FINAL\'}'}}}".
Definition text_hi : string :=
  fstr "{'event':{'textOutput':{'content':'Hi'}}}".
Definition text_hi_there : string :=
  fstr "{'event':{'textOutput':{'content':'Hi there'}}}".
Definition user_start : string :=
  fstr "{'event':{'contentStart':{'role':'USER'}}}".
Definition text_hello : string :=
  fstr "{'event':{'textOutput':{'content':'hello'}}}".
Definition truncated : string := "{".
Definition text_lone_surrogate : string :=
  fstr "{'event':{'textOutput':{'content':'\ud83d'}}}".

Definition spec_scenario : list arrival :=
  [ Received (Some speculative_start); Received (Some text_hi);
    Received (Some final_start); Received (Some text_hi_there) ].

(** The started session once the dispatcher has seen [speculative_start]. *)
Definition speculating : State :=
  {| chat :=
       with_display_assistant_text true
         (with_role (JStr "ASSISTANT") (chat (started fresh)));
     world := world (started fresh) |}.

(** One chunk of audio, and the names of the events on the wire. *)
Definition three_bytes : list Byte.byte := [Byte.x00; Byte.x01; Byte.x02].

Definition wire_names (st : State) : list (option string) :=
  map (fun p => event_name (snd p)) (wire (world st)).


(* ------------------------------------------------------------------------- *)
(** * Vocabulary of the further statements *)
(* ------------------------------------------------------------------------- *)

(** What [__init__] fixes for the life of the object. *)
Definition identity (o : NovaVoiceChat)
  : string * string * string * string * string * string :=
  (model_id o, region o, voice_id o,
   prompt_name o, content_name o, audio_content_name o).

(** All of the state but what the dispatcher works on (the role, the
    display flag, the audio queue and the terminal). *)
Definition outside_dispatcher (st : State) :=
  (identity (chat st), client (chat st), stream (chat st),
   response (chat st), is_active (chat st),
   opened (world st), wire (world st), closed (world st),
   speaker (world st)).

(** A computation leaves a view of the state as it found it, however it
    ends. *)
Definition preserves {A B : Type} (view : State -> B) (m : M A) : Prop :=
  forall st, view (snd (m st)) = view st.

(** A computation lets no exception out. *)
Definition never_raises {A : Type} (m : M A) : Prop :=
  forall st e, fst (m st) <> Raises e.

(** The state after [audio_bytes] has been put on the audio queue. *)
Definition queued (audio_bytes : list Byte.byte) (st : State) : State :=
  {| chat := with_audio_queue (audio_queue (chat st) ++ [audio_bytes]) (chat st);
     world := world st |}.

(** The [content] of an [audioOutput] event, and the bytes it stands for. *)
Definition audio_of_output (bytes_ : string) : option json :=
  match event_of bytes_ with
  | Some ev =>
      match Py.dict_get "contentStart" ev, Py.dict_get "textOutput" ev with
      | None, None =>
          match Py.dict_get "audioOutput" ev with
          | Some (JObj fs) => Py.dict_get "content" fs
          | _ => None
          end
      | _, _ => None
      end
  | None => None
  end.

Definition audio_chunk_of (bytes_ : string) : option (list Byte.byte) :=
  match audio_of_output bytes_ with
  | Some content =>
      match Base64.b64decode content with
      | Ok audio_bytes => Some audio_bytes
      | Raise _ => None
      end
  | None => None
  end.

(** The fields of a [contentStart] event. *)
Definition content_start_of (bytes_ : string)
  : option (list (string * json)) :=
  match event_of bytes_ with
  | Some ev =>
      match Py.dict_get "contentStart" ev with
      | Some (JObj cs) => Some cs
      | _ => None
      end
  | None => None
  end.

(** The chunks the microphone delivers before its first failure, and
    whether it fails. *)
Fixpoint delivered (mic : list mic_read) : list (list Byte.byte) :=
  match mic with
  | Chunk audio_data :: rest => audio_data :: delivered rest
  | _ => []
  end.

Fixpoint mic_fails (mic : list mic_read) : bool :=
  match mic with
  | [] => false
  | Chunk _ :: rest => mic_fails rest
  | ReadFails :: _ => true
  end.

(** The [audioInput] events of a list of chunks. *)
Definition audio_events (prompt_name audio_content_name : string)
    (chunks : list (list Byte.byte)) : list string :=
  map (fun audio_bytes =>
         audio_event prompt_name audio_content_name
           (Base64.b64encode audio_bytes))
    chunks.

(** Everything a run of [main] puts on the wire: the five events of
    [start_session], the AUDIO [contentStart], one [audioInput] for each
    chunk, the AUDIO [contentEnd]. *)
Definition session_events (o : NovaVoiceChat)
    (chunks : list (list Byte.byte)) : list string :=
  (start_events o
   ++ [audio_content_start (prompt_name o) (audio_content_name o)]
   ++ audio_events (prompt_name o) (audio_content_name o) chunks
   ++ [audio_content_end (prompt_name o) (audio_content_name o)])%list.

(** The three voices of the menu. *)
Definition voices : list string := ["tiffany"; "matthew"; "amy"].

(** Inbound payloads for the further statements. *)
Definition audio_aaec : string :=
  fstr "{'event':{'audioOutput':{'content':'AAEC'}}}".
Definition audio_hello : string :=
  fstr "{'event':{'audioOutput':{'content':'aGVsbG8='}}}".
Definition audio_bad_padding : string :=
  fstr "{'event':{'audioOutput':{'content':'aGVsbG8'}}}".
Definition content_end_inbound : string :=
  fstr "{'event':{'contentEnd':{'stopReason':'END_TURN'}}}".
Definition user_start_with_text : string :=
  fstr "{'event':{'contentStart':{'role':'USER'},'textOutput':{'content':'hidden'}}}".
Definition start_without_stage : string :=
  fstr "{'event':{'contentStart':{'role':'ASSISTANT','additionalModelFields':'{}'}}}".
Definition start_with_bad_fields : string :=
  fstr "{'event':{'contentStart':{'role':'ASSISTANT','additionalModelFields':'oops'}}}".
Definition start_without_role : string :=
  fstr "{'event':{'contentStart':{'type':'TEXT'}}}".
Definition text_without_content : string :=
  fstr "{'event':{'textOutput':{'role':'USER'}}}".

(** The state after the playback loop has written the whole audio queue to
    the loudspeaker. *)
Definition played (st : State) : State :=
  let w := world st in
  {| chat := with_audio_queue [] (chat st);
     world := {| opened := opened w; wire := wire w; closed := closed w;
                 stdout := stdout w;
                 speaker := speaker w ++ audio_queue (chat st) |} |}.

(** The results that pass the test [result.value and result.value.bytes_]. *)
Definition carries_bytes (a : arrival) : bool :=
  match a with
  | Received None => false
  | Received (Some EmptyString) => false
  | _ => true
  end.

(** The state of the session: the client, the stream and the dispatcher
    task the object holds, its [is_active] flag, and the streams the
    transport has opened and closed. *)
Definition session_view (st : State) :=
  (client (chat st), stream (chat st), response (chat st),
   is_active (chat st), opened (world st), closed (world st)).

(** The handles are valid: no stream is closed before it is opened, and the
    stream of the object, if it has one, is one the transport has given
    out. *)
Definition handles_ok (st : State) : bool :=
  world_ok (world st) &&
  match stream (chat st) with
  | Some h => Nat.ltb h (opened (world st))
  | None => true
  end.

(* ------------------------------------------------------------------------- *)
(** * The library functions on small inputs *)
(* ------------------------------------------------------------------------- *)

Example loads_duplicate_member :
  Json.loads (fstr "{'a': 1, 'b': [true, null], 'a': 2.5e-3}") =
    Ok (JObj [("a", JNum "1"); ("b", JArr [JBool true; JNull]);
              ("a", JNum "2.5e-3")]) /\
  Py.getitem (JObj [("a", JNum "1"); ("b", JArr [JBool true; JNull]);
                    ("a", JNum "2.5e-3")]) "a" = Ok (JNum "2.5e-3").
Proof. split; vm_compute; reflexivity. Qed.

Example loads_escapes :
  Json.loads (fstr "'\u0041\n\ud83d\ude00'") =
    Ok (JStr (String "A" (String "010" (Utf8.encode 128512)))).
Proof. vm_compute. reflexivity. Qed.

Example loads_rejects :
  Json.loads "[1,]" = Raise JSONDecodeError /\
  Json.loads "01" = Raise JSONDecodeError /\
  Json.loads (fstr "{'a': 1} x") = Raise JSONDecodeError /\
  Json.loads EmptyString = Raise JSONDecodeError.
Proof. repeat split; vm_compute; reflexivity. Qed.

Example utf8_rejects_surrogate :
  Utf8.decode (String "237" (String "160" (String "128" ""))) =
    Raise UnicodeDecodeError.
Proof. vm_compute. reflexivity. Qed.

Example b64_three_bytes :
  Base64.b64encode [Byte.x00; Byte.x01; Byte.x02] = "AAEC" /\
  Base64.b64decode (JStr "AAEC") = Ok [Byte.x00; Byte.x01; Byte.x02].
Proof. split; vm_compute; reflexivity. Qed.

Example b64_padding :
  Base64.b64decode (JStr "aGVsbG8=") =
    Ok [Byte.x68; Byte.x65; Byte.x6c; Byte.x6c; Byte.x6f] /\
  Base64.b64decode (JStr "aGVsbG8") = Raise BinasciiError.
Proof. split; vm_compute; reflexivity. Qed.

Example uuids_are_uuid4 :
  is_uuid4 uuid1 = true /\ is_uuid4 uuid2 = true /\ is_uuid4 uuid3 = true.
Proof. repeat split; vm_compute; reflexivity. Qed.

(* ------------------------------------------------------------------------- *)
(** * Facts about [json.loads] *)
(* ------------------------------------------------------------------------- *)

Section Fuel.

Import Json.

(** More fuel never changes an answer that did not run out of fuel. *)

Ltac split_scrutinee :=
  match goal with
  | |- context [match ?s with EmptyString => _ | String _ _ => _ end] =>
      lazymatch s with
      | context [scan_once] => fail
      | context [parse_members] => fail
      | context [parse_items] => fail
      | _ => destruct s eqn:?
      end
  | |- context [if ?b then _ else _] => destruct b eqn:?
  | |- context [match ?o with Some _ => _ | None => _ end] =>
      destruct o as [[? ?]|] eqn:?
  end.

Ltac by_fuel IH Hle :=
  match goal with
  | |- context [?g ?f ?x] =>
      match type of IH with
      | forall s f', _ -> g f s <> Starved -> _ =>
          let E := fresh "E" in
          destruct (g f x) eqn:E;
          [ rewrite (IH x _ Hle) by (rewrite E; discriminate); rewrite E
          | rewrite (IH x _ Hle) by (rewrite E; discriminate); rewrite E
          | intros H; exfalso; apply H; reflexivity ]
      end
  end.

Lemma fuel_mono (f : nat) :
  (forall s f', f <= f' ->
     scan_once f s <> Starved -> scan_once f' s = scan_once f s) /\
  (forall s f', f <= f' ->
     parse_members f s <> Starved -> parse_members f' s = parse_members f s) /\
  (forall s f', f <= f' ->
     parse_items f s <> Starved -> parse_items f' s = parse_items f s).
Proof.
  induction f as [|f (IH1 & IH2 & IH3)].
  - repeat split; intros s f' _ H; exfalso; apply H; reflexivity.
  - repeat split; intros s [|f'] Hle; try lia; apply le_S_n in Hle.
    + cbn [scan_once].
      repeat (first [ split_scrutinee | by_fuel IH2 Hle | by_fuel IH3 Hle ]);
        reflexivity.
    + cbn [parse_members].
      repeat (first [ split_scrutinee | by_fuel IH1 Hle | by_fuel IH2 Hle ]);
        reflexivity.
    + cbn [parse_items].
      repeat (first [ split_scrutinee | by_fuel IH1 Hle | by_fuel IH3 Hle ]);
        reflexivity.
Qed.

(** A value scanned with some fuel within the budget of [decode] is what
    [json.loads] returns. *)
Lemma loads_intro (K : nat) (s : string) (v : json) (r : string) :
  scan_once K (skip_ws s) = Scanned v r ->
  skip_ws r = EmptyString ->
  K <= 2 * String.length s + 2 ->
  loads s = Ok v.
Proof.
  intros H1 H2 H3. unfold loads, decode.
  rewrite (proj1 (fuel_mono K) _ _ H3) by (rewrite H1; discriminate).
  rewrite H1, H2. reflexivity.
Qed.

(** A run of plain characters up to a double quote is a string literal that
    denotes itself. *)
Lemma py_scanstring_plain (s rest : string) :
  plain s = true ->
  py_scanstring (s ++ String dquote rest) = Some (s, rest).
Proof.
  induction s as [|c s IH]; intros H.
  - reflexivity.
  - unfold plain in H. simpl in H. apply andb_prop in H as [Hc Hs].
    unfold plain_char in Hc.
    apply andb_prop in Hc as [Hc H3]. apply andb_prop in Hc as [H1 H2].
    change (String c s ++ String dquote rest)
      with (String c (s ++ String dquote rest)).
    cbn [py_scanstring].
    apply negb_true_iff in H1, H2. rewrite H1, H2.
    apply N.leb_le in H3.
    destruct (code c <? 32)%N eqn:E; [apply N.ltb_lt in E; lia|].
    rewrite IH by exact Hs. reflexivity.
Qed.

(** One rule for each form of value and of member list. *)

Lemma scan_string (f : nat) (r t r' : string) :
  py_scanstring r = Some (t, r') ->
  scan_once (S f) (String dquote r) = Scanned (JStr t) r'.
Proof.
  intros H. cbn [scan_once].
  change (dquote =? dquote)%char with true. cbv iota.
  rewrite H. reflexivity.
Qed.

Lemma scan_object (f : nat) (r : string) (c : ascii) (r' : string)
    (ms : list (string * json)) (r'' : string) :
  skip_ws r = String c r' ->
  (c =? "}")%char = false ->
  parse_members f (String c r') = Scanned ms r'' ->
  scan_once (S f) (String "{" r) = Scanned (JObj ms) r''.
Proof.
  intros H1 H2 H3. cbn [scan_once].
  change ("{" =? dquote)%char with false.
  change ("{" =? "{")%char with true. cbv iota.
  rewrite H1, H2, H3. reflexivity.
Qed.

Lemma scan_empty_object (f : nat) (r r' : string) :
  skip_ws r = String "}" r' ->
  scan_once (S f) (String "{" r) = Scanned (JObj []) r'.
Proof.
  intros H1. cbn [scan_once].
  change ("{" =? dquote)%char with false.
  change ("{" =? "{")%char with true. cbv iota.
  rewrite H1. reflexivity.
Qed.

Lemma scan_constant (f : nat) (c : ascii) (r : string) (v : json)
    (r' : string) :
  (c =? dquote)%char = false ->
  (c =? "{")%char = false ->
  (c =? "[")%char = false ->
  match_constant (String c r) = Some (v, r') ->
  scan_once (S f) (String c r) = Scanned v r'.
Proof.
  intros H1 H2 H3 H4. cbn [scan_once]. rewrite H1, H2, H3, H4. reflexivity.
Qed.

Lemma scan_number (f : nat) (c : ascii) (r lit r' : string) :
  (c =? dquote)%char = false ->
  (c =? "{")%char = false ->
  (c =? "[")%char = false ->
  match_constant (String c r) = None ->
  match_number (String c r) = Some (lit, r') ->
  scan_once (S f) (String c r) = Scanned (JNum lit) r'.
Proof.
  intros H1 H2 H3 H4 H5. cbn [scan_once].
  rewrite H1, H2, H3, H4, H5. reflexivity.
Qed.

Lemma members_last (f : nat) (r key r1 r2 : string) (v : json)
    (r3 r4 : string) :
  py_scanstring r = Some (key, r1) ->
  skip_ws r1 = String ":" r2 ->
  scan_once f (skip_ws r2) = Scanned v r3 ->
  skip_ws r3 = String "}" r4 ->
  parse_members (S f) (String dquote r) = Scanned [(key, v)] r4.
Proof.
  intros H1 H2 H3 H4. cbn [parse_members].
  change (dquote =? dquote)%char with true. cbv iota.
  rewrite H1, H2. change (":" =? ":")%char with true. cbv iota.
  rewrite H3, H4. reflexivity.
Qed.

Lemma members_more (f : nat) (r key r1 r2 : string) (v : json)
    (r3 r4 : string) (ms : list (string * json)) (r5 : string) :
  py_scanstring r = Some (key, r1) ->
  skip_ws r1 = String ":" r2 ->
  scan_once f (skip_ws r2) = Scanned v r3 ->
  skip_ws r3 = String "," r4 ->
  parse_members f (skip_ws r4) = Scanned ms r5 ->
  parse_members (S f) (String dquote r) = Scanned ((key, v) :: ms) r5.
Proof.
  intros H1 H2 H3 H4 H5. cbn [parse_members].
  change (dquote =? dquote)%char with true. cbv iota.
  rewrite H1, H2. change (":" =? ":")%char with true. cbv iota.
  rewrite H3, H4.
  change ("," =? "}")%char with false.
  change ("," =? ",")%char with true. cbv iota.
  rewrite H5. reflexivity.
Qed.

End Fuel.

(** Scanning a template: the literal parts are scanned by computation, the
    interpolated parts by [py_scanstring_plain]. *)
Ltac scan_text :=
  first [ apply py_scanstring_plain; assumption | simpl; reflexivity ].

Ltac scan_value :=
  simpl Json.skip_ws;
  first
    [ eapply scan_string; scan_text
    | eapply scan_empty_object; simpl; reflexivity
    | eapply scan_object; [ simpl; reflexivity | reflexivity | scan_members ]
    | eapply scan_constant;
      [ reflexivity | reflexivity | reflexivity | simpl; reflexivity ]
    | eapply scan_number;
      [ reflexivity | reflexivity | reflexivity | reflexivity
      | simpl; reflexivity ] ]
with scan_members :=
  simpl Json.skip_ws;
  first
    [ eapply members_last;
      [ scan_text | simpl; reflexivity | scan_value | simpl; reflexivity ]
    | eapply members_more;
      [ scan_text | simpl; reflexivity | scan_value | simpl; reflexivity
      | scan_members ] ].

Ltac loads_template :=
  simpl;
  eapply (loads_intro 40);
  [ scan_value | simpl; reflexivity | simpl; lia ].

(* ------------------------------------------------------------------------- *)
(** * [json.loads] never runs out of fuel *)
(* ------------------------------------------------------------------------- *)

Section Adequacy.

Import Json.

Lemma skip_ws_length (s : string) :
  String.length (skip_ws s) <= String.length s.
Proof.
  induction s as [|c s IH]; cbn [skip_ws]; [lia|].
  destruct (is_ws c); cbn [String.length] in *; lia.
Qed.

Lemma prepend_some (p : string) (o : option (string * string))
    (t r : string) :
  prepend p o = Some (t, r) -> exists t', o = Some (t', r).
Proof.
  destruct o as [[t' r']|]; cbn; intros H; inversion H; subst; eauto.
Qed.

Lemma py_scanstring_length_bounded (n : nat) :
  forall s t r, String.length s <= n ->
    py_scanstring s = Some (t, r) -> String.length r < String.length s.
Proof.
  induction n as [|n IH]; intros s t r Hn H.
  - destruct s; [discriminate|]. cbn in Hn. lia.
  - destruct s as [|c s]; [discriminate|].
    cbn [py_scanstring] in H. cbn [String.length] in *.
    repeat match type of H with
           | (if ?b then _ else _) = _ => destruct b
           | match ?x with _ => _ end = _ => destruct x; try discriminate H
           end;
      try (inversion H; subst; cbn [String.length]; lia);
      try (apply prepend_some in H as [t' H]; apply IH in H;
           cbn [String.length] in *; lia).
Qed.

Lemma py_scanstring_length (s t r : string) :
  py_scanstring s = Some (t, r) -> String.length r < String.length s.
Proof. apply (py_scanstring_length_bounded (String.length s)). lia. Qed.

Lemma strip_prefix_length (p s r : string) :
  strip_prefix p s = Some r ->
  String.length s = String.length p + String.length r.
Proof.
  revert s. induction p as [|a p IH]; intros s H.
  - inversion H; subst. reflexivity.
  - destruct s as [|b s]; [discriminate|]. cbn [strip_prefix] in H.
    destruct (a =? b)%char; [|discriminate].
    cbn [String.length]. rewrite (IH _ H). lia.
Qed.

Lemma match_constant_length (s : string) (v : json) (r : string) :
  match_constant s = Some (v, r) -> String.length r < String.length s.
Proof.
  unfold match_constant. intros H.
  repeat match type of H with
         | match strip_prefix ?p s with _ => _ end = _ =>
             let E := fresh "E" in
             destruct (strip_prefix p s) eqn:E;
             [ apply strip_prefix_length in E; inversion H; subst;
               cbn [String.length] in E; lia | ]
         end.
  discriminate.
Qed.

Lemma span_digits_length (s ds r : string) :
  span_digits s = (ds, r) -> String.length r <= String.length s.
Proof.
  revert ds r. induction s as [|c s IH]; intros ds r H; cbn [span_digits] in H.
  - inversion H; subst. cbn. lia.
  - destruct (is_digit c).
    + destruct (span_digits s) as [ds' r'] eqn:E. inversion H; subst.
      specialize (IH _ _ eq_refl). cbn [String.length]. lia.
    + inversion H; subst. lia.
Qed.

Lemma match_number_length (s lit r : string) :
  match_number s = Some (lit, r) -> String.length r < String.length s.
Proof.
  unfold match_number. intros H.
  repeat match type of H with
         | context [span_digits ?x] =>
             let E := fresh "E" in
             let ds := fresh "ds" in
             let r' := fresh "r" in
             destruct (span_digits x) as [ds r'] eqn:E;
             apply span_digits_length in E
         | context [if ?b then _ else _] => destruct b
         | context [match ?x with EmptyString => _ | String _ _ => _ end] =>
             destruct x
         end;
    try discriminate H;
    inversion H; subst; cbn [String.length] in *; lia.
Qed.

(** Every scanned value, member list or item list consumes text. *)
Lemma scan_consumes (f : nat) :
  (forall s v r, scan_once f s = Scanned v r ->
     String.length r < String.length s) /\
  (forall s ms r, parse_members f s = Scanned ms r ->
     String.length r < String.length s) /\
  (forall s vs r, parse_items f s = Scanned vs r ->
     String.length r < String.length s).
Proof.
  induction f as [|f (IH1 & IH2 & IH3)].
  - repeat split; intros; discriminate.
  - repeat split.
    + intros s v r H. cbn [scan_once] in H.
      destruct s as [|c s]; [discriminate|].
      destruct (c =? dquote)%char.
      { destruct (py_scanstring s) as [[t r']|] eqn:E; [|discriminate].
        inversion H; subst. apply py_scanstring_length in E.
        cbn [String.length]. lia. }
      destruct (c =? "{")%char.
      { pose proof (skip_ws_length s) as Hw.
        destruct (skip_ws s) as [|c' r']; [discriminate|].
        cbn [String.length] in *.
        destruct (c' =? "}")%char; [inversion H; subst; lia|].
        destruct (parse_members f (String c' r')) as [ms r''| |] eqn:E;
          try discriminate.
        inversion H; subst. apply IH2 in E. cbn [String.length] in E. lia. }
      destruct (c =? "[")%char.
      { pose proof (skip_ws_length s) as Hw.
        destruct (skip_ws s) as [|c' r']; [discriminate|].
        cbn [String.length] in *.
        destruct (c' =? "]")%char; [inversion H; subst; lia|].
        destruct (parse_items f (String c' r')) as [vs r''| |] eqn:E;
          try discriminate.
        inversion H; subst. apply IH3 in E. cbn [String.length] in E. lia. }
      destruct (match_constant (String c s)) as [[v' r']|] eqn:E.
      { inversion H; subst. apply match_constant_length in E. exact E. }
      destruct (match_number (String c s)) as [[lit r']|] eqn:E';
        [|discriminate].
      inversion H; subst. apply match_number_length in E'. exact E'.
    + intros s ms r H. cbn [parse_members] in H.
      destruct s as [|c s]; [discriminate|].
      destruct (c =? dquote)%char; [|discriminate].
      destruct (py_scanstring s) as [[key r1]|] eqn:E; [|discriminate].
      apply py_scanstring_length in E.
      pose proof (skip_ws_length r1) as Hw1.
      destruct (skip_ws r1) as [|colon r2]; [discriminate|].
      destruct (colon =? ":")%char; [|discriminate].
      pose proof (skip_ws_length r2) as Hw2.
      destruct (scan_once f (skip_ws r2)) as [v r3| |] eqn:E1; try discriminate.
      apply IH1 in E1.
      pose proof (skip_ws_length r3) as Hw3.
      destruct (skip_ws r3) as [|d r4]; [discriminate|].
      cbn [String.length] in *.
      destruct (d =? "}")%char; [inversion H; subst; lia|].
      destruct (d =? ",")%char; [|discriminate].
      pose proof (skip_ws_length r4) as Hw4.
      destruct (parse_members f (skip_ws r4)) as [ms' r5| |] eqn:E2;
        try discriminate.
      apply IH2 in E2. inversion H; subst. lia.
    + intros s vs r H. cbn [parse_items] in H.
      destruct (scan_once f s) as [v r0| |] eqn:E1; try discriminate.
      apply IH1 in E1.
      pose proof (skip_ws_length r0) as Hw.
      destruct (skip_ws r0) as [|d r1]; [discriminate|].
      cbn [String.length] in *.
      destruct (d =? "]")%char; [inversion H; subst; lia|].
      destruct (d =? ",")%char; [|discriminate].
      pose proof (skip_ws_length r1) as Hw1.
      destruct (parse_items f (skip_ws r1)) as [vs' r2| |] eqn:E2;
        try discriminate.
      apply IH3 in E2. inversion H; subst. lia.
Qed.

(** With two units of fuel for each character the scanner never runs out
    of fuel. *)
Lemma scan_never_starved (f : nat) :
  (forall s, 2 * String.length s + 1 <= f -> scan_once f s <> Starved) /\
  (forall s, 2 * String.length s + 1 <= f -> parse_members f s <> Starved) /\
  (forall s, 2 * String.length s + 2 <= f -> parse_items f s <> Starved).
Proof.
  induction f as [|f (IH1 & IH2 & IH3)].
  - repeat split; intros s H; lia.
  - repeat split.
    + intros s Hf. cbn [scan_once].
      destruct s as [|c s]; [discriminate|]. cbn [String.length] in Hf.
      destruct (c =? dquote)%char.
      { destruct (py_scanstring s) as [[t r']|]; discriminate. }
      destruct (c =? "{")%char.
      { pose proof (skip_ws_length s) as Hw.
        destruct (skip_ws s) as [|c' r']; [discriminate|].
        destruct (c' =? "}")%char; [discriminate|].
        assert (Hn : parse_members f (String c' r') <> Starved)
          by (apply IH2; lia).
        destruct (parse_members f (String c' r')); try discriminate.
        congruence. }
      destruct (c =? "[")%char.
      { pose proof (skip_ws_length s) as Hw.
        destruct (skip_ws s) as [|c' r']; [discriminate|].
        destruct (c' =? "]")%char; [discriminate|].
        assert (Hn : parse_items f (String c' r') <> Starved)
          by (apply IH3; lia).
        destruct (parse_items f (String c' r')); try discriminate.
        congruence. }
      destruct (match_constant (String c s)) as [[v' r']|]; [discriminate|].
      destruct (match_number (String c s)) as [[lit r']|]; discriminate.
    + intros s Hf. cbn [parse_members].
      destruct s as [|c s]; [discriminate|]. cbn [String.length] in Hf.
      destruct (c =? dquote)%char; [|discriminate].
      destruct (py_scanstring s) as [[key r1]|] eqn:E; [|discriminate].
      apply py_scanstring_length in E.
      pose proof (skip_ws_length r1) as Hw1.
      destruct (skip_ws r1) as [|colon r2]; [discriminate|].
      destruct (colon =? ":")%char; [|discriminate].
      pose proof (skip_ws_length r2) as Hw2. cbn [String.length] in *.
      assert (Hn : scan_once f (skip_ws r2) <> Starved) by (apply IH1; lia).
      destruct (scan_once f (skip_ws r2)) as [v r3| |] eqn:E1;
        try discriminate; try congruence.
      apply (proj1 (scan_consumes f)) in E1.
      pose proof (skip_ws_length r3) as Hw3.
      destruct (skip_ws r3) as [|d r4]; [discriminate|].
      cbn [String.length] in *.
      destruct (d =? "}")%char; [discriminate|].
      destruct (d =? ",")%char; [|discriminate].
      pose proof (skip_ws_length r4) as Hw4.
      assert (Hn' : parse_members f (skip_ws r4) <> Starved)
        by (apply IH2; lia).
      destruct (parse_members f (skip_ws r4)); try discriminate. congruence.
    + intros s Hf. cbn [parse_items].
      assert (Hn : scan_once f s <> Starved) by (apply IH1; lia).
      destruct (scan_once f s) as [v r0| |] eqn:E1;
        try discriminate; try congruence.
      apply (proj1 (scan_consumes f)) in E1.
      pose proof (skip_ws_length r0) as Hw.
      destruct (skip_ws r0) as [|d r1]; [discriminate|].
      cbn [String.length] in *.
      destruct (d =? "]")%char; [discriminate|].
      destruct (d =? ",")%char; [|discriminate].
      pose proof (skip_ws_length r1) as Hw1.
      assert (Hn' : parse_items f (skip_ws r1) <> Starved)
        by (apply IH3; lia).
      destruct (parse_items f (skip_ws r1)); try discriminate. congruence.
Qed.

(** [json.loads] of the model always has fuel enough: it returns a value
    or raises [JSONDecodeError]. *)
Lemma decode_never_starved (s : string) : decode s <> Starved.
Proof.
  unfold decode.
  assert (H : scan_once (2 * String.length s + 2) (skip_ws s) <> Starved).
  { apply (proj1 (scan_never_starved _)).
    pose proof (skip_ws_length s). lia. }
  destruct (scan_once (2 * String.length s + 2) (skip_ws s)) as [v r| |];
    [| discriminate | congruence].
  destruct (skip_ws r); discriminate.
Qed.

Lemma loads_raises_only_JSONDecodeError (s : string) (e : exn) :
  loads s = Raise e -> e = JSONDecodeError.
Proof.
  unfold loads. pose proof (decode_never_starved s) as H.
  destruct (decode s); intros E; inversion E; congruence.
Qed.

End Adequacy.

(* ------------------------------------------------------------------------- *)
(** * The events decode to what they were built from *)
(* ------------------------------------------------------------------------- *)

Section Events.

Variables prompt_name content_name voice_id : string.
Hypothesis prompt_name_plain : plain prompt_name = true.
Hypothesis content_name_plain : plain content_name = true.
Hypothesis voice_id_plain : plain voice_id = true.

Lemma loads_session_start :
  Json.loads session_start =
  Ok (envelope "sessionStart"
        [("inferenceConfiguration",
          JObj [("maxTokens", JNum "1024"); ("topP", JNum "0.9");
                ("temperature", JNum "0.7")])]).
Proof. vm_compute. reflexivity. Qed.

Lemma loads_session_end :
  Json.loads session_end = Ok (envelope "sessionEnd" []).
Proof. vm_compute. reflexivity. Qed.

Lemma loads_prompt_start :
  Json.loads (prompt_start prompt_name voice_id) =
  Ok (envelope "promptStart"
        [("promptName", JStr prompt_name);
         ("textOutputConfiguration", JObj [("mediaType", JStr "text/plain")]);
         ("audioOutputConfiguration",
          JObj [("mediaType", JStr "audio/lpcm");
                ("sampleRateHertz", JNum "24000");
                ("sampleSizeBits", JNum "16");
                ("channelCount", JNum "1");
                ("voiceId", JStr voice_id);
                ("encoding", JStr "base64");
                ("audioType", JStr "SPEECH")])]).
Proof. unfold prompt_start, envelope. loads_template. Qed.

Lemma loads_text_content_start :
  Json.loads (text_content_start prompt_name content_name) =
  Ok (envelope "contentStart"
        [("promptName", JStr prompt_name);
         ("contentName", JStr content_name);
         ("type", JStr "TEXT");
         ("interactive", JBool true);
         ("role", JStr "SYSTEM");
         ("textInputConfiguration", JObj [("mediaType", JStr "text/plain")])]).
Proof. unfold text_content_start, envelope. loads_template. Qed.

Lemma loads_text_input (payload : string) :
  plain payload = true ->
  Json.loads (text_input prompt_name content_name payload) =
  Ok (envelope "textInput"
        [("promptName", JStr prompt_name);
         ("contentName", JStr content_name);
         ("content", JStr payload)]).
Proof. intros H. unfold text_input, envelope. loads_template. Qed.

Lemma loads_text_content_end :
  Json.loads (text_content_end prompt_name content_name) =
  Ok (envelope "contentEnd"
        [("promptName", JStr prompt_name);
         ("contentName", JStr content_name)]).
Proof. unfold text_content_end, envelope. loads_template. Qed.

Lemma loads_audio_content_start :
  Json.loads (audio_content_start prompt_name content_name) =
  Ok (envelope "contentStart"
        [("promptName", JStr prompt_name);
         ("contentName", JStr content_name);
         ("type", JStr "AUDIO");
         ("interactive", JBool true);
         ("role", JStr "USER");
         ("audioInputConfiguration",
          JObj [("mediaType", JStr "audio/lpcm");
                ("sampleRateHertz", JNum "16000");
                ("sampleSizeBits", JNum "16");
                ("channelCount", JNum "1");
                ("audioType", JStr "SPEECH");
                ("encoding", JStr "base64")])]).
Proof. unfold audio_content_start, envelope. loads_template. Qed.

Lemma loads_audio_event (blob : string) :
  plain blob = true ->
  Json.loads (audio_event prompt_name content_name blob) =
  Ok (envelope "audioInput"
        [("promptName", JStr prompt_name);
         ("contentName", JStr content_name);
         ("content", JStr blob)]).
Proof. intros H. unfold audio_event, envelope. loads_template. Qed.

Lemma loads_audio_content_end :
  Json.loads (audio_content_end prompt_name content_name) =
  Ok (envelope "contentEnd"
        [("promptName", JStr prompt_name);
         ("contentName", JStr content_name)]).
Proof. unfold audio_content_end, envelope. loads_template. Qed.

Lemma loads_prompt_end :
  Json.loads (prompt_end prompt_name) =
  Ok (envelope "promptEnd" [("promptName", JStr prompt_name)]).
Proof. unfold prompt_end, envelope. loads_template. Qed.

End Events.
(* ------------------------------------------------------------------------- *)
(** * Identifiers and voices are plain *)
(* ------------------------------------------------------------------------- *)

Lemma code_inj (c d : ascii) : code c = code d -> c = d.
Proof.
  unfold code. intros H.
  rewrite <- (ascii_N_embedding c), <- (ascii_N_embedding d), H. reflexivity.
Qed.

Lemma plain_char_of_code (c : ascii) :
  (32 <= code c)%N -> code c <> 34%N -> code c <> 92%N -> plain_char c = true.
Proof.
  intros H1 H2 H3. unfold plain_char.
  destruct (Ascii.eqb_spec c dquote) as [->|_]; [exfalso; apply H2; reflexivity|].
  destruct (Ascii.eqb_spec c bslash) as [->|_]; [exfalso; apply H3; reflexivity|].
  apply N.leb_le in H1. rewrite H1. reflexivity.
Qed.

Lemma in_range_spec (lo hi : N) (c : ascii) :
  in_range lo hi c = true -> (lo <= code c <= hi)%N.
Proof.
  unfold in_range. intros H. apply andb_prop in H as [H1 H2].
  apply N.leb_le in H1, H2. lia.
Qed.

Lemma is_hex_lower_plain (c : ascii) : is_hex_lower c = true -> plain_char c = true.
Proof.
  unfold is_hex_lower. intros H. apply orb_prop in H as [H|H];
    apply in_range_spec in H; apply plain_char_of_code; lia.
Qed.

Lemma is_variant_plain (c : ascii) : is_variant c = true -> plain_char c = true.
Proof.
  unfold is_variant. intros H.
  repeat (apply orb_prop in H as [H|H]);
    apply Ascii.eqb_eq in H; subst c; reflexivity.
Qed.

Lemma matches_pattern_plain (pat s : string) :
  plain pat = true -> matches_pattern pat s = true -> plain s = true.
Proof.
  revert s. induction pat as [|p pat IH]; intros [|c s] Hp H; simpl in H;
    try discriminate; try reflexivity.
  unfold plain in Hp |- *. simpl in Hp |- *.
  apply andb_prop in Hp as [Hp1 Hp2]. apply andb_prop in H as [H1 H2].
  apply andb_true_intro; split; [| exact (IH s Hp2 H2)].
  destruct (p =? "x")%char; [apply is_hex_lower_plain; exact H1|].
  destruct (p =? "y")%char; [apply is_variant_plain; exact H1|].
  apply Ascii.eqb_eq in H1. subst c. exact Hp1.
Qed.

Lemma is_uuid4_plain (s : string) : is_uuid4 s = true -> plain s = true.
Proof. apply matches_pattern_plain. reflexivity. Qed.

Lemma voices_get_plain (voice_choice : string) :
  plain (voices_get voice_choice) = true.
Proof.
  unfold voices_get.
  repeat match goal with |- context [if ?b then _ else _] => destruct b end;
    reflexivity.
Qed.

(* ------------------------------------------------------------------------- *)
(** * Base64: decoding undoes encoding *)
(* ------------------------------------------------------------------------- *)

Section Base64Facts.

Import Base64.

Lemma all_below_spec (k : nat) (P : N -> bool) :
  all_below k P = true -> forall n, (n < N.of_nat k)%N -> P n = true.
Proof.
  induction k as [|k IH]; intros H n Hn.
  - simpl in Hn. lia.
  - simpl in H. apply andb_prop in H as [H1 H2].
    destruct (N.eq_dec n (N.of_nat k)) as [->|Hne]; [exact H1|].
    apply IH; [exact H2 | lia].
Qed.

(** The two tables are inverse on the 64 digits. *)
Lemma digits_ok : all_below 64 digit_ok = true.
Proof. vm_compute. reflexivity. Qed.

Lemma digit_facts (n : N) :
  (n < 64)%N ->
  table_a2b (table_b2a n) = Some n /\
  (table_b2a n =? pad)%char = false /\
  plain_char (table_b2a n) = true /\
  (code (table_b2a n) <? 128)%N = true.
Proof.
  intros Hn. pose proof (all_below_spec _ _ digits_ok n Hn) as H.
  unfold digit_ok in H.
  apply andb_prop in H as [H H4]. apply andb_prop in H as [H H3].
  apply andb_prop in H as [H1 H2].
  destruct (table_a2b (table_b2a n)) as [m|]; [|discriminate].
  apply N.eqb_eq in H1. subst m. apply negb_true_iff in H2. auto.
Qed.

(** The arithmetic holds for every pair of bytes. *)
Lemma pairs_ok : all_below 256 (fun a => all_below 256 (pair_ok a)) = true.
Proof. vm_compute. reflexivity. Qed.

Lemma byte_bound (x : Byte.byte) : (Byte.to_N x < N.of_nat 256)%N.
Proof. pose proof (Byte.to_N_bounded x). lia. Qed.

Lemma pair_facts (x y : Byte.byte) : pair_ok (Byte.to_N x) (Byte.to_N y) = true.
Proof.
  apply (all_below_spec _ _ (all_below_spec _ _ pairs_ok _ (byte_bound x)) _ (byte_bound y)).
Qed.

Lemma byte_of_N_mod (e : N) (x : Byte.byte) :
  (e mod 256)%N = Byte.to_N x -> byte_of_N e = x.
Proof. intros H. unfold byte_of_N. rewrite H, Byte.of_to_N. reflexivity. Qed.


(** One digit read by the decoder. *)
Lemma a2b_digit (n : N) (r : string) (q : nat) (l : N) (p : nat) :
  (n < 64)%N ->
  a2b_base64 (String (table_b2a n) r) q l p =
  match q with
  | 0 => a2b_base64 r 1 n 0
  | 1 => emit (byte_of_N (N.lor (shl l 2) (shr n 4)))
           (a2b_base64 r 2 (N.land n 15) 0)
  | 2 => emit (byte_of_N (N.lor (shl l 4) (shr n 2)))
           (a2b_base64 r 3 (N.land n 3) 0)
  | _ => emit (byte_of_N (N.lor (shl l 6) n)) (a2b_base64 r 0 0%N 0)
  end.
Proof.
  intros Hn. destruct (digit_facts n Hn) as (H1 & H2 & _).
  cbn [a2b_base64]. rewrite H2, H1. reflexivity.
Qed.

Ltac pair_facts_of x y :=
  let H := fresh "H" in
  pose proof (pair_facts x y) as H; unfold pair_ok in H; cbv zeta in H;
  repeat (let H' := fresh "H" in apply andb_prop in H as [H H']);
  repeat match goal with
         | H : (_ <? _)%N = true |- _ => apply N.ltb_lt in H
         | H : (_ =? _)%N = true |- _ => apply N.eqb_eq in H
         end.

(** A full group of three bytes. *)
Lemma a2b_group (a b c : Byte.byte) (rest : list Byte.byte) :
  a2b_base64 (b2a_base64 (a :: b :: c :: rest)) 0 0%N 0 =
  emit a (emit b (emit c (a2b_base64 (b2a_base64 rest) 0 0%N 0))).
Proof.
  cbn [b2a_base64].
  pair_facts_of a b. pair_facts_of b c. pair_facts_of c c.
  rewrite !a2b_digit by assumption.
  f_equal; [apply byte_of_N_mod; assumption|].
  f_equal; [apply byte_of_N_mod; congruence|].
  f_equal. apply byte_of_N_mod; congruence.
Qed.


Lemma a2b_pad_more (r : string) (q : nat) (l : N) (p : nat) :
  2 <= q -> q + S p < 4 ->
  a2b_base64 (String pad r) q l p = a2b_base64 r q l (S p).
Proof.
  intros H1 H2. cbn [a2b_base64].
  change (pad =? pad)%char with true. cbv iota.
  apply Nat.leb_le in H1. rewrite H1.
  apply Nat.leb_gt in H2. rewrite H2. reflexivity.
Qed.

Lemma a2b_pad_done (r : string) (q : nat) (l : N) (p : nat) :
  2 <= q -> 4 <= q + S p ->
  a2b_base64 (String pad r) q l p = Ok [].
Proof.
  intros H1 H2. cbn [a2b_base64].
  change (pad =? pad)%char with true. cbv iota.
  apply Nat.leb_le in H1. rewrite H1.
  apply Nat.leb_le in H2. rewrite H2. reflexivity.
Qed.

(** The last group when one byte is left, and when two are. *)
Lemma a2b_one (a : Byte.byte) :
  a2b_base64 (b2a_base64 [a]) 0 0%N 0 = Ok [a].
Proof.
  cbn [b2a_base64].
  pair_facts_of a a.
  rewrite !a2b_digit by assumption.
  rewrite a2b_pad_more, a2b_pad_done by lia.
  cbn [emit]. f_equal. f_equal. apply byte_of_N_mod; assumption.
Qed.

Lemma a2b_two (a b : Byte.byte) :
  a2b_base64 (b2a_base64 [a; b]) 0 0%N 0 = Ok [a; b].
Proof.
  cbn [b2a_base64].
  pair_facts_of a b. pair_facts_of b b.
  rewrite !a2b_digit by assumption.
  rewrite a2b_pad_done by lia.
  cbn [emit]. f_equal. f_equal; [apply byte_of_N_mod; assumption|].
  f_equal. apply byte_of_N_mod; congruence.
Qed.

(** Lists, three elements at a time. *)
Lemma list_ind3 (A : Type) (P : list A -> Prop) :
  P [] -> (forall a, P [a]) -> (forall a b, P [a; b]) ->
  (forall a b c r, P r -> P (a :: b :: c :: r)) ->
  forall l, P l.
Proof.
  intros H0 H1 H2 H3 l.
  assert (H : P l /\ (forall a, P (a :: l)) /\ (forall a b, P (a :: b :: l))).
  { induction l as [|x l (IH0 & IH1 & IH2)].
    - auto.
    - repeat split; auto. }
  exact (proj1 H).
Qed.

(** [binascii.a2b_base64] undoes [binascii.b2a_base64]. *)
Lemma a2b_b2a (bs : list Byte.byte) :
  a2b_base64 (b2a_base64 bs) 0 0%N 0 = Ok bs.
Proof.
  induction bs as [|a|a b|a b c r IH] using list_ind3.
  - reflexivity.
  - apply a2b_one.
  - apply a2b_two.
  - rewrite a2b_group, IH. reflexivity.
Qed.

(** The encoder writes digits and padding only. *)
Lemma b2a_chars (bs : list Byte.byte) :
  forallb b64_char (chars (b2a_base64 bs)) = true.
Proof.
  assert (D : forall n, (n < 64)%N -> b64_char (table_b2a n) = true).
  { intros n Hn. destruct (digit_facts n Hn) as (_ & _ & H3 & H4).
    unfold b64_char. rewrite H3, H4. reflexivity. }
  induction bs as [|a|a b|a b c r IH] using list_ind3.
  - reflexivity.
  - cbn [b2a_base64 chars forallb].
    pair_facts_of a a. rewrite !D by assumption. reflexivity.
  - cbn [b2a_base64 chars forallb].
    pair_facts_of a b. pair_facts_of b b. rewrite !D by assumption. reflexivity.
  - cbn [b2a_base64 chars forallb].
    pair_facts_of a b. pair_facts_of b c. pair_facts_of c c.
    rewrite !D by assumption. exact IH.
Qed.

Lemma forallb_weaken (A : Type) (P Q : A -> bool) (l : list A) :
  (forall x, P x = true -> Q x = true) ->
  forallb P l = true -> forallb Q l = true.
Proof.
  intros HPQ. induction l as [|x l IH]; simpl; intros H; [reflexivity|].
  apply andb_prop in H as [H1 H2]. rewrite (HPQ _ H1), (IH H2). reflexivity.
Qed.

Lemma b64encode_plain (bs : list Byte.byte) : plain (b64encode bs) = true.
Proof.
  unfold plain, b64encode. apply (forallb_weaken _ b64_char); [|apply b2a_chars].
  intros c H. unfold b64_char in H. apply andb_prop in H as [H _]. exact H.
Qed.

Lemma b64encode_ascii (bs : list Byte.byte) : is_ascii (b64encode bs) = true.
Proof.
  unfold is_ascii, b64encode. apply (forallb_weaken _ b64_char); [|apply b2a_chars].
  intros c H. unfold b64_char in H. apply andb_prop in H as [_ H]. exact H.
Qed.

(** [base64.b64decode(base64.b64encode(bs).decode('utf-8')) == bs] *)
Lemma b64decode_b64encode (bs : list Byte.byte) :
  b64decode (JStr (b64encode bs)) = Ok bs.
Proof.
  unfold b64decode. rewrite b64encode_ascii. apply a2b_b2a.
Qed.

End Base64Facts.

(* ------------------------------------------------------------------------- *)
(** * Running the methods *)
(* ------------------------------------------------------------------------- *)

Section Methods.

Local Opaque session_start prompt_start text_content_start text_input
  text_content_end audio_content_start audio_event audio_content_end
  prompt_end session_end system_prompt.

Lemma bind_returns (A B : Type) (m : M A) (k : A -> M B) (st st' : State)
    (a : A) :
  m st = (Returns a, st') -> bind m k st = k a st'.
Proof. intros H. unfold bind. rewrite H. reflexivity. Qed.

Lemma bind_raises (A B : Type) (m : M A) (k : A -> M B) (st st' : State)
    (e : exn) :
  m st = (Raises e, st') -> bind m k st = (Raises e, st').
Proof. intros H. unfold bind. rewrite H. reflexivity. Qed.

Lemma send_event_open (st : State) (h : nat) (e : string) :
  stream_open st h ->
  send_event e st = (Returns tt, sent [(h, e)] st).
Proof.
  intros [H1 H2].
  unfold send_event, the_stream, bind, get_self, input_stream_send, ret.
  rewrite H1. cbn. rewrite H2. reflexivity.
Qed.

Lemma fresh_stream (w : World) :
  world_ok w = true -> existsb (Nat.eqb (opened w)) (closed w) = false.
Proof.
  unfold world_ok. intros H.
  induction (closed w) as [|x l IH]; [reflexivity|].
  simpl in H |- *. apply andb_prop in H as [H1 H2].
  apply Nat.ltb_lt in H1.
  destruct (Nat.eqb_spec (opened w) x); [lia|]. exact (IH H2).
Qed.

Lemma client_built_names (o : NovaVoiceChat) :
  prompt_name (client_built o) = prompt_name o /\
  content_name (client_built o) = content_name o /\
  audio_content_name (client_built o) = audio_content_name o /\
  voice_id (client_built o) = voice_id o.
Proof. unfold client_built. destruct (client o); repeat split. Qed.

(** [start_session] runs to its end from every state. *)
Lemma start_session_run (st : State) :
  world_ok (world st) = true ->
  start_session st = (Returns tt, started st).
Proof.
  intros Hok. pose proof (fresh_stream _ Hok) as Hf.
  unfold start_session.
  assert (E : forall st0 h e, stream_open st0 h ->
              send_event e st0 = (Returns tt, sent [(h, e)] st0))
    by exact send_event_open.
  erewrite bind_returns by reflexivity.
  erewrite bind_returns
    with (a := tt)
         (st' := {| chat := client_built (chat st); world := world st |}).
  2: { unfold client_built, _initialize_client, bind, get_self, set_self, ret.
       destruct (client (chat st)); [destruct st|]; reflexivity. }
  erewrite bind_returns by reflexivity.
  erewrite bind_returns by reflexivity.
  erewrite bind_returns by reflexivity.
  erewrite bind_returns by (apply E; split; [reflexivity | exact Hf]).
  erewrite bind_returns by reflexivity.
  erewrite bind_returns by (apply E; split; [reflexivity | exact Hf]).
  erewrite bind_returns by reflexivity.
  erewrite bind_returns by (apply E; split; [reflexivity | exact Hf]).
  erewrite bind_returns by reflexivity.
  erewrite bind_returns by (apply E; split; [reflexivity | exact Hf]).
  erewrite bind_returns by reflexivity.
  erewrite bind_returns by (apply E; split; [reflexivity | exact Hf]).
  unfold set_self, started, sent, start_events. cbn.
  destruct (client_built_names (chat st)) as (-> & -> & _ & ->).
  rewrite <- !app_assoc. reflexivity.
Qed.

Lemma start_audio_input_run (st : State) (h : nat) :
  stream_open st h ->
  start_audio_input st =
  (Returns tt,
   sent [(h, audio_content_start (prompt_name (chat st))
               (audio_content_name (chat st)))] st).
Proof.
  intros H. unfold start_audio_input.
  erewrite bind_returns by reflexivity.
  apply send_event_open. exact H.
Qed.

Lemma send_audio_chunk_run (st : State) (h : nat) (bs : list Byte.byte) :
  stream_open st h ->
  is_active (chat st) = true ->
  send_audio_chunk bs st =
  (Returns tt,
   sent [(h, audio_event (prompt_name (chat st))
               (audio_content_name (chat st)) (Base64.b64encode bs))] st).
Proof.
  intros H Ha. unfold send_audio_chunk.
  erewrite bind_returns by reflexivity.
  rewrite Ha. cbn [negb]. apply send_event_open. exact H.
Qed.

Lemma send_audio_chunk_inactive (st : State) (bs : list Byte.byte) :
  is_active (chat st) = false ->
  send_audio_chunk bs st = (Returns tt, st).
Proof.
  intros Ha. unfold send_audio_chunk.
  erewrite bind_returns by reflexivity.
  rewrite Ha. reflexivity.
Qed.

Lemma end_audio_input_run (st : State) (h : nat) :
  stream_open st h ->
  end_audio_input st =
  (Returns tt,
   sent [(h, audio_content_end (prompt_name (chat st))
               (audio_content_name (chat st)))] st).
Proof.
  intros H. unfold end_audio_input.
  erewrite bind_returns by reflexivity.
  apply send_event_open. exact H.
Qed.

Lemma end_session_inactive (st : State) :
  is_active (chat st) = false ->
  end_session st = (Returns tt, st).
Proof.
  intros Ha. unfold end_session.
  erewrite bind_returns by reflexivity.
  rewrite Ha. reflexivity.
Qed.

Lemma end_session_run (st : State) (h : nat) :
  stream_open st h ->
  is_active (chat st) = true ->
  end_session st = (Returns tt, ended h st).
Proof.
  intros H Ha. unfold end_session.
  erewrite bind_returns by reflexivity.
  rewrite Ha. cbn [negb].
  erewrite bind_returns by (apply send_event_open; exact H).
  erewrite bind_returns by (apply send_event_open; exact H).
  destruct H as [H1 H2].
  unfold the_stream, bind, get_self, set_self, input_stream_close, ret, sent,
    ended.
  cbn. rewrite H1. cbn. rewrite <- app_assoc. reflexivity.
Qed.

End Methods.

(* ------------------------------------------------------------------------- *)
(** * The session protocol *)
(* ------------------------------------------------------------------------- *)

Lemma system_prompt_plain : plain system_prompt = true.
Proof. vm_compute. reflexivity. Qed.

Lemma started_world_ok (st : State) :
  world_ok (world st) = true -> world_ok (world (started st)) = true.
Proof.
  unfold world_ok, started. cbn [world closed opened]. intros H.
  apply (forallb_weaken _ (fun h => Nat.ltb h (opened (world st)))); [|exact H].
  intros x Hx. apply Nat.ltb_lt in Hx. apply Nat.ltb_lt. lia.
Qed.

(** After [start_session] the session is active on an open stream, and
    sending leaves it so: the hypotheses of the statements below hold of
    every state the program reaches once it has started. *)
Lemma started_open (st : State) :
  world_ok (world st) = true ->
  stream_open (started st) (opened (world st)) /\
  is_active (chat (started st)) = true.
Proof.
  intros H. split; [split; [reflexivity|]|reflexivity].
  exact (fresh_stream _ H).
Qed.

Lemma sent_open (st : State) (h : nat) (evs : list (nat * string)) :
  stream_open st h -> stream_open (sent evs st) h.
Proof. intros H. exact H. Qed.

(** What the five events of [start_session] decode to. *)
Lemma loads_start_events (o : NovaVoiceChat) :
  plain (prompt_name o) = true ->
  plain (content_name o) = true ->
  plain (voice_id o) = true ->
  map Json.loads (start_events o) =
  [ Ok (envelope "sessionStart"
          [("inferenceConfiguration",
            JObj [("maxTokens", JNum "1024"); ("topP", JNum "0.9");
                  ("temperature", JNum "0.7")])]);
    Ok (envelope "promptStart"
          [("promptName", JStr (prompt_name o));
           ("textOutputConfiguration",
            JObj [("mediaType", JStr "text/plain")]);
           ("audioOutputConfiguration",
            JObj [("mediaType", JStr "audio/lpcm");
                  ("sampleRateHertz", JNum "24000");
                  ("sampleSizeBits", JNum "16");
                  ("channelCount", JNum "1");
                  ("voiceId", JStr (voice_id o));
                  ("encoding", JStr "base64");
                  ("audioType", JStr "SPEECH")])]);
    Ok (envelope "contentStart"
          [("promptName", JStr (prompt_name o));
           ("contentName", JStr (content_name o));
           ("type", JStr "TEXT");
           ("interactive", JBool true);
           ("role", JStr "SYSTEM");
           ("textInputConfiguration",
            JObj [("mediaType", JStr "text/plain")])]);
    Ok (envelope "textInput"
          [("promptName", JStr (prompt_name o));
           ("contentName", JStr (content_name o));
           ("content", JStr system_prompt)]);
    Ok (envelope "contentEnd"
          [("promptName", JStr (prompt_name o));
           ("contentName", JStr (content_name o))]) ].
Proof.
  intros H1 H2 H3. unfold start_events. cbn [map].
  rewrite loads_session_start, (loads_prompt_start _ _ H1 H3),
    (loads_text_content_start _ _ H1 H2),
    (loads_text_input _ _ H1 H2 _ system_prompt_plain),
    (loads_text_content_end _ _ H1 H2).
  reflexivity.
Qed.

(** C4: [start_session] sends exactly five events, in this order and with
    nothing in between: [sessionStart], [promptStart], a [contentStart] of
    type TEXT and role SYSTEM, a [textInput] that carries the system prompt,
    and the [contentEnd] of that content. *)
Theorem start_session_sends_five_events (st : State) :
  world_ok (world st) = true ->
  plain (prompt_name (chat st)) = true ->
  plain (content_name (chat st)) = true ->
  plain (voice_id (chat st)) = true ->
  exists st',
    start_session st = (Returns tt, st') /\
    wire (world st') =
      (wire (world st)
       ++ map (pair (opened (world st))) (start_events (chat st)))%list /\
    List.length (start_events (chat st)) = 5 /\
    map Json.loads (start_events (chat st)) =
    [ Ok (envelope "sessionStart"
            [("inferenceConfiguration",
              JObj [("maxTokens", JNum "1024"); ("topP", JNum "0.9");
                    ("temperature", JNum "0.7")])]);
      Ok (envelope "promptStart"
            [("promptName", JStr (prompt_name (chat st)));
             ("textOutputConfiguration",
              JObj [("mediaType", JStr "text/plain")]);
             ("audioOutputConfiguration",
              JObj [("mediaType", JStr "audio/lpcm");
                    ("sampleRateHertz", JNum "24000");
                    ("sampleSizeBits", JNum "16");
                    ("channelCount", JNum "1");
                    ("voiceId", JStr (voice_id (chat st)));
                    ("encoding", JStr "base64");
                    ("audioType", JStr "SPEECH")])]);
      Ok (envelope "contentStart"
            [("promptName", JStr (prompt_name (chat st)));
             ("contentName", JStr (content_name (chat st)));
             ("type", JStr "TEXT");
             ("interactive", JBool true);
             ("role", JStr "SYSTEM");
             ("textInputConfiguration",
              JObj [("mediaType", JStr "text/plain")])]);
      Ok (envelope "textInput"
            [("promptName", JStr (prompt_name (chat st)));
             ("contentName", JStr (content_name (chat st)));
             ("content", JStr system_prompt)]);
      Ok (envelope "contentEnd"
            [("promptName", JStr (prompt_name (chat st)));
             ("contentName", JStr (content_name (chat st)))]) ].
Proof.
  intros Hok H1 H2 H3. exists (started st).
  split; [apply start_session_run; exact Hok|].
  split; [reflexivity|].
  split; [reflexivity|].
  apply loads_start_events; assumption.
Qed.

Lemma start_session_sends_five_events_witness :
  exists st',
    start_session fresh = (Returns tt, st') /\
    wire (world st') =
      (wire (world fresh)
       ++ map (pair (opened (world fresh))) (start_events (chat fresh)))%list /\
    List.length (start_events (chat fresh)) = 5 /\
    map Json.loads (start_events (chat fresh)) =
    [ Ok (envelope "sessionStart"
            [("inferenceConfiguration",
              JObj [("maxTokens", JNum "1024"); ("topP", JNum "0.9");
                    ("temperature", JNum "0.7")])]);
      Ok (envelope "promptStart"
            [("promptName", JStr (prompt_name (chat fresh)));
             ("textOutputConfiguration",
              JObj [("mediaType", JStr "text/plain")]);
             ("audioOutputConfiguration",
              JObj [("mediaType", JStr "audio/lpcm");
                    ("sampleRateHertz", JNum "24000");
                    ("sampleSizeBits", JNum "16");
                    ("channelCount", JNum "1");
                    ("voiceId", JStr (voice_id (chat fresh)));
                    ("encoding", JStr "base64");
                    ("audioType", JStr "SPEECH")])]);
      Ok (envelope "contentStart"
            [("promptName", JStr (prompt_name (chat fresh)));
             ("contentName", JStr (content_name (chat fresh)));
             ("type", JStr "TEXT");
             ("interactive", JBool true);
             ("role", JStr "SYSTEM");
             ("textInputConfiguration",
              JObj [("mediaType", JStr "text/plain")])]);
      Ok (envelope "textInput"
            [("promptName", JStr (prompt_name (chat fresh)));
             ("contentName", JStr (content_name (chat fresh)));
             ("content", JStr system_prompt)]);
      Ok (envelope "contentEnd"
            [("promptName", JStr (prompt_name (chat fresh)));
             ("contentName", JStr (content_name (chat fresh)))]) ].
Proof.
  apply (start_session_sends_five_events fresh); reflexivity.
Defined.

(** C5, as the specification words it, fails: a second [start_session] on
    the same object does not raise; it returns and the wire carries the five
    events a second time, on a second stream. *)
Lemma second_start_session_does_not_fail :
  start_session (started fresh) = (Returns tt, started (started fresh)) /\
  (forall e, fst (start_session (started fresh)) <> Raises e) /\
  wire (world (started (started fresh))) =
    (map (pair 0) (start_events (chat fresh))
     ++ map (pair 1) (start_events (chat fresh)))%list.
Proof.
  assert (H : start_session (started fresh)
              = (Returns tt, started (started fresh))).
  { apply start_session_run. reflexivity. }
  split; [exact H|]. split.
  - intros e. rewrite H. discriminate.
  - reflexivity.
Qed.

Lemma started_start_events (st : State) :
  start_events (chat (started st)) = start_events (chat st).
Proof.
  unfold start_events, started.
  cbn [chat prompt_name content_name voice_id with_response with_is_active
       with_stream].
  destruct (client_built_names (chat st)) as (-> & -> & _ & ->).
  reflexivity.
Qed.

(** C5, amended: [start_session] has no guard; called a second time it
    returns normally, opens another stream and sends the same five events
    again on it, with the same identifiers, and the session is active. *)
Theorem start_session_twice (st : State) :
  world_ok (world st) = true ->
  exists st1 st2,
    start_session st = (Returns tt, st1) /\
    start_session st1 = (Returns tt, st2) /\
    wire (world st2) =
      (wire (world st)
       ++ map (pair (opened (world st))) (start_events (chat st))
       ++ map (pair (S (opened (world st)))) (start_events (chat st)))%list /\
    stream (chat st2) = Some (S (opened (world st))) /\
    is_active (chat st2) = true.
Proof.
  intros Hok. exists (started st), (started (started st)).
  split; [apply start_session_run; exact Hok|].
  split; [apply start_session_run, started_world_ok; exact Hok|].
  split; [|split; reflexivity].
  change (wire (world (started (started st))))
    with (wire (world (started st))
          ++ map (pair (S (opened (world st))))
               (start_events (chat (started st))))%list.
  rewrite started_start_events.
  change (wire (world (started st)))
    with (wire (world st)
          ++ map (pair (opened (world st))) (start_events (chat st)))%list.
  rewrite <- app_assoc. reflexivity.
Qed.

Lemma start_session_twice_witness :
  exists st1 st2,
    start_session fresh = (Returns tt, st1) /\
    start_session st1 = (Returns tt, st2) /\
    wire (world st2) =
      (wire (world fresh)
       ++ map (pair (opened (world fresh))) (start_events (chat fresh))
       ++ map (pair (S (opened (world fresh)))) (start_events (chat fresh)))%list /\
    stream (chat st2) = Some (S (opened (world fresh))) /\
    is_active (chat st2) = true.
Proof. apply (start_session_twice fresh). reflexivity. Defined.

Lemma event_name_prompt_end (pn : string) :
  plain pn = true -> event_name (prompt_end pn) = Some "promptEnd".
Proof. intros H. unfold event_name. rewrite (loads_prompt_end _ H). reflexivity. Qed.

Lemma event_name_session_end : event_name session_end = Some "sessionEnd".
Proof. unfold event_name. rewrite loads_session_end. reflexivity. Qed.

(** C6: [end_session] is idempotent.  On an active session the first call
    sends one [promptEnd] and one [sessionEnd]; the second call sends nothing
    and leaves the state as it is. *)
Theorem end_session_idempotent (st : State) (h : nat) :
  stream_open st h ->
  is_active (chat st) = true ->
  plain (prompt_name (chat st)) = true ->
  exists st1,
    end_session st = (Returns tt, st1) /\
    wire (world st1) =
      (wire (world st)
       ++ [(h, prompt_end (prompt_name (chat st))); (h, session_end)])%list /\
    map event_name [prompt_end (prompt_name (chat st)); session_end] =
      [Some "promptEnd"; Some "sessionEnd"] /\
    end_session st1 = (Returns tt, st1) /\
    (bind end_session (fun _ => end_session)) st = (Returns tt, st1).
Proof.
  intros Ho Ha Hp. exists (ended h st).
  assert (H1 : end_session st = (Returns tt, ended h st))
    by (apply end_session_run; assumption).
  assert (H2 : end_session (ended h st) = (Returns tt, ended h st))
    by (apply end_session_inactive; reflexivity).
  split; [exact H1|]. split; [reflexivity|]. split.
  - cbn [map]. rewrite (event_name_prompt_end _ Hp), event_name_session_end.
    reflexivity.
  - split; [exact H2|]. erewrite bind_returns by exact H1. exact H2.
Qed.

Lemma end_session_idempotent_witness :
  exists st1,
    end_session (started fresh) = (Returns tt, st1) /\
    wire (world st1) =
      (wire (world (started fresh))
       ++ [(0, prompt_end (prompt_name (chat (started fresh))));
           (0, session_end)])%list /\
    map event_name
      [prompt_end (prompt_name (chat (started fresh))); session_end] =
      [Some "promptEnd"; Some "sessionEnd"] /\
    end_session st1 = (Returns tt, st1) /\
    (bind end_session (fun _ => end_session)) (started fresh)
      = (Returns tt, st1).
Proof.
  apply (end_session_idempotent (started fresh) 0).
  - split; reflexivity.
  - reflexivity.
  - reflexivity.
Defined.

Lemma capture_audio_cancelled_run (st : State) (h : nat) :
  stream_open st h ->
  capture_audio_cancelled st =
  (Returns tt,
   sent [(h, audio_content_end (prompt_name (chat st))
               (audio_content_name (chat st)))]
     (printed [Text "音声キャプチャがキャンセルされました";
               Text "音声キャプチャを停止しました"] st)).
Proof.
  intros [H1 H2].
  unfold capture_audio_cancelled, try_finally, try_except, raise,
    capture_handler, capture_cleanup.
  cbn [print].
  erewrite bind_returns by reflexivity.
  erewrite end_audio_input_run by (split; [exact H1 | exact H2]).
  unfold sent, printed. cbn. rewrite <- app_assoc. reflexivity.
Qed.

(** C10: [end_audio_input] sends its [contentEnd] whether the session is
    active or not, whereas [send_audio_chunk] and [end_session] do nothing
    on an inactive session; so the cleanup of the capture loop still sends
    the [contentEnd] of the AUDIO content once shutdown has begun. *)
Theorem end_audio_input_unconditional (st : State) (h : nat) :
  stream_open st h ->
  plain (prompt_name (chat st)) = true ->
  plain (audio_content_name (chat st)) = true ->
  let ev :=
    audio_content_end (prompt_name (chat st)) (audio_content_name (chat st)) in
  end_audio_input st = (Returns tt, sent [(h, ev)] st) /\
  Json.loads ev =
    Ok (envelope "contentEnd"
          [("promptName", JStr (prompt_name (chat st)));
           ("contentName", JStr (audio_content_name (chat st)))]) /\
  (is_active (chat st) = false ->
   (forall audio_bytes, send_audio_chunk audio_bytes st = (Returns tt, st)) /\
   end_session st = (Returns tt, st) /\
   exists st',
     capture_audio_cancelled st = (Returns tt, st') /\
     wire (world st') = (wire (world st) ++ [(h, ev)])%list).
Proof.
  intros Ho H1 H2 ev. split; [apply end_audio_input_run; exact Ho|].
  split; [apply loads_audio_content_end; assumption|].
  intros Ha. split; [intros bs; apply send_audio_chunk_inactive; exact Ha|].
  split; [apply end_session_inactive; exact Ha|].
  eexists. split; [apply capture_audio_cancelled_run; exact Ho|]. reflexivity.
Qed.

Lemma end_audio_input_unconditional_witness :
  let st := {| chat := with_is_active false (chat (started fresh));
               world := world (started fresh) |} in
  let ev :=
    audio_content_end (prompt_name (chat st)) (audio_content_name (chat st)) in
  end_audio_input st = (Returns tt, sent [(0, ev)] st) /\
  Json.loads ev =
    Ok (envelope "contentEnd"
          [("promptName", JStr (prompt_name (chat st)));
           ("contentName", JStr (audio_content_name (chat st)))]) /\
  (is_active (chat st) = false ->
   (forall audio_bytes, send_audio_chunk audio_bytes st = (Returns tt, st)) /\
   end_session st = (Returns tt, st) /\
   exists st',
     capture_audio_cancelled st = (Returns tt, st') /\
     wire (world st') = (wire (world st) ++ [(0, ev)])%list).
Proof.
  intros st.
  apply (end_audio_input_unconditional st 0).
  - split; reflexivity.
  - reflexivity.
  - reflexivity.
Defined.

(** C9: for every byte sequence given to [send_audio_chunk] on an active
    session whose identifiers are UUID strings, the [audioInput] event sent
    is a JSON envelope whose [content] is the base64 text of the bytes and
    decodes back to them; no character of the interpolated parts needs an
    escape. *)
Theorem audio_input_round_trip (st : State) (h : nat)
    (audio_bytes : list Byte.byte) :
  stream_open st h ->
  is_active (chat st) = true ->
  is_uuid4 (prompt_name (chat st)) = true ->
  is_uuid4 (audio_content_name (chat st)) = true ->
  let blob := Base64.b64encode audio_bytes in
  let ev :=
    audio_event (prompt_name (chat st)) (audio_content_name (chat st)) blob in
  send_audio_chunk audio_bytes st = (Returns tt, sent [(h, ev)] st) /\
  Json.loads ev =
    Ok (envelope "audioInput"
          [("promptName", JStr (prompt_name (chat st)));
           ("contentName", JStr (audio_content_name (chat st)));
           ("content", JStr blob)]) /\
  Base64.b64decode (JStr blob) = Ok audio_bytes /\
  plain blob = true /\
  plain (prompt_name (chat st)) = true /\
  plain (audio_content_name (chat st)) = true.
Proof.
  intros Ho Ha H1 H2 blob ev.
  apply is_uuid4_plain in H1, H2.
  pose proof (b64encode_plain audio_bytes) as Hb.
  split; [apply send_audio_chunk_run; assumption|].
  split; [apply loads_audio_event; assumption|].
  split; [apply b64decode_b64encode|].
  auto.
Qed.

Lemma audio_input_round_trip_witness :
  let st := started fresh in
  let audio_bytes := [Byte.x00; Byte.x01; Byte.x02; Byte.xff; Byte.x22] in
  let blob := Base64.b64encode audio_bytes in
  let ev :=
    audio_event (prompt_name (chat st)) (audio_content_name (chat st)) blob in
  send_audio_chunk audio_bytes st = (Returns tt, sent [(0, ev)] st) /\
  Json.loads ev =
    Ok (envelope "audioInput"
          [("promptName", JStr (prompt_name (chat st)));
           ("contentName", JStr (audio_content_name (chat st)));
           ("content", JStr blob)]) /\
  Base64.b64decode (JStr blob) = Ok audio_bytes /\
  plain blob = true /\
  plain (prompt_name (chat st)) = true /\
  plain (audio_content_name (chat st)) = true.
Proof.
  intros st audio_bytes.
  apply (audio_input_round_trip st 0 audio_bytes).
  - split; reflexivity.
  - reflexivity.
  - reflexivity.
  - reflexivity.
Defined.

(** C3, as the specification words it, fails: nothing is escaped, and a
    payload with a double quote gives a text that is not JSON. *)
Lemma text_input_quote_breaks_envelope :
  Json.loads (text_input uuid1 uuid2 (fstr "say 'hi'"))
    = Raise JSONDecodeError /\
  Json.decode (text_input uuid1 uuid2 (fstr "say 'hi'")) = Json.Malformed.
Proof. split; vm_compute; reflexivity. Qed.

(** C3, amended: nothing is escaped; for every payload without a double
    quote, a backslash or a control character, such as the system prompt
    that [start_session] sends, the [textInput] event is a JSON envelope
    whose [content] decodes to the payload. *)
Theorem text_input_plain_payload (prompt_name content_name payload : string) :
  plain prompt_name = true ->
  plain content_name = true ->
  plain payload = true ->
  Json.loads (text_input prompt_name content_name payload) =
  Ok (envelope "textInput"
        [("promptName", JStr prompt_name);
         ("contentName", JStr content_name);
         ("content", JStr payload)]).
Proof. intros H1 H2 H3. apply loads_text_input; assumption. Qed.

Lemma text_input_plain_payload_witness :
  Json.loads (text_input uuid1 uuid2 system_prompt) =
  Ok (envelope "textInput"
        [("promptName", JStr uuid1);
         ("contentName", JStr uuid2);
         ("content", JStr system_prompt)]).
Proof.
  apply (text_input_plain_payload uuid1 uuid2 system_prompt); reflexivity.
Defined.

(* ------------------------------------------------------------------------- *)
(** * The inbound dispatcher *)
(* ------------------------------------------------------------------------- *)

Section Dispatcher.

Lemma no_suspend_bind (A B : Type) (m : M A) (k : A -> M B) :
  no_suspend m -> (forall a, no_suspend (k a)) -> no_suspend (bind m k).
Proof.
  intros Hm Hk st. unfold bind. specialize (Hm st).
  destruct (m st) as [[a| e|] st']; cbn in *.
  - apply Hk.
  - discriminate.
  - congruence.
Qed.

Lemma no_suspend_lift (A : Type) (r : result A) : no_suspend (lift r).
Proof. intros st. unfold lift. destruct r; discriminate. Qed.

Lemma no_suspend_ret (A : Type) (a : A) : no_suspend (ret a).
Proof. intros st. discriminate. Qed.

Lemma no_suspend_set_self (f : NovaVoiceChat -> NovaVoiceChat) :
  no_suspend (set_self f).
Proof. intros st. discriminate. Qed.

Lemma no_suspend_print (l : line) : no_suspend (print l).
Proof.
  intros st. unfold print.
  destruct l as [s|p v|p e]; [|destruct (printable v)|]; discriminate.
Qed.

Lemma no_suspend_get_self : no_suspend get_self.
Proof. intros st. discriminate. Qed.

Ltac no_suspend :=
  repeat first
    [ apply no_suspend_lift
    | apply no_suspend_ret
    | apply no_suspend_set_self
    | apply no_suspend_print
    | apply no_suspend_get_self
    | apply no_suspend_bind; [|intros]
    | match goal with
      | |- no_suspend (if ?b then _ else _) => destruct b
      end ].

Lemma handle_response_no_suspend (bytes_ : string) :
  no_suspend (handle_response bytes_).
Proof.
  unfold handle_response, set_role, set_display_assistant_text,
    audio_queue_put.
  no_suspend.
Qed.

Lemma the_stream_run (st : State) (h : nat) :
  stream (chat st) = Some h -> the_stream st = (Returns h, st).
Proof. intros H. unfold the_stream, bind, get_self, ret. rewrite H. reflexivity. Qed.

(** One turn of the loop. *)
Lemma responses_loop_cons (st : State) (h : nat) (a : arrival)
    (rest : list arrival) :
  stream (chat st) = Some h ->
  is_active (chat st) = true ->
  responses_loop (a :: rest) st =
  match a with
  | Received (Some (String c r)) =>
      bind (handle_response (String c r)) (fun _ => responses_loop rest) st
  | Received _ => responses_loop rest st
  | AwaitRaises e => (Raises e, st)
  end.
Proof.
  intros Hs Ha. cbn [responses_loop].
  erewrite bind_returns by reflexivity. rewrite Ha.
  erewrite bind_returns by (apply the_stream_run; exact Hs).
  destruct a as [[[|c r]|]|e]; reflexivity.
Qed.

Lemma responses_loop_nil (st : State) (h : nat) :
  stream (chat st) = Some h ->
  is_active (chat st) = true ->
  responses_loop [] st = (Suspends, st).
Proof.
  intros Hs Ha. cbn [responses_loop].
  erewrite bind_returns by reflexivity. rewrite Ha.
  erewrite bind_returns by (apply the_stream_run; exact Hs).
  reflexivity.
Qed.

Lemma responses_loop_inactive (l : list arrival) (st : State) :
  is_active (chat st) = false -> responses_loop l st = (Returns tt, st).
Proof.
  intros Ha. destruct l; cbn [responses_loop];
    (erewrite bind_returns by reflexivity); rewrite Ha; reflexivity.
Qed.

Lemma responses_loop_no_stream (l : list arrival) (st : State) :
  is_active (chat st) = true -> stream (chat st) = None ->
  responses_loop l st = (Raises AttributeError, st).
Proof.
  intros Ha Hs. destruct l; cbn [responses_loop];
    (erewrite bind_returns by reflexivity); rewrite Ha;
    (erewrite bind_raises;
     [reflexivity
     | unfold the_stream, bind, get_self, raise; rewrite Hs; reflexivity]).
Qed.

(** A dispatcher that waits is active and has its stream; what arrives
    later is handled from the state it waits in. *)
Lemma responses_loop_app (pre rest : list arrival) (st0 st : State) :
  responses_loop pre st0 = (Suspends, st) ->
  (is_active (chat st) = true /\ exists h, stream (chat st) = Some h) /\
  responses_loop (pre ++ rest) st0 = responses_loop rest st.
Proof.
  revert st0. induction pre as [|a pre IH]; intros st0 H;
    (destruct (is_active (chat st0)) eqn:Ha;
     [| rewrite (responses_loop_inactive _ _ Ha) in H; discriminate]);
    (destruct (stream (chat st0)) as [h|] eqn:Hs;
     [| rewrite (responses_loop_no_stream _ _ Ha Hs) in H; discriminate]).
  - rewrite (responses_loop_nil _ _ Hs Ha) in H. inversion H; subst.
    split; [eauto | reflexivity].
  - cbn [app]. rewrite (responses_loop_cons _ _ a pre Hs Ha) in H.
    rewrite (responses_loop_cons _ _ a (pre ++ rest) Hs Ha).
    destruct a as [[[|c r]|]|e]; try (apply (IH _ H)); try discriminate.
    unfold bind in H |- *.
    pose proof (handle_response_no_suspend (String c r) st0) as Hn.
    destruct (handle_response (String c r) st0) as [[[]| e|] st1];
      cbn in Hn; try discriminate; try congruence.
    apply (IH _ H).
Qed.

(** A dispatcher that has left its loop reads nothing more. *)
Lemma responses_loop_finished (pre rest : list arrival) (st : State) :
  fst (responses_loop pre st) <> Suspends ->
  responses_loop (pre ++ rest) st = responses_loop pre st.
Proof.
  revert st. induction pre as [|a pre IH]; intros st H;
    (destruct (is_active (chat st)) eqn:Ha;
     [| rewrite !responses_loop_inactive by exact Ha; reflexivity]);
    (destruct (stream (chat st)) as [h|] eqn:Hs;
     [| rewrite !responses_loop_no_stream by assumption; reflexivity]).
  - rewrite (responses_loop_nil _ _ Hs Ha) in H. contradiction H. reflexivity.
  - cbn [app]. rewrite (responses_loop_cons _ _ a pre Hs Ha) in H.
    rewrite (responses_loop_cons _ _ a pre Hs Ha).
    rewrite (responses_loop_cons _ _ a (pre ++ rest) Hs Ha).
    destruct a as [[[|c r]|]|e]; try (apply (IH _ H)); [|reflexivity].
    unfold bind in H |- *.
    destruct (handle_response (String c r) st) as [[[]|e|] st1];
      [apply (IH _ H) | reflexivity | reflexivity].
Qed.

(** [_process_responses] waits exactly when its loop waits. *)
Lemma process_responses_suspends (inbound : list arrival) (st0 st : State) :
  _process_responses inbound st0 = (Suspends, st) ->
  responses_loop inbound st0 = (Suspends, st).
Proof.
  unfold _process_responses, try_except.
  destruct (responses_loop inbound st0) as [[[]|e|] st1]; intros H.
  - discriminate H.
  - destruct e; discriminate H.
  - exact H.
Qed.

Lemma process_responses_finished (pre rest : list arrival) (st0 : State) :
  fst (_process_responses pre st0) <> Suspends ->
  _process_responses (pre ++ rest) st0 = _process_responses pre st0.
Proof.
  intros H. unfold _process_responses, try_except in H |- *.
  rewrite responses_loop_finished; [reflexivity|].
  intros E. apply H.
  destruct (responses_loop pre st0) as [[[]|e|] st1]; cbn [fst] in E;
    try discriminate E. reflexivity.
Qed.

Lemma printed_nil (st : State) : printed [] st = st.
Proof.
  destruct st as [o [n w c out sp]]. unfold printed. cbn.
  rewrite app_nil_r. reflexivity.
Qed.

Ltac lift_step :=
  erewrite bind_returns
    by (unfold lift, Py.contains, Py.getitem, Py.get, Py.json_loads;
        repeat match goal with H : _ = _ |- _ => rewrite H end;
        reflexivity);
  cbv beta iota.

(** A payload that does not decode makes the body raise, with the state
    untouched. *)
Lemma handle_response_fails (bytes_ : string) (e : exn) (st : State) :
  decode_error bytes_ = Some e ->
  handle_response bytes_ st = (Raises e, st).
Proof.
  unfold decode_error. intros H. unfold handle_response.
  destruct (Utf8.decode bytes_) as [s|e1] eqn:E1.
  - destruct (Json.loads s) as [j|e2] eqn:E2; [discriminate|].
    inversion H; subst. lift_step.
    erewrite bind_raises; [reflexivity|]. unfold lift. rewrite E2. reflexivity.
  - inversion H; subst.
    erewrite bind_raises; [reflexivity|]. reflexivity.
Qed.

(** Decoding raises [UnicodeDecodeError] or [JSONDecodeError], which are
    ordinary exceptions. *)
Lemma decode_error_cases (bytes_ : string) (e : exn) :
  decode_error bytes_ = Some e ->
  e = UnicodeDecodeError \/ e = JSONDecodeError.
Proof.
  unfold decode_error, Utf8.decode. intros H.
  destruct (Utf8.valid bytes_).
  - destruct (Json.loads bytes_) as [j|e'] eqn:E; [discriminate|].
    inversion H; subst. right.
    apply (loads_raises_only_JSONDecodeError _ _ E).
  - inversion H; subst. left. reflexivity.
Qed.

Lemma decode_error_is_Exception (bytes_ : string) (e : exn) :
  decode_error bytes_ = Some e -> e <> CancelledError.
Proof.
  intros H. destruct (decode_error_cases _ _ H); subst; discriminate.
Qed.

Ltac invert_options :=
  repeat match goal with
         | H : match ?x with _ => _ end = Some _ |- _ =>
             destruct x eqn:?; try discriminate H
         | H : Some _ = Some _ |- _ => inversion H; subst; clear H
         end.

(** The body of the loop on a [textOutput] event: the display rule, and
    the failure of [print] on a text that has no encoding. *)
Lemma handle_response_text (bytes_ : string) (text : json) (st : State) :
  text_of_output bytes_ = Some text ->
  handle_response bytes_ st =
  if spec_renders (role (chat st)) (display_assistant_text (chat st))
     && negb (printable text)
  then (Raises UnicodeEncodeError, st)
  else
    (Returns tt,
     printed
       (rendering (role (chat st)) (display_assistant_text (chat st)) text)
       st).
Proof.
  unfold text_of_output, event_of. intros H. invert_options.
  unfold handle_response.
  do 8 lift_step.
  erewrite bind_returns by reflexivity. cbv beta.
  unfold rendering, spec_renders.
  destruct (Py.eq_str (role (chat st)) "ASSISTANT"
            && display_assistant_text (chat st)) eqn:EA.
  - apply andb_prop in EA as [EA _]. rewrite EA. cbn [orb andb].
    unfold print. destruct (printable text); reflexivity.
  - cbn [orb].
    destruct (Py.eq_str (role (chat st)) "USER") eqn:EU.
    + destruct (role (chat st)) as [| | |r| |]; try discriminate.
      cbn in EU |- *. apply String.eqb_eq in EU. subst r.
      unfold print. destruct (printable text); reflexivity.
    + cbn [andb]. rewrite printed_nil. reflexivity.
Qed.

(** The body of the loop on a [contentStart] event that carries a
    generation stage. *)
Lemma handle_response_stage (bytes_ : string) (r stage : json) (st : State) :
  stage_hint_of bytes_ = Some (r, stage) ->
  handle_response bytes_ st =
  (Returns tt,
   {| chat :=
        with_display_assistant_text (Py.eq_str stage "SPECULATIVE")
          (with_role r (chat st));
      world := world st |}).
Proof.
  unfold stage_hint_of, event_of. intros H. invert_options.
  unfold handle_response.
  do 7 lift_step.
  erewrite bind_returns by reflexivity. cbv beta.
  do 4 lift_step.
  destruct (Py.eq_str stage "SPECULATIVE"); reflexivity.
Qed.

(** A payload that decodes to an object without an [event] member is
    skipped. *)
Lemma handle_response_no_event (bytes_ s : string)
    (ms : list (string * json)) (st : State) :
  Utf8.decode bytes_ = Ok s ->
  Json.loads s = Ok (JObj ms) ->
  Py.dict_get "event" ms = None ->
  handle_response bytes_ st = (Returns tt, st).
Proof.
  intros H1 H2 H3. unfold handle_response. do 3 lift_step. reflexivity.
Qed.

End Dispatcher.

(** C2, as the specification words it, fails: after a payload that is not
    JSON the dispatcher has ended, and a later [textOutput] of the user,
    which it renders when the malformed payload is absent, is never
    processed. *)
Lemma malformed_event_ends_dispatcher :
  decode_error truncated = Some JSONDecodeError /\
  (exists st',
     _process_responses
       [Received (Some user_start); Received (Some truncated);
        Received (Some text_hello)] (started fresh) = (Returns tt, st') /\
     stdout (world st') = [FmtExn "レスポンス処理エラー: " JSONDecodeError]) /\
  (exists st',
     _process_responses
       [Received (Some user_start); Received (Some text_hello)]
       (started fresh) = (Suspends, st') /\
     stdout (world st') = [Fmt "ユーザー: " (JStr "hello")]).
Proof.
  split; [vm_compute; reflexivity|].
  split; eexists; (split; [vm_compute; reflexivity|]); reflexivity.
Qed.

(** C2, amended: a payload that fails to decode (bytes that are not UTF-8,
    or text that is not JSON) ends the dispatcher: the failure is printed,
    nothing that arrives later is processed, and no exception leaves
    [_process_responses].  A payload that decodes to an object without an
    [event] member is skipped without a line and the loop goes on. *)
Theorem decode_failure_ends_dispatcher (st : State) (h : nat)
    (bytes_ : string) (rest : list arrival) :
  stream (chat st) = Some h ->
  is_active (chat st) = true ->
  bytes_ <> EmptyString ->
  (forall e,
     decode_error bytes_ = Some e ->
     _process_responses (Received (Some bytes_) :: rest) st =
     (Returns tt, printed [FmtExn "レスポンス処理エラー: " e] st)) /\
  (forall s ms,
     Utf8.decode bytes_ = Ok s ->
     Json.loads s = Ok (JObj ms) ->
     Py.dict_get "event" ms = None ->
     _process_responses (Received (Some bytes_) :: rest) st =
     _process_responses rest st).
Proof.
  intros Hs Ha Hne. destruct bytes_ as [|c r]; [congruence|]. split.
  - intros e He. unfold _process_responses, try_except.
    rewrite (responses_loop_cons _ _ _ rest Hs Ha).
    erewrite bind_raises by (apply handle_response_fails; exact He).
    pose proof (decode_error_is_Exception _ _ He) as Hc.
    destruct e; try congruence; reflexivity.
  - intros s ms H1 H2 H3. unfold _process_responses, try_except.
    rewrite (responses_loop_cons _ _ _ rest Hs Ha).
    erewrite bind_returns
      by (apply (handle_response_no_event _ _ _ _ H1 H2 H3)).
    reflexivity.
Qed.

Lemma decode_failure_ends_dispatcher_witness :
  (forall e,
     decode_error truncated = Some e ->
     _process_responses
       [Received (Some truncated); Received (Some text_hello)] (started fresh) =
     (Returns tt, printed [FmtExn "レスポンス処理エラー: " e] (started fresh))) /\
  (forall s ms,
     Utf8.decode truncated = Ok s ->
     Json.loads s = Ok (JObj ms) ->
     Py.dict_get "event" ms = None ->
     _process_responses
       [Received (Some truncated); Received (Some text_hello)] (started fresh) =
     _process_responses [Received (Some text_hello)] (started fresh)).
Proof.
  apply (decode_failure_ends_dispatcher (started fresh) 0 truncated
           [Received (Some text_hello)]).
  - reflexivity.
  - reflexivity.
  - discriminate.
Defined.

(** C7, as the specification words it, fails: the display rule holds (the
    current role is USER) and the text of a [textOutput] event is not
    rendered.  After an event that ended the dispatcher (here a payload that
    is not JSON) the event is never read; and a text that has no encoding
    for the terminal (a lone surrogate) makes [print] raise, which is logged
    and ends the dispatcher. *)
Lemma text_output_not_rendered :
  text_of_output text_hello = Some (JStr "hello") /\
  (exists st,
     _process_responses
       [Received (Some user_start); Received (Some truncated)]
       (started fresh) = (Returns tt, st) /\
     spec_renders (role (chat st)) (display_assistant_text (chat st)) = true /\
     _process_responses
       ([Received (Some user_start); Received (Some truncated)]
        ++ [Received (Some text_hello)]) (started fresh) = (Returns tt, st) /\
     stdout (world st) = [FmtExn "レスポンス処理エラー: " JSONDecodeError]) /\
  (exists text st st',
     text_of_output text_lone_surrogate = Some text /\
     _process_responses [Received (Some user_start)] (started fresh)
       = (Suspends, st) /\
     spec_renders (role (chat st)) (display_assistant_text (chat st)) = true /\
     _process_responses
       ([Received (Some user_start)]
        ++ [Received (Some text_lone_surrogate)]) (started fresh)
       = (Returns tt, st') /\
     stdout (world st') = [FmtExn "レスポンス処理エラー: " UnicodeEncodeError]).
Proof.
  split; [vm_compute; reflexivity|]. split.
  - eexists. split; [vm_compute; reflexivity|].
    split; [reflexivity|]. split; [vm_compute; reflexivity|]. reflexivity.
  - eexists. eexists. eexists. split; [vm_compute; reflexivity|].
    split; [vm_compute; reflexivity|]. split; [reflexivity|].
    split; [vm_compute; reflexivity|]. reflexivity.
Qed.

(** C7, amended: for every sequence of inbound events [pre] and a
    [textOutput] event that arrives after it.  While the dispatcher is still
    waiting for events, in the role and with the display flag that [pre] has
    left, the text is rendered exactly when
    [(current_role == ASSISTANT and show_assistant_text) or
    current_role == USER] and the text has an encoding for the terminal;
    when the rule holds and the text has none, the error is logged instead
    and the dispatcher ends; when the rule does not hold nothing is printed
    and the dispatcher goes on waiting.  Once [pre] has ended the
    dispatcher, the event is not read and nothing is rendered.  The line is
    an assistant line only when the current role is ASSISTANT. *)
Theorem text_output_rendered_iff (pre : list arrival) (st0 st : State)
    (out : outcome unit) (bytes_ : string) (text : json) :
  text_of_output bytes_ = Some text ->
  _process_responses pre st0 = (out, st) ->
  _process_responses (pre ++ [Received (Some bytes_)]) st0 =
    match out with
    | Suspends =>
        if spec_renders (role (chat st)) (display_assistant_text (chat st))
        then
          if printable text
          then
            (Suspends,
             printed
               (rendering (role (chat st)) (display_assistant_text (chat st))
                  text) st)
          else
            (Returns tt,
             printed [FmtExn "レスポンス処理エラー: " UnicodeEncodeError] st)
        else (Suspends, st)
    | _ => (out, st)
    end /\
  (rendering (role (chat st)) (display_assistant_text (chat st)) text <> []
   <-> spec_renders (role (chat st)) (display_assistant_text (chat st)) = true) /\
  (Py.eq_str (role (chat st)) "ASSISTANT" = false ->
   ~ In (Fmt "アシスタント: " text)
       (rendering (role (chat st)) (display_assistant_text (chat st)) text)).
Proof.
  intros Htext Hrun. split; [|split].
  - assert (Hfin : out <> Suspends ->
              _process_responses (pre ++ [Received (Some bytes_)]) st0
              = (out, st)).
    { intros Hne. rewrite process_responses_finished; [exact Hrun|].
      rewrite Hrun. exact Hne. }
    destruct out as [[]|e|]; [apply Hfin; discriminate
                             |apply Hfin; discriminate|].
    apply process_responses_suspends in Hrun.
    destruct (responses_loop_app pre [Received (Some bytes_)] _ _ Hrun)
      as [[Ha [h Hs]] Happ].
    unfold _process_responses, try_except. rewrite Happ.
    rewrite (responses_loop_cons _ _ _ [] Hs Ha).
    destruct bytes_ as [|c r]; [vm_compute in Htext; discriminate|].
    pose proof (handle_response_text _ _ st Htext) as Hh.
    destruct (spec_renders (role (chat st))
                (display_assistant_text (chat st))) eqn:Er;
      [destruct (printable text) eqn:Ep|]; cbn [andb negb] in Hh.
    + erewrite bind_returns by exact Hh.
      rewrite (responses_loop_nil _ h); [reflexivity | exact Hs | exact Ha].
    + erewrite bind_raises by exact Hh. reflexivity.
    + erewrite bind_returns by exact Hh.
      unfold rendering. rewrite Er, printed_nil.
      rewrite (responses_loop_nil _ h); [reflexivity | exact Hs | exact Ha].
  - unfold rendering.
    destruct (spec_renders (role (chat st)) (display_assistant_text (chat st)));
      split; intros H; try reflexivity; try discriminate; congruence.
  - intros HA. unfold rendering. rewrite HA.
    destruct (spec_renders (role (chat st)) (display_assistant_text (chat st)));
      cbn; [intros [H|[]]; discriminate H | intros []].
Qed.

Lemma text_output_rendered_iff_witness :
  _process_responses
    ([Received (Some speculative_start)] ++ [Received (Some text_hi)])
    (started fresh) =
    (Suspends, printed [Fmt "アシスタント: " (JStr "Hi")] speculating) /\
  (rendering (role (chat speculating))
     (display_assistant_text (chat speculating)) (JStr "Hi") <> []
   <-> spec_renders (role (chat speculating))
         (display_assistant_text (chat speculating)) = true) /\
  (Py.eq_str (role (chat speculating)) "ASSISTANT" = false ->
   ~ In (Fmt "アシスタント: " (JStr "Hi"))
       (rendering (role (chat speculating))
          (display_assistant_text (chat speculating)) (JStr "Hi"))).
Proof.
  apply (text_output_rendered_iff [Received (Some speculative_start)]
           (started fresh) speculating Suspends text_hi (JStr "Hi")).
  - vm_compute. reflexivity.
  - vm_compute. reflexivity.
Defined.

(** C8: on [contentStart] ASSISTANT/SPECULATIVE, [textOutput] "Hi",
    [contentStart] ASSISTANT/FINAL, [textOutput] "Hi there", the text "Hi" is
    rendered and "Hi there" is not; in general a [contentStart] whose
    [additionalModelFields] carry a generation stage sets
    [display_assistant_text] to [stage == "SPECULATIVE"] (and the role to
    its [role]). *)
Theorem speculative_shown_final_suppressed :
  (exists st',
     responses_loop spec_scenario (started fresh) = (Suspends, st') /\
     stdout (world st') = [Fmt "アシスタント: " (JStr "Hi")] /\
     display_assistant_text (chat st') = false) /\
  (forall (st : State) (bytes_ : string) (r stage : json),
     stage_hint_of bytes_ = Some (r, stage) ->
     exists st',
       handle_response bytes_ st = (Returns tt, st') /\
       display_assistant_text (chat st') = Py.eq_str stage "SPECULATIVE" /\
       role (chat st') = r /\
       world st' = world st).
Proof.
  split.
  - eexists. split; [vm_compute; reflexivity|]. split; reflexivity.
  - intros st bytes_ r stage H. eexists.
    split; [apply handle_response_stage; exact H|]. repeat split.
Qed.

Lemma speculative_shown_final_suppressed_witness :
  exists st',
    handle_response final_start speculating = (Returns tt, st') /\
    display_assistant_text (chat st') = Py.eq_str (JStr "FINAL") "SPECULATIVE" /\
    role (chat st') = JStr "ASSISTANT" /\
    world st' = world speculating.
Proof.
  apply (proj2 speculative_shown_final_suppressed speculating final_start
           (JStr "ASSISTANT") (JStr "FINAL")).
  vm_compute. reflexivity.
Defined.

(* ------------------------------------------------------------------------- *)
(** * Shutdown *)
(* ------------------------------------------------------------------------- *)

(** What [main] leaves on the wire when Enter is pressed while the capture
    task is in its loop: the cleanup of the capture task sends the
    [contentEnd] of the AUDIO content, and [end_session], entered with the
    session already marked inactive, sends nothing. *)
Lemma main_finally_wire (st : State) (h : nat)
    (playback_done response_done : bool) :
  stream_open st h ->
  exists st',
    main_finally playback_done false response_done st = (Returns tt, st') /\
    wire (world st') =
      (wire (world st)
       ++ [(h, audio_content_end (prompt_name (chat st))
                 (audio_content_name (chat st)))])%list /\
    closed (world st') = closed (world st).
Proof.
  intros [H1 H2]. unfold main_finally.
  erewrite bind_returns by reflexivity.
  erewrite bind_returns by reflexivity.
  destruct playback_done, response_done;
    (erewrite bind_returns with (a := true)
       by (unfold run_task, play_audio_cancelled, try_finally, try_except,
             raise, playback_handler, ret;
           cbn [print]; reflexivity));
    unfold run_task at 1;
    (erewrite bind_returns;
     [| erewrite capture_audio_cancelled_run
          by (split; [exact H1|exact H2]);
        reflexivity ]);
    (erewrite bind_returns by (apply end_session_inactive; reflexivity));
    (erewrite bind_returns by reflexivity);
    (erewrite bind_returns with (a := true)
       by (unfold run_task, _process_responses_cancelled, try_except, raise,
             responses_handler, ret;
           cbn [print]; reflexivity));
    (eexists; split; [reflexivity|]; cbn; split; reflexivity).
Qed.

(** C1: the run of [main] in which Enter is pressed while audio input is
    open.  The wire ends with the [contentEnd] of the AUDIO content, sent
    once; no [promptEnd] and no [sessionEnd] follows it, and the stream is
    never closed: [main] has marked the session inactive before it calls
    [end_session], which then returns at its guard. *)
Theorem main_shutdown_sends_no_prompt_end :
  exists st',
    main "2" uuid1 uuid2 uuid3 [Chunk three_bytes] [] initial_state
      = (Returns tt, st') /\
    wire_names st' =
      [ Some "sessionStart"; Some "promptStart"; Some "contentStart";
        Some "textInput"; Some "contentEnd"; Some "contentStart";
        Some "audioInput"; Some "contentEnd" ] /\
    last (wire (world st')) (0, EmptyString) =
      (0, audio_content_end uuid1 uuid3) /\
    List.length
      (filter (fun p => (snd p =? audio_content_end uuid1 uuid3)%string)
         (wire (world st'))) = 1 /\
    ~ In (0, prompt_end uuid1) (wire (world st')) /\
    closed (world st') = [] /\
    is_active (chat st') = false.
Proof.
  eexists. split; [vm_compute; reflexivity|].
  split; [vm_compute; reflexivity|].
  split; [vm_compute; reflexivity|].
  split; [vm_compute; reflexivity|].
  split; [|split; reflexivity].
  intros H. vm_compute in H.
  repeat (destruct H as [H|H]; [discriminate H|]). exact H.
Qed.

(* ------------------------------------------------------------------------- *)
(** * What a computation leaves alone *)
(* ------------------------------------------------------------------------- *)

Section Frames.

Context {B : Type} (view : State -> B).

Lemma preserves_bind (A C : Type) (m : M A) (k : A -> M C) :
  preserves view m -> (forall a, preserves view (k a)) ->
  preserves view (bind m k).
Proof.
  intros Hm Hk st. unfold bind. specialize (Hm st).
  destruct (m st) as [[a|e|] st1]; cbn [snd] in *.
  - rewrite Hk. exact Hm.
  - exact Hm.
  - exact Hm.
Qed.

Lemma preserves_ret (A : Type) (a : A) : preserves view (ret a).
Proof. intros st. reflexivity. Qed.

Lemma preserves_raise (A : Type) (e : exn) : preserves view (@raise A e).
Proof. intros st. reflexivity. Qed.

Lemma preserves_suspend (A : Type) : preserves view (@suspend A).
Proof. intros st. reflexivity. Qed.

Lemma preserves_lift (A : Type) (r : result A) : preserves view (lift r).
Proof. intros st. unfold lift. destruct r; reflexivity. Qed.

Lemma preserves_get_self : preserves view get_self.
Proof. intros st. reflexivity. Qed.

Lemma preserves_try_except (A : Type) (body : M A)
    (handler : exn -> option (M A)) :
  preserves view body ->
  (forall e h, handler e = Some h -> preserves view h) ->
  preserves view (try_except body handler).
Proof.
  intros Hb Hh st. unfold try_except. specialize (Hb st).
  destruct (body st) as [[a|e|] st1]; cbn [snd] in *; try exact Hb.
  destruct (handler e) as [h|] eqn:E; [|exact Hb].
  rewrite (Hh _ _ E). exact Hb.
Qed.

Lemma preserves_try_finally (A : Type) (body : M A) (cleanup : M unit) :
  preserves view body -> preserves view cleanup ->
  preserves view (try_finally body cleanup).
Proof.
  intros Hb Hc st. unfold try_finally. specialize (Hb st).
  destruct (body st) as [[a|e|] st1]; cbn [snd] in *; try exact Hb;
    specialize (Hc st1);
    destruct (cleanup st1) as [[[]|e'|] st2]; cbn [snd] in *; congruence.
Qed.

Lemma preserves_run_task (t : M unit) :
  preserves view t -> preserves view (run_task t).
Proof.
  intros Ht st. unfold run_task. specialize (Ht st).
  destruct (t st) as [[a|e|] st1]; exact Ht.
Qed.

End Frames.

Lemma preserves_set_self (B : Type) (view : State -> B)
    (f : NovaVoiceChat -> NovaVoiceChat) :
  (forall o w, view {| chat := f o; world := w |}
               = view {| chat := o; world := w |}) ->
  preserves view (set_self f).
Proof. intros H [o w]. cbn. apply H. Qed.

Lemma preserves_print (B : Type) (view : State -> B) (l : line) :
  (forall o w out,
     view {| chat := o;
             world := {| opened := opened w; wire := wire w;
                         closed := closed w; stdout := out;
                         speaker := speaker w |} |}
     = view {| chat := o; world := w |}) ->
  preserves view (print l).
Proof.
  intros H [o w]. unfold print.
  destruct l as [s|p v|p e]; [|destruct (printable v)|]; cbn;
    first [apply H | reflexivity].
Qed.

Ltac frame :=
  repeat first
    [ apply preserves_lift
    | apply preserves_ret
    | apply preserves_raise
    | apply preserves_suspend
    | apply preserves_get_self
    | apply preserves_print; intros ? [] ?; reflexivity
    | apply preserves_set_self; intros [] ?; reflexivity
    | apply preserves_bind; [|intros]
    | match goal with
      | |- preserves _ (if ?b then _ else _) => destruct b
      | |- preserves _ (match ?x with _ => _ end) => destruct x
      end ].

Section DispatcherFrame.

Lemma handle_response_frame (bytes_ : string) :
  preserves outside_dispatcher (handle_response bytes_).
Proof.
  unfold handle_response, set_role, set_display_assistant_text,
    audio_queue_put.
  frame.
Qed.

Lemma the_stream_preserves (B : Type) (view : State -> B) :
  preserves view the_stream.
Proof. unfold the_stream. frame. Qed.

Lemma responses_loop_frame (inbound : list arrival) :
  preserves outside_dispatcher (responses_loop inbound).
Proof.
  induction inbound as [|a rest IH]; cbn [responses_loop].
  - apply preserves_bind; [apply preserves_get_self|]. intros o.
    destruct (is_active o); [|apply preserves_ret].
    apply preserves_bind; [apply the_stream_preserves|]. intros _.
    apply preserves_suspend.
  - apply preserves_bind; [apply preserves_get_self|]. intros o.
    destruct (is_active o); [|apply preserves_ret].
    apply preserves_bind; [apply the_stream_preserves|]. intros _.
    destruct a as [[[|c r]|]|e]; try exact IH; [|apply preserves_raise].
    apply preserves_bind; [apply handle_response_frame|]. intros _. exact IH.
Qed.

Lemma responses_handler_total (e : exn) :
  exists l, responses_handler e = Some (print l) /\
            forall st, print l st = (Returns tt, printed [l] st).
Proof. destruct e; eexists; split; reflexivity. Qed.

Lemma process_responses_no_raise (inbound : list arrival) :
  never_raises (_process_responses inbound).
Proof.
  intros st e. unfold _process_responses, try_except.
  destruct (responses_loop inbound st) as [[a|e'|] st1]; try discriminate.
  destruct (responses_handler_total e') as (l & -> & Hl).
  rewrite Hl. discriminate.
Qed.

Lemma process_responses_frame (inbound : list arrival) :
  preserves outside_dispatcher (_process_responses inbound).
Proof.
  apply (preserves_try_except outside_dispatcher).
  - apply responses_loop_frame.
  - intros e h H. destruct (responses_handler_total e) as (l & Hl & _).
    rewrite Hl in H. inversion H; subst.
    apply preserves_print. intros ? [] ?. reflexivity.
Qed.

(** X1: whatever arrives, [_process_responses] lets no exception out and
    touches nothing but the role, the display flag, the audio queue and the
    terminal: it sends nothing, opens and closes no stream, plays nothing,
    and leaves the identifiers and [is_active] as they are. *)
Theorem process_responses_contained (inbound : list arrival) (st : State) :
  (forall e, fst (_process_responses inbound st) <> Raises e) /\
  outside_dispatcher (snd (_process_responses inbound st))
    = outside_dispatcher st.
Proof.
  split.
  - apply process_responses_no_raise.
  - apply process_responses_frame.
Qed.

End DispatcherFrame.

Section Identity.

Let ident (st : State) := identity (chat st).

Lemma input_stream_send_ident (h : nat) (e : string) :
  preserves ident (input_stream_send h e).
Proof.
  intros [o w]. unfold input_stream_send. cbn.
  destruct (existsb (Nat.eqb h) (closed w)); reflexivity.
Qed.

Lemma send_event_ident (e : string) : preserves ident (send_event e).
Proof.
  unfold send_event. apply preserves_bind; [apply the_stream_preserves|].
  intros h. apply input_stream_send_ident.
Qed.

Ltac ident_frame :=
  repeat first
    [ apply send_event_ident
    | apply the_stream_preserves
    | apply preserves_lift
    | apply preserves_ret
    | apply preserves_raise
    | apply preserves_suspend
    | apply preserves_get_self
    | apply preserves_print; intros ? [] ?; reflexivity
    | apply preserves_set_self; intros [] ?; reflexivity
    | apply preserves_bind; [|intros]
    | apply preserves_try_finally
    | apply preserves_try_except
    | match goal with
      | |- preserves _ (if ?b then _ else _) => destruct b
      | |- preserves _ (match ?x with _ => _ end) => destruct x
      end ].

Lemma start_session_ident : preserves ident start_session.
Proof.
  unfold start_session, _initialize_client. ident_frame.
  intros [o w]. reflexivity.
Qed.

Lemma end_session_ident : preserves ident end_session.
Proof.
  unfold end_session. ident_frame. intros [o w]. reflexivity.
Qed.

Lemma send_audio_chunk_ident (bs : list Byte.byte) :
  preserves ident (send_audio_chunk bs).
Proof. unfold send_audio_chunk. ident_frame. Qed.

Lemma handle_response_ident (bytes_ : string) :
  preserves ident (handle_response bytes_).
Proof.
  unfold handle_response, set_role, set_display_assistant_text,
    audio_queue_put.
  ident_frame.
Qed.

Lemma responses_loop_ident (inbound : list arrival) :
  preserves ident (responses_loop inbound).
Proof.
  induction inbound as [|a rest IH]; cbn [responses_loop].
  - ident_frame.
  - apply preserves_bind; [apply preserves_get_self|]. intros o.
    destruct (is_active o); [|apply preserves_ret].
    apply preserves_bind; [apply the_stream_preserves|]. intros _.
    destruct a as [[[|c r]|]|e]; try exact IH; [|apply preserves_raise].
    apply preserves_bind; [apply handle_response_ident|]. intros _. exact IH.
Qed.

Lemma playback_loop_ident (queued : list (list Byte.byte)) :
  preserves ident (playback_loop queued).
Proof.
  induction queued as [|a rest IH]; cbn [playback_loop].
  - ident_frame.
  - apply preserves_bind; [apply preserves_get_self|]. intros o.
    destruct (is_active o); [|apply preserves_ret].
    apply preserves_bind;
      [apply preserves_set_self; intros [] ?; reflexivity|]. intros _.
    apply preserves_bind; [intros [o' w']; reflexivity|]. intros _.
    exact IH.
Qed.

Lemma capture_loop_ident (mic : list mic_read) :
  preserves ident (capture_loop mic).
Proof.
  induction mic as [|a rest IH]; cbn [capture_loop].
  - ident_frame.
  - apply preserves_bind; [apply preserves_get_self|]. intros o.
    destruct (is_active o); [|apply preserves_ret].
    destruct a as [bs|]; [|apply preserves_raise].
    apply preserves_bind; [apply send_audio_chunk_ident|]. intros _. exact IH.
Qed.

(** X2: the identifiers and the voice are fixed for the life of the object:
    no method of [NovaVoiceChat] changes [prompt_name], [content_name],
    [audio_content_name], [voice_id], [model_id] or [region], whatever its
    arguments and however it ends. *)
Theorem identity_is_fixed :
  preserves (fun st => identity (chat st)) start_session /\
  preserves (fun st => identity (chat st)) start_audio_input /\
  (forall audio_bytes,
     preserves (fun st => identity (chat st)) (send_audio_chunk audio_bytes)) /\
  preserves (fun st => identity (chat st)) end_audio_input /\
  preserves (fun st => identity (chat st)) end_session /\
  (forall inbound,
     preserves (fun st => identity (chat st)) (_process_responses inbound)) /\
  preserves (fun st => identity (chat st)) play_audio /\
  (forall mic,
     preserves (fun st => identity (chat st)) (capture_audio mic)).
Proof.
  change (fun st => identity (chat st)) with ident.
  split; [apply start_session_ident|].
  split; [unfold start_audio_input; ident_frame|].
  split; [apply send_audio_chunk_ident|].
  split; [unfold end_audio_input; ident_frame|].
  split; [apply end_session_ident|].
  split.
  { intros inbound. unfold _process_responses.
    apply preserves_try_except; [apply responses_loop_ident|].
    intros e h H. destruct (responses_handler_total e) as (l & Hl & _).
    rewrite Hl in H. inversion H; subst.
    apply preserves_print. intros ? [] ?. reflexivity. }
  split.
  { unfold play_audio. apply preserves_bind; [apply preserves_get_self|].
    intros o. apply preserves_try_finally; [|apply preserves_ret].
    apply preserves_try_except; [apply playback_loop_ident|].
    intros e h H. destruct e; inversion H; subst;
      apply preserves_print; intros ? [] ?; reflexivity. }
  intros mic. unfold capture_audio, capture_cleanup, start_audio_input,
    end_audio_input.
  apply preserves_bind;
    [apply preserves_print; intros ? [] ?; reflexivity|]. intros _.
  apply preserves_bind;
    [apply preserves_print; intros ? [] ?; reflexivity|]. intros _.
  apply preserves_bind; [ident_frame|]. intros _.
  apply preserves_try_finally; [|ident_frame].
  apply preserves_try_except; [apply capture_loop_ident|].
  intros e h H. destruct e; inversion H; subst;
    apply preserves_print; intros ? [] ?; reflexivity.
Qed.

End Identity.

(* ------------------------------------------------------------------------- *)
(** * The dispatcher, event by event *)
(* ------------------------------------------------------------------------- *)

Section Events2.

Ltac lift1 :=
  erewrite bind_returns
    by (unfold lift, Py.contains, Py.getitem, Py.get, Py.json_loads;
        repeat match goal with H : _ = _ |- _ => rewrite H end;
        reflexivity);
  cbv beta iota.

Ltac lift_raises :=
  erewrite bind_raises;
  [ reflexivity
  | unfold lift, Py.contains, Py.getitem, Py.get, Py.json_loads;
    repeat match goal with H : _ = _ |- _ => rewrite H end;
    reflexivity ].

Ltac invert_opts :=
  repeat match goal with
         | H : match ?x with _ => _ end = Some _ |- _ =>
             destruct x eqn:?; try discriminate H
         | H : Some _ = Some _ |- _ => inversion H; subst; clear H
         end.

(** A turn of the loop whose body returns, and one whose body raises. *)
Lemma process_step_returns (st st1 : State) (h : nat) (bytes_ : string)
    (rest : list arrival) :
  stream (chat st) = Some h ->
  is_active (chat st) = true ->
  bytes_ <> EmptyString ->
  handle_response bytes_ st = (Returns tt, st1) ->
  _process_responses (Received (Some bytes_) :: rest) st =
  _process_responses rest st1.
Proof.
  intros Hs Ha Hne H. destruct bytes_ as [|c r]; [congruence|].
  unfold _process_responses, try_except.
  rewrite (responses_loop_cons _ _ _ rest Hs Ha).
  erewrite bind_returns by exact H. reflexivity.
Qed.

Lemma process_step_raises (st st1 : State) (h : nat) (bytes_ : string)
    (rest : list arrival) (e : exn) :
  stream (chat st) = Some h ->
  is_active (chat st) = true ->
  bytes_ <> EmptyString ->
  e <> CancelledError ->
  handle_response bytes_ st = (Raises e, st1) ->
  _process_responses (Received (Some bytes_) :: rest) st =
  (Returns tt, printed [FmtExn "レスポンス処理エラー: " e] st1).
Proof.
  intros Hs Ha Hne He H. destruct bytes_ as [|c r]; [congruence|].
  unfold _process_responses, try_except.
  rewrite (responses_loop_cons _ _ _ rest Hs Ha).
  erewrite bind_raises by exact H.
  destruct e; try congruence; reflexivity.
Qed.

Lemma event_of_nonempty (bytes_ : string) (ev : list (string * json)) :
  event_of bytes_ = Some ev -> bytes_ <> EmptyString.
Proof. intros H ->. vm_compute in H. discriminate. Qed.

(** What [base64.b64decode] raises. *)
Lemma a2b_base64_raises (s : string) (q : nat) (l : N) (p : nat) (e : exn) :
  Base64.a2b_base64 s q l p = Raise e -> e = BinasciiError.
Proof.
  revert q l p. induction s as [|c s IH]; intros q l p H;
    cbn [Base64.a2b_base64] in H.
  - destruct q; inversion H; reflexivity.
  - repeat match type of H with
           | (if ?b then _ else _) = _ => destruct b
           | match ?x with _ => _ end = _ => destruct x
           end;
      try discriminate H;
      try (apply IH in H; exact H);
      unfold Base64.emit in H;
      match type of H with
      | match ?x with _ => _ end = _ =>
          destruct x eqn:E; [discriminate H|];
          inversion H; subst; apply IH in E; exact E
      end.
Qed.

Lemma b64decode_raises (v : json) (e : exn) :
  Base64.b64decode v = Raise e -> e <> CancelledError.
Proof.
  unfold Base64.b64decode. intros H.
  destruct v; try (inversion H; discriminate).
  destruct (Base64.is_ascii s); [|inversion H; discriminate].
  apply a2b_base64_raises in H. subst. discriminate.
Qed.

Lemma json_loads_raises (v : json) (e : exn) :
  Py.json_loads v = Raise e -> e <> CancelledError.
Proof.
  unfold Py.json_loads. intros H.
  destruct v; try (inversion H; discriminate).
  apply loads_raises_only_JSONDecodeError in H. subst. discriminate.
Qed.

(** The body of the loop on an [audioOutput] event. *)
Lemma handle_response_audio (bytes_ : string) (content : json) (st : State) :
  audio_of_output bytes_ = Some content ->
  handle_response bytes_ st =
  bind (lift (Base64.b64decode content)) audio_queue_put st.
Proof.
  unfold audio_of_output, event_of. intros H. invert_opts.
  unfold handle_response. do 9 lift1. reflexivity.
Qed.

Lemma process_audio_step (st : State) (h : nat) (bytes_ : string)
    (audio_bytes : list Byte.byte) (rest : list arrival) :
  stream (chat st) = Some h ->
  is_active (chat st) = true ->
  audio_chunk_of bytes_ = Some audio_bytes ->
  _process_responses (Received (Some bytes_) :: rest) st =
  _process_responses rest (queued audio_bytes st).
Proof.
  intros Hs Ha H. unfold audio_chunk_of in H.
  destruct (audio_of_output bytes_) as [content|] eqn:E; [|discriminate].
  destruct (Base64.b64decode content) as [bs|] eqn:E1; [|discriminate].
  inversion H; subst.
  assert (Hne : bytes_ <> EmptyString).
  { intros ->. vm_compute in E. discriminate. }
  apply (process_step_returns _ _ h); try assumption.
  rewrite (handle_response_audio _ _ _ E).
  erewrite bind_returns by (unfold lift; rewrite E1; reflexivity).
  reflexivity.
Qed.

(** X3: an [audioOutput] event whose [content] is base64 text puts the
    decoded bytes at the tail of the audio queue and the loop goes on;
    nothing is printed. *)
Theorem audio_output_is_queued (st : State) (h : nat) (bytes_ : string)
    (audio_bytes : list Byte.byte) (rest : list arrival) :
  stream (chat st) = Some h ->
  is_active (chat st) = true ->
  audio_chunk_of bytes_ = Some audio_bytes ->
  _process_responses (Received (Some bytes_) :: rest) st =
  _process_responses rest (queued audio_bytes st).
Proof. apply process_audio_step. Qed.

Lemma audio_output_is_queued_witness :
  _process_responses [Received (Some audio_aaec)] (started fresh) =
  _process_responses [] (queued three_bytes (started fresh)).
Proof.
  apply (audio_output_is_queued (started fresh) 0 audio_aaec three_bytes []).
  - reflexivity.
  - reflexivity.
  - vm_compute. reflexivity.
Defined.

(** X4: an [audioOutput] event whose [content] is not decodable base64
    (bad padding, a character outside ASCII, not a string) ends the
    dispatcher: the error is printed, the audio queue is left as it was and
    nothing that arrives later is processed. *)
Theorem audio_output_undecodable (st : State) (h : nat) (bytes_ : string)
    (content : json) (e : exn) (rest : list arrival) :
  stream (chat st) = Some h ->
  is_active (chat st) = true ->
  audio_of_output bytes_ = Some content ->
  Base64.b64decode content = Raise e ->
  _process_responses (Received (Some bytes_) :: rest) st =
  (Returns tt, printed [FmtExn "レスポンス処理エラー: " e] st).
Proof.
  intros Hs Ha E E1.
  assert (Hne : bytes_ <> EmptyString).
  { intros ->. vm_compute in E. discriminate. }
  apply (process_step_raises _ _ h); try assumption.
  - apply (b64decode_raises _ _ E1).
  - rewrite (handle_response_audio _ _ _ E).
    erewrite bind_raises; [reflexivity|]. unfold lift. rewrite E1. reflexivity.
Qed.

Lemma audio_output_undecodable_witness :
  _process_responses
    [Received (Some audio_bad_padding); Received (Some audio_aaec)]
    (started fresh) =
  (Returns tt,
   printed [FmtExn "レスポンス処理エラー: " BinasciiError] (started fresh)).
Proof.
  apply (audio_output_undecodable (started fresh) 0 audio_bad_padding
           (JStr "aGVsbG8") BinasciiError [Received (Some audio_aaec)]).
  - reflexivity.
  - reflexivity.
  - vm_compute. reflexivity.
  - vm_compute. reflexivity.
Defined.

(** X5: an event that is none of [contentStart], [textOutput] and
    [audioOutput] (a [contentEnd], a usage report) is ignored: the state
    stays as it is and the loop goes on. *)
Theorem other_events_are_ignored (st : State) (h : nat) (bytes_ : string)
    (ev : list (string * json)) (rest : list arrival) :
  stream (chat st) = Some h ->
  is_active (chat st) = true ->
  event_of bytes_ = Some ev ->
  Py.dict_get "contentStart" ev = None ->
  Py.dict_get "textOutput" ev = None ->
  Py.dict_get "audioOutput" ev = None ->
  _process_responses (Received (Some bytes_) :: rest) st =
  _process_responses rest st.
Proof.
  intros Hs Ha E H1 H2 H3.
  pose proof (event_of_nonempty _ _ E) as Hne.
  apply (process_step_returns _ _ h); try assumption.
  unfold event_of in E. invert_opts.
  unfold handle_response. do 7 lift1. reflexivity.
Qed.

Lemma other_events_are_ignored_witness :
  _process_responses
    [Received (Some content_end_inbound); Received (Some text_hello)]
    (started fresh) =
  _process_responses [Received (Some text_hello)] (started fresh).
Proof.
  apply (other_events_are_ignored (started fresh) 0 content_end_inbound
           [("contentEnd", JObj [("stopReason", JStr "END_TURN")])]
           [Received (Some text_hello)]).
  - reflexivity.
  - reflexivity.
  - vm_compute. reflexivity.
  - reflexivity.
  - reflexivity.
  - reflexivity.
Defined.

(** X6: a [contentStart] without [additionalModelFields] sets the role and
    leaves the display flag as it was, whatever else the event holds: a
    [textOutput] in the same event is not rendered. *)
Theorem content_start_without_fields (st : State) (h : nat) (bytes_ : string)
    (cs : list (string * json)) (r : json) (rest : list arrival) :
  stream (chat st) = Some h ->
  is_active (chat st) = true ->
  content_start_of bytes_ = Some cs ->
  Py.dict_get "role" cs = Some r ->
  Py.dict_get "additionalModelFields" cs = None ->
  _process_responses (Received (Some bytes_) :: rest) st =
  _process_responses rest
    {| chat := with_role r (chat st); world := world st |}.
Proof.
  intros Hs Ha E H1 H2.
  assert (Hne : bytes_ <> EmptyString).
  { intros ->. vm_compute in E. discriminate. }
  apply (process_step_returns _ _ h); try assumption.
  unfold content_start_of, event_of in E. invert_opts.
  unfold handle_response. do 7 lift1.
  erewrite bind_returns by reflexivity. cbv beta.
  lift1. reflexivity.
Qed.

Lemma content_start_without_fields_witness :
  _process_responses [Received (Some user_start_with_text)] (started fresh) =
  _process_responses []
    {| chat := with_role (JStr "USER") (chat (started fresh));
       world := world (started fresh) |}.
Proof.
  apply (content_start_without_fields (started fresh) 0 user_start_with_text
           [("role", JStr "USER")] (JStr "USER") []).
  - reflexivity.
  - reflexivity.
  - vm_compute. reflexivity.
  - reflexivity.
  - reflexivity.
Defined.

(** X7: a [contentStart] whose [additionalModelFields] decode to an object
    without [generationStage] sets the role and clears the display flag. *)
Theorem content_start_without_stage (st : State) (h : nat) (bytes_ : string)
    (cs fs : list (string * json)) (r amf : json) (rest : list arrival) :
  stream (chat st) = Some h ->
  is_active (chat st) = true ->
  content_start_of bytes_ = Some cs ->
  Py.dict_get "role" cs = Some r ->
  Py.dict_get "additionalModelFields" cs = Some amf ->
  Py.json_loads amf = Ok (JObj fs) ->
  Py.dict_get "generationStage" fs = None ->
  _process_responses (Received (Some bytes_) :: rest) st =
  _process_responses rest
    {| chat := with_display_assistant_text false (with_role r (chat st));
       world := world st |}.
Proof.
  intros Hs Ha E H1 H2 H3 H4.
  assert (Hne : bytes_ <> EmptyString).
  { intros ->. vm_compute in E. discriminate. }
  apply (process_step_returns _ _ h); try assumption.
  unfold content_start_of, event_of in E. invert_opts.
  unfold handle_response. do 7 lift1.
  erewrite bind_returns by reflexivity. cbv beta.
  lift1. lift1.
  erewrite bind_returns by (unfold lift; rewrite H3; reflexivity).
  cbv beta iota. lift1. reflexivity.
Qed.

Lemma content_start_without_stage_witness :
  _process_responses [Received (Some start_without_stage)] speculating =
  _process_responses []
    {| chat :=
         with_display_assistant_text false
           (with_role (JStr "ASSISTANT") (chat speculating));
       world := world speculating |}.
Proof.
  apply (content_start_without_stage speculating 0 start_without_stage
           [("role", JStr "ASSISTANT"); ("additionalModelFields", JStr "{}")]
           [] (JStr "ASSISTANT") (JStr "{}") []).
  - reflexivity.
  - reflexivity.
  - vm_compute. reflexivity.
  - reflexivity.
  - reflexivity.
  - vm_compute. reflexivity.
  - reflexivity.
Defined.

(** X8: a [contentStart] whose [additionalModelFields] are not a JSON text
    ends the dispatcher after the role has been set: the error is printed,
    the role is the new one and the display flag the old one. *)
Theorem content_start_bad_fields (st : State) (h : nat) (bytes_ : string)
    (cs : list (string * json)) (r amf : json) (e : exn)
    (rest : list arrival) :
  stream (chat st) = Some h ->
  is_active (chat st) = true ->
  content_start_of bytes_ = Some cs ->
  Py.dict_get "role" cs = Some r ->
  Py.dict_get "additionalModelFields" cs = Some amf ->
  Py.json_loads amf = Raise e ->
  _process_responses (Received (Some bytes_) :: rest) st =
  (Returns tt,
   printed [FmtExn "レスポンス処理エラー: " e]
     {| chat := with_role r (chat st); world := world st |}).
Proof.
  intros Hs Ha E H1 H2 H3.
  assert (Hne : bytes_ <> EmptyString).
  { intros ->. vm_compute in E. discriminate. }
  apply (process_step_raises _ _ h); try assumption.
  - apply (json_loads_raises _ _ H3).
  - unfold content_start_of, event_of in E. invert_opts.
    unfold handle_response. do 7 lift1.
    erewrite bind_returns by reflexivity. cbv beta.
    lift1. lift1.
    erewrite bind_raises; [reflexivity|]. unfold lift. rewrite H3. reflexivity.
Qed.

Lemma content_start_bad_fields_witness :
  _process_responses
    [Received (Some start_with_bad_fields); Received (Some text_hi)]
    (started fresh) =
  (Returns tt,
   printed [FmtExn "レスポンス処理エラー: " JSONDecodeError]
     {| chat := with_role (JStr "ASSISTANT") (chat (started fresh));
        world := world (started fresh) |}).
Proof.
  apply (content_start_bad_fields (started fresh) 0 start_with_bad_fields
           [("role", JStr "ASSISTANT"); ("additionalModelFields", JStr "oops")]
           (JStr "ASSISTANT") (JStr "oops") JSONDecodeError
           [Received (Some text_hi)]).
  - reflexivity.
  - reflexivity.
  - vm_compute. reflexivity.
  - reflexivity.
  - reflexivity.
  - vm_compute. reflexivity.
Defined.

(** X9: a [contentStart] without [role] ends the dispatcher with the
    [KeyError] of that key printed; the state is otherwise untouched. *)
Theorem content_start_without_role (st : State) (h : nat) (bytes_ : string)
    (cs : list (string * json)) (rest : list arrival) :
  stream (chat st) = Some h ->
  is_active (chat st) = true ->
  content_start_of bytes_ = Some cs ->
  Py.dict_get "role" cs = None ->
  _process_responses (Received (Some bytes_) :: rest) st =
  (Returns tt, printed [FmtExn "レスポンス処理エラー: " (KeyError "role")] st).
Proof.
  intros Hs Ha E H1.
  assert (Hne : bytes_ <> EmptyString).
  { intros ->. vm_compute in E. discriminate. }
  apply (process_step_raises _ _ h); try assumption; [discriminate|].
  unfold content_start_of, event_of in E. invert_opts.
  unfold handle_response. do 6 lift1. lift_raises.
Qed.

Lemma content_start_without_role_witness :
  _process_responses
    [Received (Some start_without_role); Received (Some text_hello)]
    (started fresh) =
  (Returns tt,
   printed [FmtExn "レスポンス処理エラー: " (KeyError "role")] (started fresh)).
Proof.
  apply (content_start_without_role (started fresh) 0 start_without_role
           [("type", JStr "TEXT")] [Received (Some text_hello)]).
  - reflexivity.
  - reflexivity.
  - vm_compute. reflexivity.
  - reflexivity.
Defined.

(** X10: a [textOutput] without [content] ends the dispatcher with the
    [KeyError] of that key printed; nothing is rendered. *)
Theorem text_output_without_content (st : State) (h : nat) (bytes_ : string)
    (ev fs : list (string * json)) (rest : list arrival) :
  stream (chat st) = Some h ->
  is_active (chat st) = true ->
  event_of bytes_ = Some ev ->
  Py.dict_get "contentStart" ev = None ->
  Py.dict_get "textOutput" ev = Some (JObj fs) ->
  Py.dict_get "content" fs = None ->
  _process_responses (Received (Some bytes_) :: rest) st =
  (Returns tt,
   printed [FmtExn "レスポンス処理エラー: " (KeyError "content")] st).
Proof.
  intros Hs Ha E H1 H2 H3.
  pose proof (event_of_nonempty _ _ E) as Hne.
  apply (process_step_raises _ _ h); try assumption; [discriminate|].
  unfold event_of in E. invert_opts.
  unfold handle_response. do 7 lift1. lift_raises.
Qed.

Lemma text_output_without_content_witness :
  _process_responses
    [Received (Some text_without_content); Received (Some text_hello)]
    (started fresh) =
  (Returns tt,
   printed [FmtExn "レスポンス処理エラー: " (KeyError "content")]
     (started fresh)).
Proof.
  apply (text_output_without_content (started fresh) 0 text_without_content
           [("textOutput", JObj [("role", JStr "USER")])]
           [("role", JStr "USER")] [Received (Some text_hello)]).
  - reflexivity.
  - reflexivity.
  - vm_compute. reflexivity.
  - reflexivity.
  - reflexivity.
  - reflexivity.
Defined.

End Events2.

Section TopLevel.

Ltac lift1' :=
  erewrite bind_returns
    by (unfold lift; repeat match goal with H : _ = _ |- _ => rewrite H end;
        reflexivity);
  cbv beta iota.

(** X11: a payload that decodes to JSON but not to an object is not skipped
    as such: a number, a boolean or [null] ends the dispatcher with a
    [TypeError]; so does an array with the element ["event"] and a string
    that contains [event]; any other array or string is skipped and the
    loop goes on. *)
Theorem top_level_not_an_object (st : State) (h : nat) (bytes_ s : string)
    (v : json) (rest : list arrival) :
  stream (chat st) = Some h ->
  is_active (chat st) = true ->
  bytes_ <> EmptyString ->
  Utf8.decode bytes_ = Ok s ->
  Json.loads s = Ok v ->
  let ends :=
    _process_responses (Received (Some bytes_) :: rest) st =
    (Returns tt, printed [FmtExn "レスポンス処理エラー: " TypeError] st) in
  let goes_on :=
    _process_responses (Received (Some bytes_) :: rest) st =
    _process_responses rest st in
  match v with
  | JNull | JBool _ | JNum _ => ends
  | JArr items =>
      if existsb (fun x => Py.eq_str x "event") items then ends else goes_on
  | JStr t => if is_substring "event" t then ends else goes_on
  | JObj _ => True
  end.
Proof.
  intros Hs Ha Hne H1 H2 ends goes_on. subst ends goes_on.
  assert (R : forall e, e <> CancelledError ->
              handle_response bytes_ st = (Raises e, st) ->
              _process_responses (Received (Some bytes_) :: rest) st =
              (Returns tt, printed [FmtExn "レスポンス処理エラー: " e] st)).
  { intros e He H. apply (process_step_raises _ _ h); assumption. }
  assert (C : handle_response bytes_ st = (Returns tt, st) ->
              _process_responses (Received (Some bytes_) :: rest) st =
              _process_responses rest st).
  { intros H. apply (process_step_returns _ _ h); assumption. }
  destruct v as [|b|lit|t|items|ms]; try exact I.
  - apply R; [discriminate|]. unfold handle_response. do 2 lift1'.
    erewrite bind_raises; reflexivity.
  - apply R; [discriminate|]. unfold handle_response. do 2 lift1'.
    erewrite bind_raises; reflexivity.
  - apply R; [discriminate|]. unfold handle_response. do 2 lift1'.
    erewrite bind_raises; reflexivity.
  - destruct (is_substring "event" t) eqn:E.
    + apply R; [discriminate|]. unfold handle_response. do 2 lift1'.
      erewrite bind_returns by (unfold lift, Py.contains; rewrite E; reflexivity).
      cbv beta iota. erewrite bind_raises; reflexivity.
    + apply C. unfold handle_response. do 2 lift1'.
      erewrite bind_returns by (unfold lift, Py.contains; rewrite E; reflexivity).
      reflexivity.
  - destruct (existsb (fun x => Py.eq_str x "event") items) eqn:E.
    + apply R; [discriminate|]. unfold handle_response. do 2 lift1'.
      erewrite bind_returns by (unfold lift, Py.contains; rewrite E; reflexivity).
      cbv beta iota. erewrite bind_raises; reflexivity.
    + apply C. unfold handle_response. do 2 lift1'.
      erewrite bind_returns by (unfold lift, Py.contains; rewrite E; reflexivity).
      reflexivity.
Qed.

Lemma top_level_not_an_object_witness :
  _process_responses [Received (Some "5"); Received (Some text_hello)]
    (started fresh) =
  (Returns tt,
   printed [FmtExn "レスポンス処理エラー: " TypeError] (started fresh)).
Proof.
  apply (top_level_not_an_object (started fresh) 0 "5" "5" (JNum "5")
           [Received (Some text_hello)]).
  - reflexivity.
  - reflexivity.
  - discriminate.
  - reflexivity.
  - vm_compute. reflexivity.
Defined.

End TopLevel.

(* ------------------------------------------------------------------------- *)
(** * The audio relay: from [audioOutput] to the loudspeaker *)
(* ------------------------------------------------------------------------- *)

Section Relay.

Lemma playback_loop_active (q : list (list Byte.byte)) :
  forall st,
    is_active (chat st) = true ->
    playback_loop q st =
    (Suspends,
     {| chat := match q with
                | [] => chat st
                | _ :: _ => with_audio_queue [] (chat st)
                end;
        world := {| opened := opened (world st); wire := wire (world st);
                    closed := closed (world st); stdout := stdout (world st);
                    speaker := speaker (world st) ++ q |} |}).
Proof.
  induction q as [|a rest IH]; intros [o w] Ha; cbn [playback_loop].
  - erewrite bind_returns by reflexivity. cbn in Ha |- *. rewrite Ha.
    unfold suspend. rewrite app_nil_r. destruct w; reflexivity.
  - erewrite bind_returns by reflexivity. cbn in Ha. cbn [chat]. rewrite Ha.
    erewrite bind_returns by reflexivity.
    erewrite bind_returns by reflexivity.
    rewrite IH by exact Ha. cbn.
    rewrite <- app_assoc. destruct rest; reflexivity.
Qed.

Lemma play_audio_run (st : State) :
  play_audio st =
  if is_active (chat st) then (Suspends, played st) else (Returns tt, st).
Proof.
  unfold play_audio. erewrite bind_returns by reflexivity.
  unfold try_finally, try_except.
  destruct (is_active (chat st)) eqn:Ha.
  - rewrite (playback_loop_active _ _ Ha). unfold played.
    destruct st as [o w]. cbn.
    destruct (audio_queue o) eqn:E; [|reflexivity].
    destruct o; cbn in *; subst; reflexivity.
  - destruct (audio_queue (chat st)); cbn [playback_loop];
      (erewrite bind_returns by reflexivity); rewrite Ha; reflexivity.
Qed.

(** X12: while the session is active [play_audio] writes the whole audio
    queue to the loudspeaker, oldest chunk first, leaves the queue empty and
    waits; once the session is inactive it returns without playing what is
    still queued. *)
Theorem play_audio_drains_queue (st : State) :
  play_audio st =
    (if is_active (chat st) then (Suspends, played st) else (Returns tt, st))
  /\ speaker (world (played st))
     = (speaker (world st) ++ audio_queue (chat st))%list
  /\ audio_queue (chat (played st)) = [].
Proof. split; [apply play_audio_run|]. split; reflexivity. Qed.

Lemma process_responses_nil (st : State) (h : nat) :
  stream (chat st) = Some h ->
  is_active (chat st) = true ->
  _process_responses [] st = (Suspends, st).
Proof.
  intros Hs Ha. unfold _process_responses, try_except.
  rewrite (responses_loop_nil _ _ Hs Ha). reflexivity.
Qed.

Lemma process_audio_chunks (payloads : list string) :
  forall (chunks : list (list Byte.byte)) (st : State) (h : nat),
    stream (chat st) = Some h ->
    is_active (chat st) = true ->
    map audio_chunk_of payloads = map Some chunks ->
    _process_responses (map (fun p => Received (Some p)) payloads) st =
    (Suspends,
     {| chat := with_audio_queue (audio_queue (chat st) ++ chunks) (chat st);
        world := world st |}).
Proof.
  induction payloads as [|p payloads IH]; intros [|c chunks] [o w] h Hs Ha H;
    try discriminate H.
  - cbn [map]. rewrite (process_responses_nil _ _ Hs Ha).
    cbn. rewrite app_nil_r. destruct o; reflexivity.
  - cbn [map] in H |- *. inversion H as [[H1 H2]].
    rewrite (process_audio_step _ _ _ _ _ Hs Ha H1).
    rewrite (IH chunks (queued c {| chat := o; world := w |}) h Hs Ha H2).
    cbn.
    rewrite <- app_assoc. reflexivity.
Qed.

(** X13: the audio relay keeps the order of arrival: after a run of
    [audioOutput] events with decodable contents the queue holds their
    chunks behind what it held, and [play_audio] then writes all of it to
    the loudspeaker in that order and leaves the queue empty. *)
Theorem audio_relay_is_fifo (payloads : list string)
    (chunks : list (list Byte.byte)) (st : State) (h : nat) :
  stream (chat st) = Some h ->
  is_active (chat st) = true ->
  map audio_chunk_of payloads = map Some chunks ->
  exists st1 st2,
    _process_responses (map (fun p => Received (Some p)) payloads) st
      = (Suspends, st1) /\
    audio_queue (chat st1) = (audio_queue (chat st) ++ chunks)%list /\
    stdout (world st1) = stdout (world st) /\
    play_audio st1 = (Suspends, st2) /\
    speaker (world st2)
      = (speaker (world st) ++ audio_queue (chat st) ++ chunks)%list /\
    audio_queue (chat st2) = [].
Proof.
  intros Hs Ha H. eexists. eexists.
  split; [apply (process_audio_chunks _ _ _ h Hs Ha H)|].
  split; [reflexivity|]. split; [reflexivity|].
  split; [rewrite play_audio_run; cbn [chat is_active with_audio_queue];
          rewrite Ha; reflexivity|].
  split; reflexivity.
Qed.

Lemma audio_relay_is_fifo_witness :
  exists st1 st2,
    _process_responses
      (map (fun p => Received (Some p)) [audio_aaec; audio_hello])
      (started fresh) = (Suspends, st1) /\
    audio_queue (chat st1) =
      (audio_queue (chat (started fresh))
       ++ [three_bytes;
           [Byte.x68; Byte.x65; Byte.x6c; Byte.x6c; Byte.x6f]])%list /\
    stdout (world st1) = stdout (world (started fresh)) /\
    play_audio st1 = (Suspends, st2) /\
    speaker (world st2) =
      (speaker (world (started fresh))
       ++ audio_queue (chat (started fresh))
       ++ [three_bytes;
           [Byte.x68; Byte.x65; Byte.x6c; Byte.x6c; Byte.x6f]])%list /\
    audio_queue (chat st2) = [].
Proof.
  apply (audio_relay_is_fifo [audio_aaec; audio_hello]
           [three_bytes; [Byte.x68; Byte.x65; Byte.x6c; Byte.x6c; Byte.x6f]]
           (started fresh) 0).
  - reflexivity.
  - reflexivity.
  - vm_compute. reflexivity.
Defined.

End Relay.

(* ------------------------------------------------------------------------- *)
(** * The capture loop *)
(* ------------------------------------------------------------------------- *)

Section Capture.

Local Opaque audio_content_start audio_event audio_content_end.

Lemma sent_nil (st : State) : sent [] st = st.
Proof.
  destruct st as [o [n w c out sp]]. unfold sent. cbn.
  rewrite app_nil_r. reflexivity.
Qed.

Lemma sent_sent (l1 l2 : list (nat * string)) (st : State) :
  sent l2 (sent l1 st) = sent (l1 ++ l2) st.
Proof. unfold sent. cbn. rewrite app_assoc. reflexivity. Qed.

Lemma capture_loop_run (mic : list mic_read) :
  forall (st : State) (h : nat),
    stream_open st h ->
    is_active (chat st) = true ->
    capture_loop mic st =
    (if mic_fails mic then Raises OSError else Suspends,
     sent (map (pair h)
             (audio_events (prompt_name (chat st))
                (audio_content_name (chat st)) (delivered mic))) st).
Proof.
  induction mic as [|[bs|] rest IH]; intros st h Ho Ha; cbn [capture_loop].
  - erewrite bind_returns by reflexivity. rewrite Ha.
    cbn. rewrite sent_nil. reflexivity.
  - erewrite bind_returns by reflexivity. rewrite Ha.
    erewrite bind_returns by (apply (send_audio_chunk_run _ h); assumption).
    erewrite IH by (first [exact Ho | exact Ha]).
    rewrite sent_sent. reflexivity.
  - erewrite bind_returns by reflexivity. rewrite Ha.
    cbn. rewrite sent_nil. reflexivity.
Qed.

Lemma capture_loop_inactive (mic : list mic_read) (st : State) :
  is_active (chat st) = false -> capture_loop mic st = (Returns tt, st).
Proof.
  intros Ha. destruct mic; cbn [capture_loop];
    (erewrite bind_returns by reflexivity); rewrite Ha; reflexivity.
Qed.

Lemma capture_audio_run (mic : list mic_read) (st : State) (h : nat) :
  stream_open st h ->
  is_active (chat st) = true ->
  let pn := prompt_name (chat st) in
  let acn := audio_content_name (chat st) in
  capture_audio mic st =
  (if mic_fails mic then Returns tt else Suspends,
   sent (map (pair h)
           ([audio_content_start pn acn]
            ++ audio_events pn acn (delivered mic)
            ++ (if mic_fails mic then [audio_content_end pn acn] else [])))
     (printed
        ([Text "マイクに向かって話してください...";
          Text "終了するにはEnterキーを押してください..."]
         ++ (if mic_fails mic
             then [FmtExn "音声キャプチャエラー: " OSError;
                   Text "音声キャプチャを停止しました"]
             else []))
        st)).
Proof.
  intros Ho Ha pn acn. unfold capture_audio.
  erewrite bind_returns by reflexivity.
  erewrite bind_returns by reflexivity.
  erewrite bind_returns by (apply (start_audio_input_run _ h); exact Ho).
  unfold try_finally, try_except.
  erewrite capture_loop_run by (first [exact Ho | exact Ha]).
  destruct (mic_fails mic).
  - cbn [capture_handler print]. unfold capture_cleanup.
    erewrite bind_returns by reflexivity.
    erewrite end_audio_input_run by exact Ho.
    destruct st as [o [n w c out sp]]. unfold sent, printed. cbn.
    subst pn acn. cbn.
    rewrite !map_app. cbn [map].
    rewrite <- !app_assoc. cbn [app]. reflexivity.
  - destruct st as [o [n w c out sp]]. unfold sent, printed. cbn.
    subst pn acn. cbn.
    rewrite !app_nil_r. rewrite <- !app_assoc. reflexivity.
Qed.

Lemma capture_audio_inactive (mic : list mic_read) (st : State) (h : nat) :
  stream_open st h ->
  is_active (chat st) = false ->
  capture_audio mic st =
  (Returns tt,
   sent [(h, audio_content_start (prompt_name (chat st))
               (audio_content_name (chat st)));
         (h, audio_content_end (prompt_name (chat st))
               (audio_content_name (chat st)))]
     (printed [Text "マイクに向かって話してください...";
               Text "終了するにはEnterキーを押してください...";
               Text "音声キャプチャを停止しました"] st)).
Proof.
  intros Ho Ha. unfold capture_audio.
  erewrite bind_returns by reflexivity.
  erewrite bind_returns by reflexivity.
  erewrite bind_returns by (apply (start_audio_input_run _ h); exact Ho).
  unfold try_finally, try_except.
  rewrite capture_loop_inactive by exact Ha.
  unfold capture_cleanup.
  erewrite bind_returns by reflexivity.
  erewrite end_audio_input_run by exact Ho.
  destruct st as [o [n w c out sp]]. unfold sent, printed. cbn.
  rewrite <- !app_assoc. reflexivity.
Qed.

(** X14: on an active session [capture_audio] prints its two prompts, sends
    the AUDIO [contentStart] and then one [audioInput] for each chunk the
    microphone delivers, in order.  When a read fails the error and the
    line of the [finally] clause are printed, nothing more is read, the
    [contentEnd] is sent and the coroutine returns: no exception leaves it.
    Otherwise it waits in its loop, the content still open and nothing more
    printed.  The object, the streams and the loudspeaker are left as they
    are. *)
Theorem capture_audio_streams_chunks (mic : list mic_read) (st : State)
    (h : nat) :
  stream_open st h ->
  is_active (chat st) = true ->
  let pn := prompt_name (chat st) in
  let acn := audio_content_name (chat st) in
  exists st',
    capture_audio mic st =
      (if mic_fails mic then Returns tt else Suspends, st') /\
    wire (world st') =
      (wire (world st)
       ++ map (pair h)
            ([audio_content_start pn acn]
             ++ audio_events pn acn (delivered mic)
             ++ (if mic_fails mic then [audio_content_end pn acn] else [])))%list /\
    stdout (world st') =
      (stdout (world st)
       ++ [Text "マイクに向かって話してください...";
           Text "終了するにはEnterキーを押してください..."]
       ++ (if mic_fails mic
           then [FmtExn "音声キャプチャエラー: " OSError;
                 Text "音声キャプチャを停止しました"]
           else []))%list /\
    chat st' = chat st /\
    closed (world st') = closed (world st) /\
    opened (world st') = opened (world st) /\
    speaker (world st') = speaker (world st).
Proof.
  intros Ho Ha pn acn. eexists.
  split; [apply (capture_audio_run mic st h Ho Ha)|].
  repeat split.
Qed.

Lemma capture_audio_streams_chunks_witness :
  let st := started fresh in
  let pn := prompt_name (chat st) in
  let acn := audio_content_name (chat st) in
  let mic := [Chunk three_bytes; Chunk []; ReadFails; Chunk three_bytes] in
  exists st',
    capture_audio mic st =
      (if mic_fails mic then Returns tt else Suspends, st') /\
    wire (world st') =
      (wire (world st)
       ++ map (pair 0)
            ([audio_content_start pn acn]
             ++ audio_events pn acn (delivered mic)
             ++ (if mic_fails mic then [audio_content_end pn acn] else [])))%list /\
    stdout (world st') =
      (stdout (world st)
       ++ [Text "マイクに向かって話してください...";
           Text "終了するにはEnterキーを押してください..."]
       ++ (if mic_fails mic
           then [FmtExn "音声キャプチャエラー: " OSError;
                 Text "音声キャプチャを停止しました"]
           else []))%list /\
    chat st' = chat st /\
    closed (world st') = closed (world st) /\
    opened (world st') = opened (world st) /\
    speaker (world st') = speaker (world st).
Proof.
  intros st pn acn mic.
  apply (capture_audio_streams_chunks mic st 0).
  - split; reflexivity.
  - reflexivity.
Defined.

(** X15: started on a session that is already inactive, [capture_audio]
    reads nothing from the microphone: it sends the AUDIO [contentStart],
    at once the [contentEnd] of the same content, no [audioInput], and
    returns. *)
Theorem capture_audio_on_inactive_session (mic : list mic_read) (st : State)
    (h : nat) :
  stream_open st h ->
  is_active (chat st) = false ->
  exists st',
    capture_audio mic st = (Returns tt, st') /\
    wire (world st') =
      (wire (world st)
       ++ [(h, audio_content_start (prompt_name (chat st))
                 (audio_content_name (chat st)));
           (h, audio_content_end (prompt_name (chat st))
                 (audio_content_name (chat st)))])%list /\
    chat st' = chat st.
Proof.
  intros Ho Ha. eexists.
  split; [apply (capture_audio_inactive mic st h Ho Ha)|].
  split; reflexivity.
Qed.

Lemma capture_audio_on_inactive_session_witness :
  let st := {| chat := with_is_active false (chat (started fresh));
               world := world (started fresh) |} in
  exists st',
    capture_audio [Chunk three_bytes] st = (Returns tt, st') /\
    wire (world st') =
      (wire (world st)
       ++ [(0, audio_content_start (prompt_name (chat st))
                 (audio_content_name (chat st)));
           (0, audio_content_end (prompt_name (chat st))
                 (audio_content_name (chat st)))])%list /\
    chat st' = chat st.
Proof.
  intros st.
  apply (capture_audio_on_inactive_session [Chunk three_bytes] st 0).
  - split; reflexivity.
  - reflexivity.
Defined.

End Capture.

(* ------------------------------------------------------------------------- *)
(** * Every run of [main] *)
(* ------------------------------------------------------------------------- *)

Section Main.

Local Opaque session_start prompt_start text_content_start text_input
  text_content_end audio_content_start audio_event audio_content_end
  prompt_end session_end system_prompt.

(** The [finally] clause of [main] from any state with an open stream. *)
Lemma main_finally_run (st : State) (h : nat)
    (playback_done capture_done response_done : bool) :
  stream_open st h ->
  exists st',
    main_finally playback_done capture_done response_done st
      = (Returns tt, st') /\
    wire (world st') =
      (wire (world st)
       ++ (if capture_done then []
           else [(h, audio_content_end (prompt_name (chat st))
                       (audio_content_name (chat st)))]))%list /\
    closed (world st') = closed (world st) /\
    opened (world st') = opened (world st) /\
    is_active (chat st') = false.
Proof.
  intros [H1 H2]. unfold main_finally.
  erewrite bind_returns by reflexivity.
  erewrite bind_returns by reflexivity.
  destruct playback_done, capture_done, response_done;
    (erewrite bind_returns with (a := true)
       by (unfold run_task, play_audio_cancelled, try_finally, try_except,
             raise, playback_handler, ret;
           cbn [print]; reflexivity));
    (erewrite bind_returns with (a := true)
       by (first
             [ reflexivity
             | unfold run_task;
               erewrite capture_audio_cancelled_run
                 by (split; [exact H1|exact H2]);
               reflexivity ]));
    (erewrite bind_returns by (apply end_session_inactive; reflexivity));
    (erewrite bind_returns by reflexivity);
    (erewrite bind_returns with (a := true)
       by (unfold run_task, _process_responses_cancelled, try_except, raise,
             responses_handler, ret;
           cbn [print]; reflexivity));
    (eexists; split; [reflexivity|]; cbn;
     rewrite ?app_nil_r; repeat split; reflexivity).
Qed.

Lemma run_task_capture (mic : list mic_read) (st : State) (h : nat) :
  stream_open st h ->
  is_active (chat st) = true ->
  exists st1,
    run_task (capture_audio mic) st = (Returns (mic_fails mic), st1) /\
    wire (world st1) =
      (wire (world st)
       ++ map (pair h)
            ([audio_content_start (prompt_name (chat st))
                (audio_content_name (chat st))]
             ++ audio_events (prompt_name (chat st))
                  (audio_content_name (chat st)) (delivered mic)
             ++ (if mic_fails mic
                 then [audio_content_end (prompt_name (chat st))
                         (audio_content_name (chat st))]
                 else [])))%list /\
    outside_dispatcher st1 =
      (identity (chat st), client (chat st), stream (chat st),
       response (chat st), is_active (chat st), opened (world st),
       wire (world st1), closed (world st), speaker (world st)).
Proof.
  intros Ho Ha. unfold run_task.
  rewrite (capture_audio_run mic st h Ho Ha).
  destruct (mic_fails mic); eexists; (split; [reflexivity|]);
    destruct st as [o [n w c out sp]]; split; reflexivity.
Qed.

Lemma run_task_run (t : M unit) (st : State) :
  run_task t st =
  (Returns (match fst (t st) with Suspends => false | _ => true end),
   snd (t st)).
Proof. unfold run_task. destruct (t st) as [[| |] ?]; reflexivity. Qed.

(** The run of [main] for every choice of voice, every behaviour of the
    microphone and everything the service sends. *)
Lemma main_run (voice_choice uuid1 uuid2 uuid3 : string)
    (mic : list mic_read) (inbound : list arrival) :
  exists st',
    main voice_choice uuid1 uuid2 uuid3 mic inbound initial_state
      = (Returns tt, st') /\
    wire (world st') =
      map (pair 0)
        (session_events (init (voices_get voice_choice) uuid1 uuid2 uuid3)
           (delivered mic)) /\
    opened (world st') = 1 /\
    closed (world st') = [] /\
    is_active (chat st') = false.
Proof.
  unfold main.
  do 5 (erewrite bind_returns by reflexivity).
  erewrite bind_returns by reflexivity.
  erewrite bind_returns by reflexivity.
  erewrite bind_returns by (apply start_session_run; reflexivity).
  match goal with
  | |- context [started ?s] => set (st0 := started s)
  end.
  assert (Ho : stream_open st0 0) by (split; reflexivity).
  assert (Ha : is_active (chat st0) = true) by reflexivity.
  destruct (run_task_capture mic st0 0 Ho Ha) as (st1 & E1 & W1 & F1).
  erewrite bind_returns by exact E1.
  erewrite bind_returns by apply run_task_run.
  set (out2 := fst (_process_responses inbound st1)).
  set (st2 := snd (_process_responses inbound st1)).
  pose proof (process_responses_frame inbound st1) as F2.
  fold st2 in F2. rewrite F1 in F2.
  unfold outside_dispatcher in F2.
  assert (I2 : identity (chat st2) = identity (chat st0)) by congruence.
  assert (S2 : stream (chat st2) = stream (chat st0)) by congruence.
  assert (A2 : is_active (chat st2) = is_active (chat st0)) by congruence.
  assert (O2 : opened (world st2) = opened (world st0)) by congruence.
  assert (Wi2 : wire (world st2) = wire (world st1)) by congruence.
  assert (Cl2 : closed (world st2) = closed (world st0)) by congruence.
  unfold identity in I2.
  assert (Ip : prompt_name (chat st2) = prompt_name (chat st0)) by congruence.
  assert (Ia : audio_content_name (chat st2) = audio_content_name (chat st0))
    by congruence.
  assert (Ho2 : stream_open (played st2) 0).
  { split; cbn; [rewrite S2 | rewrite Cl2]; reflexivity. }
  destruct (main_finally_run (played st2) 0 false (mic_fails mic)
              (match out2 with Suspends => false | _ => true end) Ho2)
    as (st3 & E3 & W3 & Cl3 & O3 & A3).
  erewrite bind_returns
    by (unfold run_task; rewrite play_audio_run, A2; reflexivity).
  rewrite E3. exists st3. split; [reflexivity|].
  split.
  - rewrite W3. cbn [played world wire chat prompt_name audio_content_name
                     with_audio_queue].
    rewrite Wi2, W1.
    rewrite Ip, Ia.
    unfold session_events, st0. cbn.
    destruct (mic_fails mic); cbn [app map];
      rewrite ?map_app, ?app_nil_r; cbn [map app];
      rewrite <- ?app_assoc; reflexivity.
  - split; [rewrite O3; cbn; rewrite O2; reflexivity|].
    split; [rewrite Cl3; cbn; rewrite Cl2; reflexivity|exact A3].
Qed.

(** X16: every run of [main], whatever is typed at the menu, whatever the
    microphone delivers and whatever the service sends.  [main] returns; one
    stream has been opened and it is never closed; the wire holds the five
    events of [start_session], the [contentStart] of the AUDIO content, one
    [audioInput] for each chunk read before a read fails, and the
    [contentEnd] of the AUDIO content once, as the last event. *)
Theorem main_sends_one_session (voice_choice uuid1 uuid2 uuid3 : string)
    (mic : list mic_read) (inbound : list arrival) :
  exists st',
    main voice_choice uuid1 uuid2 uuid3 mic inbound initial_state
      = (Returns tt, st') /\
    wire (world st') =
      map (pair 0)
        (session_events (init (voices_get voice_choice) uuid1 uuid2 uuid3)
           (delivered mic)) /\
    opened (world st') = 1 /\
    closed (world st') = [] /\
    is_active (chat st') = false.
Proof. apply main_run. Qed.

Lemma event_name_envelope (payload name : string)
    (fields : list (string * json)) :
  Json.loads payload = Ok (envelope name fields) ->
  event_name payload = Some name.
Proof. intros H. unfold event_name. rewrite H. reflexivity. Qed.

Lemma event_names_audio_events (pn acn : string)
    (chunks : list (list Byte.byte)) :
  plain pn = true -> plain acn = true ->
  map event_name (audio_events pn acn chunks) =
  repeat (Some "audioInput") (List.length chunks).
Proof.
  intros Hp Ha. induction chunks as [|bs chunks IH]; [reflexivity|].
  cbn [audio_events map List.length repeat]. f_equal; [|exact IH].
  eapply event_name_envelope.
  apply (loads_audio_event pn acn Hp Ha). apply b64encode_plain.
Qed.

Lemma event_names_session_events (o : NovaVoiceChat)
    (chunks : list (list Byte.byte)) :
  plain (prompt_name o) = true ->
  plain (content_name o) = true ->
  plain (audio_content_name o) = true ->
  plain (voice_id o) = true ->
  map event_name (session_events o chunks) =
  ([ Some "sessionStart"; Some "promptStart"; Some "contentStart";
     Some "textInput"; Some "contentEnd"; Some "contentStart" ]
   ++ repeat (Some "audioInput") (List.length chunks)
   ++ [ Some "contentEnd" ])%list.
Proof.
  intros Hp Hc Ha Hv. unfold session_events, start_events.
  cbn [app map]. rewrite map_app. cbn [map].
  rewrite (event_names_audio_events _ _ chunks Hp Ha).
  rewrite (event_name_envelope _ _ _ loads_session_start).
  rewrite (event_name_envelope _ _ _ (loads_prompt_start _ _ Hp Hv)).
  rewrite (event_name_envelope _ _ _ (loads_text_content_start _ _ Hp Hc)).
  rewrite (event_name_envelope _ _ _
             (loads_text_input _ _ Hp Hc _ system_prompt_plain)).
  rewrite (event_name_envelope _ _ _ (loads_text_content_end _ _ Hp Hc)).
  rewrite (event_name_envelope _ _ _ (loads_audio_content_start _ _ Hp Ha)).
  rewrite (event_name_envelope _ _ _ (loads_audio_content_end _ _ Hp Ha)).
  reflexivity.
Qed.

(** X17: with identifiers of the form [uuid.uuid4()] gives, every event a
    run of [main] sends is a JSON object [{ "event": { name: {...} } }], and
    the names are those of one prompt with one system text and one AUDIO
    content: whatever is typed at the menu cannot break an event, and no
    [promptEnd] and no [sessionEnd] is among them. *)
Theorem main_wire_is_well_formed (voice_choice u1 u2 u3 : string)
    (mic : list mic_read) (inbound : list arrival) :
  is_uuid4 u1 = true -> is_uuid4 u2 = true -> is_uuid4 u3 = true ->
  wire_names
    (snd (main voice_choice u1 u2 u3 mic inbound initial_state)) =
  ([ Some "sessionStart"; Some "promptStart"; Some "contentStart";
     Some "textInput"; Some "contentEnd"; Some "contentStart" ]
   ++ repeat (Some "audioInput") (List.length (delivered mic))
   ++ [ Some "contentEnd" ])%list.
Proof.
  intros H1 H2 H3.
  destruct (main_run voice_choice u1 u2 u3 mic inbound)
    as (st' & E & W & _).
  rewrite E. cbn [snd]. unfold wire_names. rewrite W, map_map.
  cbn [snd].
  change (map (fun x : string => event_name x)) with (map event_name).
  apply event_names_session_events;
    [ exact (is_uuid4_plain _ H1) | exact (is_uuid4_plain _ H2)
    | exact (is_uuid4_plain _ H3) | apply voices_get_plain ].
Qed.

Lemma main_wire_is_well_formed_witness :
  wire_names
    (snd (main "9" uuid1 uuid2 uuid3
            [Chunk three_bytes; Chunk []; ReadFails; Chunk three_bytes]
            [AwaitRaises TransportError] initial_state)) =
  [ Some "sessionStart"; Some "promptStart"; Some "contentStart";
    Some "textInput"; Some "contentEnd"; Some "contentStart";
    Some "audioInput"; Some "audioInput"; Some "contentEnd" ].
Proof.
  apply (main_wire_is_well_formed "9" uuid1 uuid2 uuid3
           [Chunk three_bytes; Chunk []; ReadFails; Chunk three_bytes]
           [AwaitRaises TransportError]); reflexivity.
Defined.

(** X18: whatever is typed at the menu, the voice is one of the three of the
    menu, [tiffany] unless the answer is exactly [2] or [3], and the
    [promptStart] event built for it decodes to an object that carries this
    voice as its [voiceId]. *)
Theorem voice_choice_is_one_of_three (voice_choice pn : string) :
  plain pn = true ->
  In (voices_get voice_choice) voices /\
  (voice_choice <> "2" -> voice_choice <> "3" ->
   voices_get voice_choice = "tiffany") /\
  Json.loads (prompt_start pn (voices_get voice_choice)) =
  Ok (envelope "promptStart"
        [("promptName", JStr pn);
         ("textOutputConfiguration", JObj [("mediaType", JStr "text/plain")]);
         ("audioOutputConfiguration",
          JObj [("mediaType", JStr "audio/lpcm");
                ("sampleRateHertz", JNum "24000");
                ("sampleSizeBits", JNum "16");
                ("channelCount", JNum "1");
                ("voiceId", JStr (voices_get voice_choice));
                ("encoding", JStr "base64");
                ("audioType", JStr "SPEECH")])]).
Proof.
  intros Hp. split; [|split].
  - unfold voices_get, voices.
    repeat match goal with |- context [if ?b then _ else _] => destruct b end;
      cbn; auto.
  - intros N2 N3. unfold voices_get.
    destruct (String.eqb_spec voice_choice "1"); [reflexivity|].
    destruct (String.eqb_spec voice_choice "2"); [contradiction|].
    destruct (String.eqb_spec voice_choice "3"); [contradiction|].
    reflexivity.
  - apply loads_prompt_start; [exact Hp | apply voices_get_plain].
Qed.

Lemma voice_choice_is_one_of_three_witness :
  In (voices_get "tiffany") voices /\
  ("tiffany" <> "2" -> "tiffany" <> "3" ->
   voices_get "tiffany" = "tiffany") /\
  Json.loads (prompt_start uuid1 (voices_get "tiffany")) =
  Ok (envelope "promptStart"
        [("promptName", JStr uuid1);
         ("textOutputConfiguration", JObj [("mediaType", JStr "text/plain")]);
         ("audioOutputConfiguration",
          JObj [("mediaType", JStr "audio/lpcm");
                ("sampleRateHertz", JNum "24000");
                ("sampleSizeBits", JNum "16");
                ("channelCount", JNum "1");
                ("voiceId", JStr (voices_get "tiffany"));
                ("encoding", JStr "base64");
                ("audioType", JStr "SPEECH")])]).
Proof.
  apply (voice_choice_is_one_of_three "tiffany" uuid1). reflexivity.
Defined.

End Main.

(* ------------------------------------------------------------------------- *)
(** * Before and after a session *)
(* ------------------------------------------------------------------------- *)

Section BeforeStart.

Local Opaque session_start prompt_start text_content_start text_input
  text_content_end audio_content_start audio_event audio_content_end
  prompt_end session_end.

Lemma send_event_no_stream (e : string) (st : State) :
  stream (chat st) = None ->
  send_event e st = (Raises AttributeError, st).
Proof.
  intros Hs. unfold send_event, the_stream, bind, get_self, raise.
  rewrite Hs. reflexivity.
Qed.

(** X19: the methods on an object on which [start_session] has not run
    ([self.stream] is [None], the session is not active).  The two methods
    that send without a guard fail with [AttributeError]; the guarded ones,
    the dispatcher and the playback loop return at once; nothing is sent,
    printed or changed. *)
Theorem methods_before_start_session (st : State)
    (audio_bytes : list Byte.byte) (inbound : list arrival) :
  stream (chat st) = None ->
  is_active (chat st) = false ->
  start_audio_input st = (Raises AttributeError, st) /\
  end_audio_input st = (Raises AttributeError, st) /\
  send_audio_chunk audio_bytes st = (Returns tt, st) /\
  end_session st = (Returns tt, st) /\
  _process_responses inbound st = (Returns tt, st) /\
  play_audio st = (Returns tt, st).
Proof.
  intros Hs Ha.
  split.
  { unfold start_audio_input. erewrite bind_returns by reflexivity.
    apply send_event_no_stream. exact Hs. }
  split.
  { unfold end_audio_input. erewrite bind_returns by reflexivity.
    apply send_event_no_stream. exact Hs. }
  split; [apply send_audio_chunk_inactive; exact Ha|].
  split; [apply end_session_inactive; exact Ha|].
  split.
  { unfold _process_responses, try_except.
    rewrite (responses_loop_inactive _ _ Ha). reflexivity. }
  rewrite play_audio_run, Ha. reflexivity.
Qed.

Lemma methods_before_start_session_witness :
  start_audio_input fresh = (Raises AttributeError, fresh) /\
  end_audio_input fresh = (Raises AttributeError, fresh) /\
  send_audio_chunk three_bytes fresh = (Returns tt, fresh) /\
  end_session fresh = (Returns tt, fresh) /\
  _process_responses [Received (Some text_hello)] fresh
    = (Returns tt, fresh) /\
  play_audio fresh = (Returns tt, fresh).
Proof.
  apply (methods_before_start_session fresh three_bytes
           [Received (Some text_hello)]); reflexivity.
Defined.

(** X20: [capture_audio] on an object on which [start_session] has not run.
    [start_audio_input] is called before the [try] block, so its
    [AttributeError] leaves the coroutine: after the two prompts nothing is
    printed (neither the error line nor the line of the [finally] clause),
    no chunk is read and nothing is sent. *)
Theorem capture_audio_before_start_session (st : State)
    (mic : list mic_read) :
  stream (chat st) = None ->
  capture_audio mic st =
  (Raises AttributeError,
   printed [Text "マイクに向かって話してください...";
            Text "終了するにはEnterキーを押してください..."] st).
Proof.
  intros Hs. unfold capture_audio.
  erewrite bind_returns by reflexivity.
  erewrite bind_returns by reflexivity.
  erewrite bind_raises; [reflexivity|].
  unfold start_audio_input. erewrite bind_returns by reflexivity.
  rewrite send_event_no_stream by exact Hs.
  destruct st as [o [n w c out sp]]. unfold printed. cbn.
  rewrite <- app_assoc. reflexivity.
Qed.

Lemma capture_audio_before_start_session_witness :
  capture_audio [Chunk three_bytes] fresh =
  (Raises AttributeError,
   printed [Text "マイクに向かって話してください...";
            Text "終了するにはEnterキーを押してください..."] fresh).
Proof.
  apply (capture_audio_before_start_session fresh [Chunk three_bytes]).
  reflexivity.
Defined.

(** X21: a session from its first event to its last.  [start_session]
    followed by [end_session] returns; on the stream it has opened it sends
    the five opening events, then [promptEnd] and [sessionEnd]; it closes
    that stream and no other, and leaves the session inactive, so that a
    chunk sent afterwards goes nowhere. *)
Theorem session_lifecycle (st : State) (audio_bytes : list Byte.byte) :
  world_ok (world st) = true ->
  exists st',
    (start_session ;; end_session ;; send_audio_chunk audio_bytes) st
      = (Returns tt, st') /\
    wire (world st') =
      (wire (world st)
       ++ map (pair (opened (world st)))
            (start_events (chat st)
             ++ [prompt_end (prompt_name (chat st)); session_end]))%list /\
    closed (world st') = opened (world st) :: closed (world st) /\
    opened (world st') = S (opened (world st)) /\
    world_ok (world st') = true /\
    is_active (chat st') = false.
Proof.
  intros Hok.
  destruct (started_open st Hok) as [Ho Ha].
  erewrite bind_returns by (apply start_session_run; exact Hok).
  erewrite bind_returns by (apply (end_session_run _ _ Ho Ha)).
  rewrite send_audio_chunk_inactive by reflexivity.
  eexists. split; [reflexivity|].
  split.
  { unfold ended, started. cbn [world wire chat].
    destruct (client_built_names (chat st)) as (Ep & _).
    cbn [prompt_name with_response with_is_active with_stream].
    rewrite Ep, map_app, <- app_assoc. reflexivity. }
  split; [reflexivity|].
  split; [reflexivity|].
  split; [|reflexivity].
  unfold world_ok, ended, started. cbn [world closed opened forallb].
  rewrite (proj2 (Nat.ltb_lt _ _) (Nat.lt_succ_diag_r _)). cbn [andb].
  unfold world_ok in Hok.
  apply (forallb_weaken _ (fun h => Nat.ltb h (opened (world st))));
    [|exact Hok].
  intros x Hx. apply Nat.ltb_lt in Hx. apply Nat.ltb_lt. lia.
Qed.

Lemma session_lifecycle_witness :
  exists st',
    (start_session ;; end_session ;; send_audio_chunk three_bytes) fresh
      = (Returns tt, st') /\
    wire (world st') =
      (wire (world fresh)
       ++ map (pair (opened (world fresh)))
            (start_events (chat fresh)
             ++ [prompt_end (prompt_name (chat fresh)); session_end]))%list /\
    closed (world st') = opened (world fresh) :: closed (world fresh) /\
    opened (world st') = S (opened (world fresh)) /\
    world_ok (world st') = true /\
    is_active (chat st') = false.
Proof. apply (session_lifecycle fresh three_bytes). reflexivity. Defined.

(** X22: [start_audio_input] does not look at [is_active]: on an open
    stream it sends one event and changes nothing else, and with plain
    identifiers the event decodes to the [contentStart] of an interactive
    AUDIO content of the USER, 16-bit mono LPCM at 16 kHz in base64, under
    the prompt and the audio content of the object. *)
Theorem start_audio_input_opens_user_audio (st : State) (h : nat) :
  stream_open st h ->
  plain (prompt_name (chat st)) = true ->
  plain (audio_content_name (chat st)) = true ->
  exists payload,
    start_audio_input st = (Returns tt, sent [(h, payload)] st) /\
    Json.loads payload =
    Ok (envelope "contentStart"
          [("promptName", JStr (prompt_name (chat st)));
           ("contentName", JStr (audio_content_name (chat st)));
           ("type", JStr "AUDIO");
           ("interactive", JBool true);
           ("role", JStr "USER");
           ("audioInputConfiguration",
            JObj [("mediaType", JStr "audio/lpcm");
                  ("sampleRateHertz", JNum "16000");
                  ("sampleSizeBits", JNum "16");
                  ("channelCount", JNum "1");
                  ("audioType", JStr "SPEECH");
                  ("encoding", JStr "base64")])]).
Proof.
  intros Ho Hp Ha. eexists. split.
  - apply start_audio_input_run. exact Ho.
  - apply loads_audio_content_start; assumption.
Qed.

Lemma start_audio_input_opens_user_audio_witness :
  exists payload,
    start_audio_input
      {| chat := with_is_active false (chat (started fresh));
         world := world (started fresh) |}
    = (Returns tt,
       sent [(0, payload)]
         {| chat := with_is_active false (chat (started fresh));
            world := world (started fresh) |}) /\
    Json.loads payload =
    Ok (envelope "contentStart"
          [("promptName", JStr uuid1);
           ("contentName", JStr uuid3);
           ("type", JStr "AUDIO");
           ("interactive", JBool true);
           ("role", JStr "USER");
           ("audioInputConfiguration",
            JObj [("mediaType", JStr "audio/lpcm");
                  ("sampleRateHertz", JNum "16000");
                  ("sampleSizeBits", JNum "16");
                  ("channelCount", JNum "1");
                  ("audioType", JStr "SPEECH");
                  ("encoding", JStr "base64")])]).
Proof.
  apply (start_audio_input_opens_user_audio
           {| chat := with_is_active false (chat (started fresh));
              world := world (started fresh) |} 0).
  - split; reflexivity.
  - reflexivity.
  - reflexivity.
Defined.

End BeforeStart.

(* ------------------------------------------------------------------------- *)
(** * The order of what arrives *)
(* ------------------------------------------------------------------------- *)

Section DispatcherOrder.

Lemma responses_loop_skip (a : arrival) (rest : list arrival) (st : State) :
  carries_bytes a = false ->
  responses_loop (a :: rest) st = responses_loop rest st.
Proof.
  intros Hc.
  destruct (is_active (chat st)) eqn:Ha;
    [| rewrite !responses_loop_inactive by exact Ha; reflexivity].
  destruct (stream (chat st)) as [h|] eqn:Hs;
    [| rewrite !responses_loop_no_stream by assumption; reflexivity].
  rewrite (responses_loop_cons _ _ a rest Hs Ha).
  destruct a as [[[|c r]|]|e]; try discriminate Hc; reflexivity.
Qed.

Lemma responses_loop_filter (inbound : list arrival) (st : State) :
  responses_loop (filter carries_bytes inbound) st = responses_loop inbound st.
Proof.
  revert st. induction inbound as [|a rest IH]; intros st; [reflexivity|].
  cbn [filter]. destruct (carries_bytes a) eqn:Hc.
  - destruct (is_active (chat st)) eqn:Ha;
      [| rewrite !responses_loop_inactive by exact Ha; reflexivity].
    destruct (stream (chat st)) as [h|] eqn:Hs;
      [| rewrite !responses_loop_no_stream by assumption; reflexivity].
    rewrite (responses_loop_cons _ _ a rest Hs Ha).
    rewrite (responses_loop_cons _ _ a (filter carries_bytes rest) Hs Ha).
    destruct a as [[[|c r]|]|e]; try discriminate Hc; [|reflexivity].
    unfold bind. destruct (handle_response (String c r) st) as [[[]|e|] st1];
      [apply IH | reflexivity | reflexivity].
  - rewrite (responses_loop_skip a rest st Hc). apply IH.
Qed.

(** X23: results without bytes are invisible to the dispatcher: a result
    whose value is empty or whose [bytes_] is empty is read and dropped, so
    [_process_responses] ends in the same way and in the same state on what
    arrives as on the results that carry bytes alone. *)
Theorem dispatcher_skips_empty_results (inbound : list arrival) (st : State) :
  _process_responses (filter carries_bytes inbound) st =
  _process_responses inbound st.
Proof.
  unfold _process_responses, try_except.
  rewrite responses_loop_filter. reflexivity.
Qed.


(** X24: once the dispatcher has left its loop, because the session is no
    longer active or because an exception has been logged, it is over:
    whatever arrives afterwards is not read and changes nothing. *)
Theorem dispatcher_finished_reads_nothing (pre rest : list arrival)
    (st : State) :
  fst (_process_responses pre st) <> Suspends ->
  _process_responses (pre ++ rest) st = _process_responses pre st.
Proof. apply process_responses_finished. Qed.

Lemma dispatcher_finished_reads_nothing_witness :
  _process_responses
    ([Received (Some user_start); AwaitRaises TransportError]
     ++ [Received (Some text_hello)]) (started fresh)
  = _process_responses
      [Received (Some user_start); AwaitRaises TransportError]
      (started fresh).
Proof.
  apply (dispatcher_finished_reads_nothing
           [Received (Some user_start); AwaitRaises TransportError]
           [Received (Some text_hello)] (started fresh)).
  vm_compute. discriminate.
Defined.

End DispatcherOrder.

(* ------------------------------------------------------------------------- *)
(** * Where the state of the session changes *)
(* ------------------------------------------------------------------------- *)

Section SessionState.

Let sv (st : State) := session_view st.

Lemma input_stream_send_session (h : nat) (e : string) :
  preserves sv (input_stream_send h e).
Proof.
  intros [o w]. unfold input_stream_send. cbn.
  destruct (existsb (Nat.eqb h) (closed w)); reflexivity.
Qed.

Lemma send_event_session (e : string) : preserves sv (send_event e).
Proof.
  unfold send_event. apply preserves_bind; [apply the_stream_preserves|].
  intros h. apply input_stream_send_session.
Qed.

Ltac session_frame :=
  repeat first
    [ apply send_event_session
    | apply the_stream_preserves
    | apply preserves_lift
    | apply preserves_ret
    | apply preserves_raise
    | apply preserves_suspend
    | apply preserves_get_self
    | apply preserves_print; intros ? [] ?; reflexivity
    | apply preserves_set_self; intros [] ?; reflexivity
    | apply preserves_bind; [|intros]
    | apply preserves_try_finally
    | apply preserves_try_except
    | match goal with
      | |- preserves _ (if ?b then _ else _) => destruct b
      | |- preserves _ (match ?x with _ => _ end) => destruct x
      end ].

Lemma send_audio_chunk_session (bs : list Byte.byte) :
  preserves sv (send_audio_chunk bs).
Proof. unfold send_audio_chunk. session_frame. Qed.

Lemma playback_loop_session (queued : list (list Byte.byte)) :
  preserves sv (playback_loop queued).
Proof.
  induction queued as [|a rest IH]; cbn [playback_loop].
  - session_frame.
  - apply preserves_bind; [apply preserves_get_self|]. intros o.
    destruct (is_active o); [|apply preserves_ret].
    apply preserves_bind;
      [apply preserves_set_self; intros [] ?; reflexivity|]. intros _.
    apply preserves_bind; [intros [o' w']; reflexivity|]. intros _.
    exact IH.
Qed.

Lemma capture_loop_session (mic : list mic_read) :
  preserves sv (capture_loop mic).
Proof.
  induction mic as [|a rest IH]; cbn [capture_loop].
  - session_frame.
  - apply preserves_bind; [apply preserves_get_self|]. intros o.
    destruct (is_active o); [|apply preserves_ret].
    destruct a as [bs|]; [|apply preserves_raise].
    apply preserves_bind; [apply send_audio_chunk_session|]. intros _.
    exact IH.
Qed.

Lemma process_responses_session (inbound : list arrival) :
  preserves sv (_process_responses inbound).
Proof.
  intros st. pose proof (process_responses_frame inbound st) as H.
  unfold outside_dispatcher in H. unfold sv, session_view. congruence.
Qed.

(** X25: the state of the session changes only where a session starts and
    where it ends.  The methods that move audio and text
    ([start_audio_input], [send_audio_chunk], [end_audio_input],
    [_process_responses], [play_audio], [capture_audio]) never write
    [is_active], never rebind the client, the stream or the dispatcher
    task, and never open or close a stream, however they end: their loops
    on [self.is_active] are only ever stopped from outside. *)
Theorem session_state_changes_only_at_its_ends :
  preserves session_view start_audio_input /\
  (forall audio_bytes, preserves session_view (send_audio_chunk audio_bytes)) /\
  preserves session_view end_audio_input /\
  (forall inbound, preserves session_view (_process_responses inbound)) /\
  preserves session_view play_audio /\
  (forall mic, preserves session_view (capture_audio mic)).
Proof.
  change session_view with sv.
  split; [unfold start_audio_input; session_frame|].
  split; [apply send_audio_chunk_session|].
  split; [unfold end_audio_input; session_frame|].
  split; [apply process_responses_session|].
  split.
  { unfold play_audio. apply preserves_bind; [apply preserves_get_self|].
    intros o. apply preserves_try_finally; [|apply preserves_ret].
    apply preserves_try_except; [apply playback_loop_session|].
    intros e h H. destruct e; inversion H; subst;
      apply preserves_print; intros ? [] ?; reflexivity. }
  intros mic. unfold capture_audio, capture_cleanup, start_audio_input,
    end_audio_input.
  apply preserves_bind;
    [apply preserves_print; intros ? [] ?; reflexivity|]. intros _.
  apply preserves_bind;
    [apply preserves_print; intros ? [] ?; reflexivity|]. intros _.
  apply preserves_bind; [session_frame|]. intros _.
  apply preserves_try_finally; [|session_frame].
  apply preserves_try_except; [apply capture_loop_session|].
  intros e h H. destruct e; inversion H; subst;
    apply preserves_print; intros ? [] ?; reflexivity.
Qed.

Local Opaque session_start prompt_start text_content_start text_input
  text_content_end audio_content_start audio_event audio_content_end
  prompt_end session_end.

Lemma end_session_cases (st : State) :
  snd (end_session st) = st \/
  exists h, stream (chat st) = Some h /\ snd (end_session st) = ended h st.
Proof.
  destruct (is_active (chat st)) eqn:Ha;
    [| left; rewrite end_session_inactive by exact Ha; reflexivity].
  destruct (stream (chat st)) as [h|] eqn:Hs.
  - destruct (existsb (Nat.eqb h) (closed (world st))) eqn:Hc.
    + left. unfold end_session.
      erewrite bind_returns by reflexivity. rewrite Ha. cbn [negb].
      erewrite bind_raises; [reflexivity|].
      unfold send_event.
      erewrite bind_returns by (apply the_stream_run; exact Hs).
      unfold input_stream_send. rewrite Hc. reflexivity.
    + right. exists h. split; [reflexivity|].
      rewrite (end_session_run st h (conj Hs Hc) Ha). reflexivity.
  - left. unfold end_session.
    erewrite bind_returns by reflexivity. rewrite Ha. cbn [negb].
    erewrite bind_raises; [reflexivity|].
    unfold send_event, the_stream, bind, get_self, raise.
    rewrite Hs. reflexivity.
Qed.

(** X26: the handles stay valid over a session.  If no stream is closed
    before it is opened and the stream of the object is one the transport has
    given out, this is still so after [start_session] and after
    [end_session], however the latter ends: [start_session] binds the stream
    it has just opened, and [end_session] closes the stream the object
    holds and no other. *)
Theorem handles_stay_valid (st : State) :
  handles_ok st = true ->
  handles_ok (snd (start_session st)) = true /\
  handles_ok (snd (end_session st)) = true.
Proof.
  intros H. unfold handles_ok in H. apply andb_prop in H as [Hok Hs].
  split.
  - rewrite (start_session_run st Hok). cbn [snd]. unfold handles_ok.
    rewrite (started_world_ok st Hok). cbn [andb].
    unfold started. cbn [chat world stream opened with_response
                         with_is_active with_stream].
    apply Nat.ltb_lt. lia.
  - destruct (end_session_cases st) as [E | (h & Eh & E)]; rewrite E.
    + unfold handles_ok. rewrite Hok. exact Hs.
    + rewrite Eh in Hs. unfold handles_ok, ended, world_ok.
      cbn [chat world stream opened closed with_is_active forallb].
      rewrite Hs. cbn [andb]. fold (world_ok (world st)). rewrite Hok.
      destruct (chat st); cbn in *. rewrite Eh. exact Hs.
Qed.

Lemma handles_stay_valid_witness :
  handles_ok (snd (start_session (started fresh))) = true /\
  handles_ok (snd (end_session (started fresh))) = true.
Proof. apply (handles_stay_valid (started fresh)). reflexivity. Defined.

End SessionState.
